(** * RELIALIMO orchestra: a shallow embedding of the orchestration core

    The development follows the Python package [relialimo_orchestra]:
    - [tools_repo.py]   : patch validator, command executor, git tools,
                          [read_file], [run_task], [apply_patch];
    - [context.py]      : [RepoContext.abs_path];
    - [config.py]       : [OrchestraConfig.load], [dump], detection;
    - [orchestrator.py] : command executor, task runner, retry wrapper and
                          the pipeline controller [run_orchestra].

    Conventions.  A Python [str] is a [string]; a character is a code point
    below 256, the range in which [str.lower] maps one character to one
    character.  A Python [int] is a [Z].  A finite Python [float] is the
    rational it stands for ([Q]), and an operation on floats rounds its exact
    result to the nearest binary64 value ([F64]).  Everything the program
    asks of the outside world (child processes, actor calls, the random
    generator, the clock, the file system's path resolution) is answered by a
    [World]; the program threads a state [st] that counts the questions asked
    and logs every effect. *)

From Stdlib Require Import String Ascii List ZArith QArith Qminmax Qround Qabs Qpower.
From Stdlib Require Import SpecFloat Bool Lia Lqa.
From Stdlib Require Import DecimalString.
Import ListNotations.

Local Open Scope list_scope.
Local Open Scope Z_scope.
Local Open Scope string_scope.

(* ------------------------------------------------------------------ *)
(** ** Python strings *)

Module PyStr.

(** [m in s] *)
Fixpoint contains (m s : string) : bool :=
  String.prefix m s ||
  match s with
  | EmptyString => false
  | String _ s' => contains m s'
  end.

(** [s.startswith(p)] *)
Definition startswith (s p : string) : bool := String.prefix p s.

(** [any(x in s for x in xs)] *)
Definition contains_any (xs : list string) (s : string) : bool :=
  existsb (fun x => contains x s) xs.

Definition LF : ascii := "010"%char.
Definition CR : ascii := "013"%char.

(** The line boundaries of [str.splitlines] among the code points below 256:
    \n \r \v \f \x1c \x1d \x1e \x85 (and \r\n, one boundary). *)
Definition is_line_boundary (c : ascii) : bool :=
  let n := nat_of_ascii c in
  (Nat.eqb n 10 || Nat.eqb n 11 || Nat.eqb n 12 || Nat.eqb n 13 ||
   Nat.eqb n 28 || Nat.eqb n 29 || Nat.eqb n 30 || Nat.eqb n 133)%bool.

(** [splitlines_go skip_lf cur s]: [cur] is the line being read; [skip_lf]
    holds just after a \r, whose following \n belongs to the same boundary. *)
Fixpoint splitlines_go (skip_lf : bool) (cur s : string) : list string :=
  match s with
  | EmptyString => match cur with EmptyString => [] | _ => [cur] end
  | String c s' =>
      if (skip_lf && Ascii.eqb c LF)%bool then splitlines_go false cur s'
      else if Ascii.eqb c CR then cur :: splitlines_go true "" s'
      else if is_line_boundary c then cur :: splitlines_go false "" s'
      else splitlines_go false (cur ++ String c "") s'
  end.

(** [s.splitlines()] *)
Definition splitlines (s : string) : list string := splitlines_go false "" s.

(** [c.isspace()] for a code point below 256. *)
Definition isspace (c : ascii) : bool :=
  let n := nat_of_ascii c in
  ((Nat.leb 9 n && Nat.leb n 13) || (Nat.leb 28 n && Nat.leb n 32) ||
   Nat.eqb n 133 || Nat.eqb n 160)%bool.

Fixpoint lstrip (s : string) : string :=
  match s with
  | String c s' => if isspace c then lstrip s' else s
  | EmptyString => EmptyString
  end.

(** [rstrip] drops the trailing run of white space. *)
Fixpoint rstrip (s : string) : string :=
  match s with
  | EmptyString => EmptyString
  | String c s' =>
      match rstrip s' with
      | EmptyString => if isspace c then EmptyString else String c EmptyString
      | r => String c r
      end
  end.

(** [s.strip()] *)
Definition strip (s : string) : string := rstrip (lstrip s).

(** [s[-n:]] for [n > 0] *)
Definition last_chars (n : nat) (s : string) : string :=
  substring (String.length s - n) n s.

(** [s[:n]] *)
Definition first_chars (n : nat) (s : string) : string := substring 0 n s.

(** [sep.join(xs)] *)
Definition join (sep : string) (xs : list string) : string := String.concat sep xs.

(** [str(n)] for an [int] *)
Definition str_int (n : Z) : string := NilZero.string_of_int (Z.to_int n).

(** [s.split(sep)] for a one-character separator: the pieces between the
    occurrences of [sep], empty ones included. *)
Fixpoint split_go (sep : ascii) (cur s : string) : list string :=
  match s with
  | EmptyString => [cur]
  | String c s' =>
      if Ascii.eqb c sep then cur :: split_go sep "" s'
      else split_go sep (cur ++ String c "") s'
  end.

Definition split (sep : ascii) (s : string) : list string := split_go sep "" s.

(** [s.strip(c)] for a one-character set. *)
Fixpoint lstrip_char (x : ascii) (s : string) : string :=
  match s with
  | String c s' => if Ascii.eqb c x then lstrip_char x s' else s
  | EmptyString => EmptyString
  end.

Fixpoint rstrip_char (x : ascii) (s : string) : string :=
  match s with
  | EmptyString => EmptyString
  | String c s' =>
      match rstrip_char x s' with
      | EmptyString => if Ascii.eqb c x then EmptyString else String c EmptyString
      | r => String c r
      end
  end.

Definition strip_char (x : ascii) (s : string) : string :=
  rstrip_char x (lstrip_char x s).

Definition in_range (lo hi n : nat) : bool := (Nat.leb lo n && Nat.leb n hi)%bool.

(** [c.isalnum()] below 256: letters (with the Latin-1 ones), decimal digits,
    superscript digits and the vulgar fractions. *)
Definition isalnum (c : ascii) : bool :=
  let n := nat_of_ascii c in
  (in_range 48 57 n || in_range 65 90 n || in_range 97 122 n ||
   Nat.eqb n 170 || Nat.eqb n 181 || Nat.eqb n 186 ||
   Nat.eqb n 178 || Nat.eqb n 179 || Nat.eqb n 185 || in_range 188 190 n ||
   in_range 192 214 n || in_range 216 246 n || in_range 248 255 n)%bool.

(** [c.lower()] below 256. *)
Definition lower (c : ascii) : ascii :=
  let n := nat_of_ascii c in
  if (in_range 65 90 n || (in_range 192 222 n && negb (Nat.eqb n 215)))%bool
  then ascii_of_nat (n + 32) else c.

Definition hex_digit (n : nat) : ascii :=
  if Nat.ltb n 10 then ascii_of_nat (48 + n) else ascii_of_nat (87 + n).

(** [c.isprintable()] below 256. *)
Definition isprintable (c : ascii) : bool :=
  let n := nat_of_ascii c in
  (in_range 32 126 n || (in_range 161 255 n && negb (Nat.eqb n 173)))%bool.

Definition BACKSLASH : ascii := "092"%char.
Definition SQUOTE : ascii := "039"%char.
Definition DQUOTE : ascii := "034"%char.

Definition repr_char (quote c : ascii) : string :=
  let n := nat_of_ascii c in
  if (Ascii.eqb c quote || Ascii.eqb c BACKSLASH)%bool then String BACKSLASH (String c "")
  else if Nat.eqb n 9 then String BACKSLASH "t"
  else if Nat.eqb n 10 then String BACKSLASH "n"
  else if Nat.eqb n 13 then String BACKSLASH "r"
  else if isprintable c then String c ""
  else String BACKSLASH
         (String "x" (String (hex_digit (n / 16)) (String (hex_digit (n mod 16)) ""))).

Fixpoint repr_body (quote : ascii) (s : string) : string :=
  match s with
  | EmptyString => EmptyString
  | String c s' => repr_char quote c ++ repr_body quote s'
  end.

(** [repr(s)]: single quotes, unless [s] holds one and no double quote. *)
Definition repr (s : string) : string :=
  let quote :=
    if (contains (String SQUOTE "") s && negb (contains (String DQUOTE "") s))%bool
    then DQUOTE else SQUOTE in
  String quote (repr_body quote s ++ String quote "").

(** [repr(xs)] for a list of [str] *)
Definition repr_list (xs : list string) : string :=
  "[" ++ join ", " (map repr xs) ++ "]".

(** [repr(b)] for a [bool] *)
Definition repr_bool (b : bool) : string := if b then "True" else "False".

End PyStr.

(* ------------------------------------------------------------------ *)
(** ** tools_repo.py: the patch validator *)

Definition bad_markers : list string :=
  [String PyStr.LF "+++ /"; String PyStr.LF "--- /"; "diff --git /"].

Definition is_header_line (line : string) : bool :=
  (PyStr.startswith line "+++ " || PyStr.startswith line "--- " ||
   PyStr.startswith line "diff --git ")%bool.

Definition has_parent_traversal (line : string) : bool :=
  (PyStr.contains "../" line || PyStr.contains "..\" line)%bool.

(** The first loop: the first marker that occurs in the text. *)
Fixpoint first_marker (ms : list string) (patch_text : string) : option string :=
  match ms with
  | [] => None
  | m :: ms' => if PyStr.contains m patch_text then Some m else first_marker ms' patch_text
  end.

Fixpoint traversal_in_headers (lines : list string) : bool :=
  match lines with
  | [] => false
  | line :: rest =>
      if (is_header_line line && has_parent_traversal line)%bool then true
      else traversal_in_headers rest
  end.

Definition _patch_is_safe (patch_text : string) : bool * string :=
  match first_marker bad_markers patch_text with
  | Some m => (false, "Unsafe patch: contains absolute path marker " ++ PyStr.repr m)
  | None =>
      if traversal_in_headers (PyStr.splitlines patch_text)
      then (false, "Unsafe patch: contains parent traversal in diff header")
      else (true, "OK")
  end.

(* ------------------------------------------------------------------ *)
(** ** Python dictionaries with [str] keys, in insertion order *)

Definition dict (V : Type) : Type := list (string * V).

Fixpoint dict_get {V : Type} (k : string) (d : dict V) : option V :=
  match d with
  | [] => None
  | (k', v) :: d' => if String.eqb k k' then Some v else dict_get k d'
  end.

(** [d[k] = v]: an existing key keeps its place, a new one goes last. *)
Fixpoint dict_set {V : Type} (k : string) (v : V) (d : dict V) : dict V :=
  match d with
  | [] => [(k, v)]
  | (k', v') :: d' =>
      if String.eqb k k' then (k', v) :: d' else (k', v') :: dict_set k v d'
  end.

Definition dict_keys {V : Type} (d : dict V) : list string := map fst d.

(* ------------------------------------------------------------------ *)
(** ** pathlib: pure POSIX paths *)

Record Path : Type := mkPath { root : string; names : list string }.

Definition SLASH : ascii := "/"%char.

Fixpoint leading_slashes (s : string) : nat :=
  match s with
  | String c s' => if Ascii.eqb c SLASH then S (leading_slashes s') else O
  | EmptyString => O
  end.

(** [Path(s)]: exactly two leading slashes make the root "//"; empty and "."
    components are dropped, ".." ones are kept. *)
Definition parse_path (s : string) : Path :=
  let r := match leading_slashes s with
           | O => ""
           | S (S O) => "//"
           | _ => "/"
           end in
  mkPath r (filter (fun p => negb (String.eqb p "" || String.eqb p "."))
                   (PyStr.split SLASH s)).

(** [a / b] *)
Definition joinpath (a : Path) (b : string) : Path :=
  let pb := parse_path b in
  if String.eqb (root pb) "" then mkPath (root a) (names a ++ names pb)%list else pb.

(** [str(p)] *)
Definition path_str (p : Path) : string :=
  match root p, names p with
  | EmptyString, [] => "."
  | r, ns => r ++ PyStr.join "/" ns
  end.

Fixpoint list_eqb (xs ys : list string) : bool :=
  match xs, ys with
  | [], [] => true
  | x :: xs', y :: ys' => (String.eqb x y && list_eqb xs' ys')%bool
  | _, _ => false
  end.

(** [p == q] *)
Definition path_eqb (p q : Path) : bool :=
  (String.eqb (root p) (root q) && list_eqb (names p) (names q))%bool.

(** [p.parents]: the nearest ancestor first, the root (or ".") last. *)
Definition parents (p : Path) : list Path :=
  map (fun k => mkPath (root p) (firstn k (names p)))
      (rev (seq 0 (List.length (names p)))).

(** [q in ps] *)
Definition path_in (q : Path) (ps : list Path) : bool := existsb (path_eqb q) ps.

(* ------------------------------------------------------------------ *)
(** ** config.py: task specifications *)

Record TaskSpec : Type := mkTaskSpec { argv : list string; cwd : string }.

(** [TaskSpec(argv=a)], the working directory defaulting to "." *)
Definition TaskSpec_of (a : list string) : TaskSpec := mkTaskSpec a ".".

Record OrchestraConfig : Type := mkConfig { tasks : dict TaskSpec }.

Definition TASK_NAMES : list string :=
  ["install"; "format"; "lint"; "typecheck"; "test"; "build"].

(** What [json.loads] returns. *)
#[local] Unset Elimination Schemes.
Inductive json : Type :=
| JNull
| JBool (b : bool)
| JInt (n : Z)
| JFloat (lexeme : string)
| JStr (s : string)
| JArr (items : list json)
| JObj (members : list (string * json)).
#[local] Set Elimination Schemes.

(** [type(x).__name__] *)
Definition json_type_name (x : json) : string :=
  match x with
  | JNull => "NoneType" | JBool _ => "bool" | JInt _ => "int" | JFloat _ => "float"
  | JStr _ => "str" | JArr _ => "list" | JObj _ => "dict"
  end.

Definition is_str (x : json) : bool :=
  match x with JStr _ => true | _ => false end.

Definition str_of (x : json) : string :=
  match x with JStr s => s | _ => "" end.

(* ------------------------------------------------------------------ *)
(** ** Exceptions, the world, and the effect monad *)

Inductive exn : Type :=
| RateLimitError (msg : string)                        (* openai.RateLimitError *)
| APIError (status_code : option Z) (msg : string)     (* any other openai.APIError *)
| TimeoutExpired (cmd : list string) (timeout : Z)     (* subprocess.TimeoutExpired *)
| OSError (msg : string)                               (* FileNotFoundError, ... *)
| ValueError (msg : string)
| RuntimeError (msg : string)
| AttributeError (msg : string)
| OtherException (msg : string).

(** [str(e)] *)
Definition exn_str (e : exn) : string :=
  match e with
  | TimeoutExpired c t =>
      "Command '" ++ PyStr.repr_list c ++ "' timed out after " ++ PyStr.str_int t ++ " seconds"
  | RateLimitError m | APIError _ m | OSError m | ValueError m
  | RuntimeError m | AttributeError m | OtherException m => m
  end.

(** How one [subprocess.run] ends for the call that was made: it returns a
    completed process with the two texts as that call decodes them, it runs
    out of time, or it raises ([LaunchFailed]: the command cannot be started;
    or, for a call that decodes strictly, the output cannot be decoded). *)
Inductive proc_outcome : Type :=
| Exited (returncode : Z) (stdout stderr : string)
| TimedOut
| LaunchFailed (e : exn).

Record CompletedProcess : Type :=
  mkProc { returncode : Z; stdout : string; stderr : string }.

Inductive agent_name : Type :=
| RepoMapper | Planner | Coder | Debugger | Reviewer | Judge.

(** A structured actor output, known through [model_dump_json(indent=2)]. *)
Record final_output : Type := mkOutput { model_dump_json : string }.

Record World : Type := mkWorld {
  proc_answer : nat -> proc_outcome;              (* the n-th [subprocess.run] *)
  actor_answer : nat -> exn + final_output;       (* the n-th [Runner.run] *)
  random_answer : nat -> Q;                       (* the n-th [random.random()] *)
  utcnow_stamp : string;                          (* utcnow().strftime(...) *)
  fs_resolve : Path -> Path;                      (* [Path.resolve] *)
  fs_answer : nat -> option exn;                  (* the n-th write to the file system *)
  config_answer : exn + OrchestraConfig           (* [load_or_detect_config] *)
}.

Inductive event : Type :=
| EvSpawn (argv : list string) (cwd : string) (timeout_sec : Z)
| EvActor (agent : agent_name) (prompt : string) (max_turns : Z)
| EvRandom
| EvSleep (seconds : Q)
| EvPrint (text : string)
| EvMkdir (dir : Path)
| EvWriteText (file : Path) (content : string).

Record st : Type := mkSt {
  n_proc : nat;
  n_actor : nat;
  n_random : nat;
  n_fs : nat;
  log : list event;
  ctx_state : dict string                          (* [RepoContext.state] *)
}.

Definition st0 : st := mkSt 0 0 0 0 [] [].

Definition M (A : Type) : Type := st -> (exn + A) * st.

Definition ret {A : Type} (a : A) : M A := fun s => (inr a, s).

Definition raise {A : Type} (e : exn) : M A := fun s => (inl e, s).

Definition bind {A B : Type} (m : M A) (k : A -> M B) : M B :=
  fun s => match m s with
           | (inr a, s') => k a s'
           | (inl e, s') => (inl e, s')
           end.

(** [try: m  except Exception as e: h e] *)
Definition try_except {A : Type} (m : M A) (h : exn -> M A) : M A :=
  fun s => match m s with
           | (inr a, s') => (inr a, s')
           | (inl e, s') => h e s'
           end.

Declare Scope py_scope.
Delimit Scope py_scope with py.
Notation "x <- m ;; k" := (bind m (fun x => k))
  (at level 61, m at next level, right associativity) : py_scope.
Notation "m ;;; k" := (bind m (fun _ => k))
  (at level 61, right associativity) : py_scope.
Notation "' ( x , y ) <- m ;; k" := (bind m (fun p => let '(x, y) := p in k))
  (at level 61, x name, y name, m at next level, right associativity) : py_scope.
Local Open Scope py_scope.

Definition emit (e : event) : M unit :=
  fun s => (inr tt, mkSt (n_proc s) (n_actor s) (n_random s) (n_fs s)
                         (log s ++ [e])%list (ctx_state s)).

Definition set_ctx_state (k v : string) : M unit :=
  fun s => (inr tt, mkSt (n_proc s) (n_actor s) (n_random s) (n_fs s) (log s)
                         (dict_set k v (ctx_state s))).

Definition NL : string := String PyStr.LF "".

Section Effects.
Variable W : World.

(** [subprocess.run(argv, cwd=cwd, capture_output=True, text=True, timeout=t)] *)
Definition subprocess_run (a : list string) (dir : string) (t : Z) : M CompletedProcess :=
  fun s =>
    let s' := mkSt (S (n_proc s)) (n_actor s) (n_random s) (n_fs s)
                   (log s ++ [EvSpawn a dir t])%list (ctx_state s) in
    match proc_answer W (n_proc s) with
    | Exited c o e => (inr (mkProc c o e), s')
    | TimedOut => (inl (TimeoutExpired a t), s')
    | LaunchFailed e => (inl e, s')
    end.

(** [await Runner.run(agent, prompt, context=ctx, session=session, max_turns=n)] *)
Definition Runner_run (agent : agent_name) (prompt : string) (max_turns : Z) : M final_output :=
  fun s =>
    let s' := mkSt (n_proc s) (S (n_actor s)) (n_random s) (n_fs s)
                   (log s ++ [EvActor agent prompt max_turns])%list (ctx_state s) in
    match actor_answer W (n_actor s) with
    | inr out => (inr out, s')
    | inl e => (inl e, s')
    end.

(** [random.random()] *)
Definition random_random : M Q :=
  fun s => (inr (random_answer W (n_random s)),
            mkSt (n_proc s) (n_actor s) (S (n_random s)) (n_fs s)
                 (log s ++ [EvRandom])%list (ctx_state s)).

(** [await asyncio.sleep(t)] *)
Definition asyncio_sleep (t : Q) : M unit := emit (EvSleep t).

Definition print (text : string) : M unit := emit (EvPrint text).

(** One write to the file system ([mkdir], [write_text]): logged, and it
    fails when the world says so. *)
Definition fs_write (e : event) : M unit :=
  fun s =>
    let s' := mkSt (n_proc s) (n_actor s) (n_random s) (S (n_fs s))
                   (log s ++ [e])%list (ctx_state s) in
    match fs_answer W (n_fs s) with
    | None => (inr tt, s')
    | Some err => (inl err, s')
    end.
End Effects.

(** The text both executors build from a finished process. *)
Definition combined_output (proc : CompletedProcess) : string :=
  let out := "" in
  let out := if String.eqb (stdout proc) "" then out else out ++ stdout proc in
  let out := if String.eqb (stderr proc) "" then out else out ++ NL ++ stderr proc in
  out.

(** [s or d] *)
Definition str_or (s d : string) : string := if String.eqb s "" then d else s.

(** [out[:m]] *)
Definition slice_to (m : Z) (out : string) : string :=
  if (m >=? 0)%Z then PyStr.first_chars (Z.to_nat m) out
  else PyStr.first_chars (String.length out - Z.to_nat (- m)) out.

Definition BRANCH_FORBIDDEN : list string :=
  [".."; "~"; "^"; ":"; " "; String PyStr.BACKSLASH ""].

(* ------------------------------------------------------------------ *)
(** ** context.py *)

Record RepoContext : Type := mkCtx {
  repo_dir : Path;
  config : OrchestraConfig;
  session_id : string
}.

Section Context_py.
Variable W : World.

Definition abs_path (self : RepoContext) (rel_path : string) : M Path :=
  let candidate := fs_resolve W (joinpath (repo_dir self) rel_path) in
  let repo_root := fs_resolve W (repo_dir self) in
  if (negb (path_in repo_root (parents candidate)) && negb (path_eqb candidate repo_root))%bool
  then raise (ValueError ("Path escapes repo: " ++ rel_path))
  else ret candidate.
End Context_py.

(* ------------------------------------------------------------------ *)
(** ** config.py: [OrchestraConfig.load], from the parsed text on *)

Definition is_list_of_str (v : json) : bool :=
  match v with
  | JArr xs => forallb is_str xs
  | _ => false
  end.

Definition list_of_str (v : json) : list string :=
  match v with
  | JArr xs => map str_of xs
  | _ => []
  end.

Definition is_task_name (k : string) : bool := existsb (String.eqb k) TASK_NAMES.

(** The loop over [raw_tasks.items()]. *)
Fixpoint load_tasks (items : list (string * json)) (acc : dict TaskSpec) : dict TaskSpec :=
  match items with
  | [] => acc
  | (k, v) :: rest =>
      if negb (is_task_name k) then load_tasks rest acc
      else if negb (is_list_of_str v) then load_tasks rest acc
      else load_tasks rest (dict_set k (TaskSpec_of (list_of_str v)) acc)
  end.

Definition no_attribute (x : json) (attr : string) : exn :=
  AttributeError ("'" ++ json_type_name x ++ "' object has no attribute '" ++ attr ++ "'").

(** [data.get("tasks", {})] *)
Definition get_tasks (data : json) : exn + json :=
  match data with
  | JObj ms => inr (match dict_get "tasks" ms with Some v => v | None => JObj [] end)
  | _ => inl (no_attribute data "get")
  end.

Definition OrchestraConfig_load (data : json) : exn + OrchestraConfig :=
  match get_tasks data with
  | inl e => inl e
  | inr raw_tasks =>
      match raw_tasks with
      | JObj items => inr (mkConfig (load_tasks items []))
      | _ => inl (no_attribute raw_tasks "items")
      end
  end.

(** [str(config.dump())] *)
Definition dump_str (c : OrchestraConfig) : string :=
  "{'tasks': {" ++
  PyStr.join ", " (map (fun kv => PyStr.repr (fst kv) ++ ": " ++ PyStr.repr_list (argv (snd kv)))
                       (tasks c)) ++ "}}".

(* ------------------------------------------------------------------ *)
(** ** tools_repo.py: executor and tools *)

Module ToolsRepo.
Section WithWorld.
Variable W : World.

(** No handler here: whatever [subprocess.run] raises reaches the caller.
    The call passes [text=True] alone, so the output is decoded with the
    codec of the locale and strict errors, where the executor of
    orchestrator.py asks for UTF-8 with replacement: the world's answer to
    this call is the answer to a call made that way. *)
Definition _run (a : list string) (dir : Path) (timeout_sec : Z) : M (Z * string) :=
  proc <- subprocess_run W a (path_str dir) timeout_sec ;;
  ret (returncode proc, PyStr.strip (combined_output proc)).

Definition git_create_branch (ctx : RepoContext) (name : string) : M string :=
  if PyStr.contains_any BRANCH_FORBIDDEN name then ret "ERROR: invalid branch name"
  else
    '(code, out) <- _run ["git"; "checkout"; "-b"; name] (repo_dir ctx) 60 ;;
    if negb (code =? 0)%Z then ret ("ERROR: git checkout -b failed" ++ NL ++ out)
    else
      set_ctx_state "branch" name ;;;
      ret ("OK: on branch " ++ name).

(** [p.parent] *)
Definition path_parent (p : Path) : Path :=
  mkPath (root p) (removelast (names p)).

Definition write_file (ctx : RepoContext) (path content : string) (create_dirs : bool)
  : M string :=
  p <- abs_path W ctx path ;;
  (if create_dirs then fs_write W (EvMkdir (path_parent p)) else ret tt) ;;;
  fs_write W (EvWriteText p content) ;;;
  ret ("OK: wrote " ++ path ++ " (" ++
       PyStr.str_int (Z.of_nat (String.length content)) ++ " bytes)").
End WithWorld.
End ToolsRepo.

(* ------------------------------------------------------------------ *)
(** ** binary64 arithmetic

    A finite float is the rational it stands for.  An operation gives the
    binary64 value nearest to its exact result, the one with the even
    significand of two equally near (IEEE 754 round to nearest, ties to
    even: the mode Python computes in).  A result of [2^1024] or more, which
    becomes [inf], is outside this model; the retry wrapper sleeps no longer
    than 25 seconds. *)

Module F64.

(** The integer nearest to [x], the even one of two equally near. *)
Definition rne (x : Q) : Z :=
  let f := Qfloor x in
  match (x - inject_Z f ?= 1 # 2)%Q with
  | Lt => f
  | Gt => (f + 1)%Z
  | Eq => if Z.even f then f else (f + 1)%Z
  end.

(** For [x > 0], the [e] with [2^e <= x < 2^(e+1)]. *)
Definition ilog2 (x : Q) : Z :=
  let e := (Z.log2 (Qnum x) - Z.log2 (Zpos (Qden x)))%Z in
  if Qle_bool (2 ^ e) x then e else (e - 1)%Z.

(** The exponent of the last place of the floats around [x]: 53 significant
    bits, and no exponent below that of the subnormal numbers. *)
Definition last_place (x : Q) : Z := (Z.max (ilog2 (Qabs x)) (-1022) - 52)%Z.

Definition round (x : Q) : Q :=
  (inject_Z (rne (x / 2 ^ last_place x)) * 2 ^ last_place x)%Q.

(** [a + b] and [a * b] on floats *)
Definition add (a b : Q) : Q := round (a + b).

Definition mul (a b : Q) : Q := round (a * b).

End F64.

(* ------------------------------------------------------------------ *)
(** ** orchestrator.py *)

Module Orchestrator.

Definition TASK_ORDER : list string := ["format"; "lint"; "typecheck"; "test"; "build"].

Definition REPO_MAP_MAX_TURNS : Z := 30.
Definition PLAN_MAX_TURNS : Z := 20.
Definition CODER_IMPLEMENT_MAX_TURNS : Z := 60.
Definition DEBUGGER_MAX_TURNS : Z := 20.
Definition CODER_FIX_MAX_TURNS : Z := 40.
Definition REVIEW_MAX_TURNS : Z := 20.
Definition JUDGE_MAX_TURNS : Z := 20.

(** One value of the status mapping: [{"skipped": True}] or the outcome of a
    task that ran. *)
Inductive task_entry : Type :=
| Skipped
| Ran (ok : bool) (code : Z) (cmd : string) (output_tail : string).

Record OrchestraRunResult : Type := mkResult {
  repo_map : final_output;
  plan : final_output;
  final_status : dict task_entry;
  review : final_output;
  judge : final_output;
  diff : string
}.

(** [str(status)] *)
Definition entry_str (e : task_entry) : string :=
  match e with
  | Skipped => "{'skipped': True}"
  | Ran ok code cmd tail =>
      "{'ok': " ++ PyStr.repr_bool ok ++ ", 'returncode': " ++ PyStr.str_int code ++
      ", 'cmd': " ++ PyStr.repr cmd ++ ", 'output_tail': " ++ PyStr.repr tail ++ "}"
  end.

Definition status_str (status : dict task_entry) : string :=
  "{" ++ PyStr.join ", " (map (fun kv => PyStr.repr (fst kv) ++ ": " ++ entry_str (snd kv))
                              status) ++ "}".

Fixpoint map_chars (f : ascii -> ascii) (s : string) : string :=
  match s with
  | EmptyString => EmptyString
  | String c s' => String (f c) (map_chars f s')
  end.

(** The slug of [_branch_name_from_goal], for a goal of code points below
    256: there [ch.lower()] is one character. *)
Definition slug_of (goal : string) : string :=
  let slug := PyStr.strip_char "-"
                (map_chars (fun ch => if PyStr.isalnum ch then PyStr.lower ch else "-"%char) goal) in
  PyStr.first_chars 40
    (PyStr.join "-" (filter (fun p => negb (String.eqb p "")) (PyStr.split "-" slug))).

(** The scan of the status mapping for the first failing task: the text of
    [last_failure_output] when a task failed. *)
Fixpoint first_failure (order : list string) (status : dict task_entry) : option string :=
  match order with
  | [] => None
  | t :: rest =>
      match dict_get t status with
      | None => first_failure rest status
      | Some Skipped => first_failure rest status
      | Some (Ran ok _ cmd tail) =>
          if ok then first_failure rest status
          else Some (t ++ ": " ++ cmd ++ NL ++ tail)
      end
  end.

Section WithWorld.
Variable W : World.

Definition _branch_name_from_goal (goal : string) : string :=
  "ai/" ++ utcnow_stamp W ++ "_" ++ str_or (slug_of goal) "change".

Definition _run (a : list string) (dir : Path) (timeout_sec : Z) : M (Z * string) :=
  try_except
    (proc <- subprocess_run W a (path_str dir) timeout_sec ;;
     ret (returncode proc, PyStr.strip (combined_output proc)))
    (fun e => ret (1, "ERROR running command " ++ PyStr.repr_list a ++ ": " ++ exn_str e)).

Definition _git_status (dir : Path) : M string :=
  '(code, out) <- _run ["git"; "status"; "--porcelain=v1"] dir 60 ;;
  if negb (code =? 0)%Z then ret ("ERROR: git status failed" ++ NL ++ out)
  else ret (str_or out "(clean)").

Definition _git_diff (dir : Path) (staged : bool) (max_chars : Z) : M string :=
  let a := if staged then ["git"; "diff"; "--staged"] else ["git"; "diff"] in
  '(code, out) <- _run a dir 60 ;;
  if negb (code =? 0)%Z then ret ("ERROR: git diff failed" ++ NL ++ out)
  else if (Z.of_nat (String.length out) >? max_chars)%Z
       then ret (slice_to max_chars out ++ NL ++ "... (truncated)")
       else ret (str_or out "(no diff)").

Definition _git_create_branch (dir : Path) (name : string) : M string :=
  if PyStr.contains_any BRANCH_FORBIDDEN name then ret "ERROR: invalid branch name"
  else
    '(code, out) <- _run ["git"; "checkout"; "-b"; name] dir 60 ;;
    if negb (code =? 0)%Z then ret ("ERROR: git checkout -b failed" ++ NL ++ out)
    else ret ("OK: on branch " ++ name).

Definition _git_commit_all (dir : Path) (message : string) : M string :=
  if String.eqb (PyStr.strip message) "" then ret "ERROR: empty commit message"
  else
    '(code, out) <- _run ["git"; "add"; "-A"] dir 60 ;;
    if negb (code =? 0)%Z then ret ("ERROR: git add failed" ++ NL ++ out)
    else
      '(code, out) <- _run ["git"; "commit"; "-m"; PyStr.strip message] dir 60 ;;
      if negb (code =? 0)%Z then ret ("ERROR: git commit failed" ++ NL ++ out)
      else ret "OK: committed".

(** The loop of [_run_tasks] over the tasks still to visit. *)
Fixpoint run_tasks_from (ctx : RepoContext) (order : list string) (status : dict task_entry)
  : M (dict task_entry) :=
  match order with
  | [] => ret status
  | task :: rest =>
      match dict_get task (tasks (config ctx)) with
      | None => run_tasks_from ctx rest (dict_set task Skipped status)
      | Some spec =>
          '(code, out) <- _run (argv spec) (joinpath (repo_dir ctx) (cwd spec)) 900 ;;
          let tail := PyStr.last_chars 4000 out in
          let ok := (code =? 0)%Z in
          let status := dict_set task (Ran ok code (PyStr.join " " (argv spec)) tail) status in
          if negb ok then ret status else run_tasks_from ctx rest status
      end
  end.

Definition _run_tasks (ctx : RepoContext) : M (dict task_entry) :=
  run_tasks_from ctx TASK_ORDER [].

(** *** The retry wrapper *)

Definition retry_message (tag label : string) (attempt max_attempts : Z) : string :=
  "[" ++ tag ++ "] " ++ label ++ ": retrying (attempt " ++ PyStr.str_int attempt ++
  "/" ++ PyStr.str_int max_attempts ++ ")".

(** [min(20.0, delay) * (1.0 + random.random() * 0.25)], each operation
    rounded.  [delay] is 0.5 doubled some times: doubling is exact in
    binary64 (past [2^1023] it gives [inf], and [min(20.0, inf)] is 20.0, as
    [Qmin] gives for the exact number), so [delay] itself is kept exact. *)
Definition jittered (delay r : Q) : Q :=
  F64.mul (Qmin 20 delay) (F64.add 1 (F64.mul r (1 # 4))).

(** What both handlers do before the next attempt. *)
Definition back_off (tag label : string) (attempt max_attempts : Z) (delay : Q) : M unit :=
  r <- random_random W ;;
  let sleep_s := jittered delay r in
  print (retry_message tag label attempt max_attempts) ;;;
  asyncio_sleep sleep_s.

Definition exhausted_message (label : string) (max_attempts : Z) : string :=
  label ++ ": exceeded retries after " ++ PyStr.str_int max_attempts ++ " attempts".

(** The [for attempt in range(1, max_attempts + 1)] loop with [n] attempts
    left, followed by the final [raise]. *)
Fixpoint backoff_attempts (label : string) (agent : agent_name) (prompt : string)
         (max_turns max_attempts : Z) (n : nat) (attempt : Z) (delay : Q)
  : M final_output :=
  match n with
  | O => raise (RuntimeError (exhausted_message label max_attempts))
  | S n' =>
      try_except (Runner_run W agent prompt max_turns)
        (fun e =>
           match e with
           | RateLimitError _ =>
               back_off "rate-limit" label attempt max_attempts delay ;;;
               backoff_attempts label agent prompt max_turns max_attempts n'
                                (attempt + 1)%Z (delay * 2)%Q
           | APIError status _ =>
               if match status with Some c => (c <? 500)%Z | None => false end
               then raise e
               else
                 back_off "openai-5xx" label attempt max_attempts delay ;;;
                 backoff_attempts label agent prompt max_turns max_attempts n'
                                  (attempt + 1)%Z (delay * 2)%Q
           | _ => raise e
           end)
  end.

Definition _run_agent_with_backoff (label : string) (agent : agent_name) (prompt : string)
           (max_turns max_attempts : Z) : M final_output :=
  backoff_attempts label agent prompt max_turns max_attempts
                   (Z.to_nat max_attempts) 1%Z (1 # 2)%Q.

Definition DEFAULT_MAX_ATTEMPTS : Z := 8.

(** *** The pipeline controller

    In orchestrator.py the definition of [_run_agent_with_backoff] (lines
    234-272) stands at column 0 in the middle of the loop body of
    [run_orchestra].  That ends [run_orchestra] at line 232: its loop body is
    the implement call and the task run, and after the loop the function
    falls off its end.  Lines 274-354, the rest of the loop body and of the
    function, are left at an indentation that nothing opens, so that the
    module does not compile (IndentationError at line 275).

    [run_orchestra] below is the function as it stands in the file, lines
    141-232.  [run_orchestra_joined] is lines 150-232 followed by lines
    274-354, the function that the indentation of those lines describes.
    Every actor call in either is a direct [Runner.run]. *)

Definition repo_map_prompt : string :=
  "Map this repo for a developer." ++ NL ++
  "Constraints:" ++ NL ++
  "- Make at most 4 tool calls total." ++ NL ++
  "- Prefer: list_files (top-level), read README.md (if present), read package.json (if present)." ++ NL ++
  "- Identify: stack, entrypoints, scripts/commands, and key directories." ++ NL ++
  "- Return your final repo map JSON and STOP." ++ NL.

Definition plan_prompt (goal : string) (repo_map_result : final_output)
           (cfg : OrchestraConfig) : string :=
  "GOAL:" ++ NL ++ goal ++ NL ++ NL ++
  "REPO_MAP_JSON:" ++ NL ++ model_dump_json repo_map_result ++ NL ++ NL ++
  "TASK_CONFIG_JSON:" ++ NL ++ dump_str cfg ++ NL ++ NL ++
  "Produce the best step-by-step implementation plan.".

Definition implement_prompt (i max_iterations : Z) (goal : string)
           (plan_result : final_output) (git_status : string) (cfg : OrchestraConfig)
           (last_failure_output : string) : string :=
  let p :=
    "ITERATION " ++ PyStr.str_int i ++ "/" ++ PyStr.str_int max_iterations ++ NL ++
    "GOAL:" ++ NL ++ goal ++ NL ++ NL ++
    "PLAN_JSON:" ++ NL ++ model_dump_json plan_result ++ NL ++ NL ++
    "CURRENT_GIT_STATUS:" ++ NL ++ git_status ++ NL ++ NL ++
    "TASK_CONFIG_JSON:" ++ NL ++ dump_str cfg ++ NL ++ NL in
  let p :=
    if String.eqb last_failure_output "" then p
    else p ++ "PREVIOUS_FAILURE_OUTPUT:" ++ NL ++ last_failure_output ++ NL ++ NL in
  p ++ "Implement the plan now. Make the smallest correct change. " ++
       "Use apply_patch/write_file. Read files before editing. " ++
       "After edits, run the configured tasks via run_task.".

Definition debug_prompt (goal last_failure_output current_diff : string) : string :=
  "GOAL:" ++ NL ++ goal ++ NL ++ NL ++
  "FAILURE_OUTPUT:" ++ NL ++ last_failure_output ++ NL ++ NL ++
  "CURRENT_DIFF:" ++ NL ++ current_diff ++ NL ++ NL ++
  "Diagnose and propose minimal fix.".

Definition fix_prompt (debug_result : final_output) : string :=
  "Apply this fix plan now:" ++ NL ++ model_dump_json debug_result ++ NL ++ NL ++
  "Implement the smallest patch to address the failure.".

Definition review_prompt (diff_text : string) : string :=
  "Review this diff:" ++ NL ++ NL ++ diff_text.

Definition judge_prompt (goal diff_text : string) (status : dict task_entry)
           (review_result : final_output) : string :=
  "GOAL:" ++ NL ++ goal ++ NL ++ NL ++
  "DIFF:" ++ NL ++ diff_text ++ NL ++ NL ++
  "STATUS_JSON:" ++ NL ++ status_str status ++ NL ++ NL ++
  "REVIEW_JSON:" ++ NL ++ model_dump_json review_result ++ NL ++ NL ++
  "Is this done?".

(** [for i in range(1, max_iterations + 1)] as the file has it (lines
    207-232), with [n] iterations left: [last_failure_output] is never
    assigned again and stays empty, [status] is assigned and not read, and
    nothing leaves the loop before its last iteration. *)
Fixpoint implement_loop (ctx : RepoContext) (goal : string) (plan_result : final_output)
         (max_iterations : Z) (n : nat) (i : Z) : M unit :=
  match n with
  | O => ret tt
  | S n' =>
      git_status <- _git_status (repo_dir ctx) ;;
      Runner_run W Coder
        (implement_prompt i max_iterations goal plan_result git_status (config ctx) "")
        CODER_IMPLEMENT_MAX_TURNS ;;;
      _run_tasks ctx ;;;
      implement_loop ctx goal plan_result max_iterations n' (i + 1)%Z
  end.

(** The loop with lines 275-314 as the rest of its body, [n] iterations
    left; the value is [status] as the loop leaves it. *)
Fixpoint implement_loop_joined (ctx : RepoContext) (goal : string)
         (plan_result : final_output) (max_iterations : Z) (n : nat) (i : Z)
         (status : dict task_entry) (last_failure_output : string)
  : M (dict task_entry) :=
  match n with
  | O => ret status
  | S n' =>
      git_status <- _git_status (repo_dir ctx) ;;
      Runner_run W Coder
        (implement_prompt i max_iterations goal plan_result git_status (config ctx)
                          last_failure_output)
        CODER_IMPLEMENT_MAX_TURNS ;;;
      status <- _run_tasks ctx ;;
      match first_failure TASK_ORDER status with
      | None => ret status
      | Some last_failure_output =>
          current_diff <- _git_diff (repo_dir ctx) false 8000 ;;
          debug_result <- Runner_run W Debugger
                            (debug_prompt goal last_failure_output current_diff)
                            DEBUGGER_MAX_TURNS ;;
          Runner_run W Coder (fix_prompt debug_result) CODER_FIX_MAX_TURNS ;;;
          implement_loop_joined ctx goal plan_result max_iterations n' (i + 1)%Z
                                status last_failure_output
      end
  end.

(** [load_or_detect_config(repo_dir, config_path)], as the world answers it. *)
Definition load_or_detect_config : M OrchestraConfig :=
  fun s => match config_answer W with
           | inr c => (inr c, s)
           | inl e => (inl e, s)
           end.

(** The function as it stands in the file: it ends with the loop and
    returns [None]. *)
Definition run_orchestra (repo_dir0 : Path) (goal session : string) (max_iterations : Z)
           (create_branch commit : bool) : M unit :=
  let dir := fs_resolve W repo_dir0 in
  cfg <- load_or_detect_config ;;
  let ctx := mkCtx dir cfg session in
  (if create_branch
   then
     let branch := _branch_name_from_goal goal in
     _git_create_branch dir branch ;;;
     set_ctx_state "branch" branch
   else ret tt) ;;;
  repo_map_result <- Runner_run W RepoMapper repo_map_prompt REPO_MAP_MAX_TURNS ;;
  plan_result <- Runner_run W Planner (plan_prompt goal repo_map_result cfg)
                            PLAN_MAX_TURNS ;;
  implement_loop ctx goal plan_result max_iterations (Z.to_nat max_iterations) 1%Z.

(** Lines 150-232 followed by lines 274-354. *)
Definition run_orchestra_joined (repo_dir0 : Path) (goal session : string)
           (max_iterations : Z) (create_branch commit : bool) : M OrchestraRunResult :=
  let dir := fs_resolve W repo_dir0 in
  cfg <- load_or_detect_config ;;
  let ctx := mkCtx dir cfg session in
  (if create_branch
   then
     let branch := _branch_name_from_goal goal in
     _git_create_branch dir branch ;;;
     set_ctx_state "branch" branch
   else ret tt) ;;;
  repo_map_result <- Runner_run W RepoMapper repo_map_prompt REPO_MAP_MAX_TURNS ;;
  plan_result <- Runner_run W Planner (plan_prompt goal repo_map_result cfg)
                            PLAN_MAX_TURNS ;;
  status <- implement_loop_joined ctx goal plan_result max_iterations
                                  (Z.to_nat max_iterations) 1%Z [] "" ;;
  diff_text <- _git_diff dir false 8000 ;;
  review_result <- Runner_run W Reviewer (review_prompt diff_text) REVIEW_MAX_TURNS ;;
  judge_result <- Runner_run W Judge (judge_prompt goal diff_text status review_result)
                             JUDGE_MAX_TURNS ;;
  (if commit
   then _git_commit_all dir (PyStr.strip ("AI: " ++ goal)) ;;; ret tt
   else ret tt) ;;;
  ret (mkResult repo_map_result plan_result status review_result judge_result diff_text).
End WithWorld.
End Orchestrator.


(* ------------------------------------------------------------------ *)
(** ** config.py: [dump], detection, and the choice of a source *)

(** [self.dump()]: [{"tasks": {k: v.argv}}] *)
Definition OrchestraConfig_dump (c : OrchestraConfig) : json :=
  JObj [("tasks", JObj (map (fun kv => (fst kv, JArr (map JStr (argv (snd kv))))) (tasks c)))].

(** What [detect_default_config] looks at in the repository: which files
    exist, and what [json.loads] made of the text of package.json ([None]
    when reading or parsing it raised, which the code turns into [{}]). *)
Record RepoFiles : Type := mkRepoFiles {
  has_package_json : bool;
  has_pnpm_lock : bool;
  has_yarn_lock : bool;
  has_bun_lockb : bool;
  has_bun_lock : bool;
  has_package_lock : bool;
  package_json : option json;
  has_pyproject : bool;
  has_requirements : bool
}.

Definition NPM_TEST_PLACEHOLDER : string :=
  "echo " ++ String PyStr.DQUOTE "Error: no test specified" ++ String PyStr.DQUOTE " && exit 1".

(** [x in d] for the keys of a dictionary *)
Definition dict_has {V : Type} (k : string) (d : dict V) : bool :=
  match dict_get k d with Some _ => true | None => false end.

Section DetectConfig.
(** [bool(x)] for a [float], given by its lexeme. *)
Variable bool_of_float : string -> bool.

(** [bool(x)] *)
Definition json_truthy (x : json) : bool :=
  match x with
  | JNull => false
  | JBool b => b
  | JInt n => negb (n =? 0)%Z
  | JFloat lexeme => bool_of_float lexeme
  | JStr s => negb (String.eqb s "")
  | JArr items => match items with [] => false | _ => true end
  | JObj members => match members with [] => false | _ => true end
  end.

(** [x != s] for a [str] [s] *)
Definition json_differs_from (x : json) (s : string) : bool :=
  match x with
  | JStr s' => negb (String.eqb s' s)
  | _ => true
  end.

(** The package manager the lock files select. *)
Definition package_manager (f : RepoFiles) : string :=
  if has_pnpm_lock f then "pnpm"
  else if has_yarn_lock f then "yarn"
  else if (has_bun_lockb f || has_bun_lock f)%bool then "bun"
  else "npm".

(** [scripts]: the "scripts" member of [pkg] when it is a dictionary, else
    [{}]; [pkg.get] raises when [pkg] is no dictionary. *)
Definition scripts_of (pkg : json) : exn + list (string * json) :=
  match pkg with
  | JObj ms =>
      inr (match dict_get "scripts" ms with
           | Some (JObj scripts) => scripts
           | _ => []
           end)
  | _ => inl (no_attribute pkg "get")
  end.

Definition install_argv (f : RepoFiles) (pm : string) : list string :=
  if (String.eqb pm "npm" && has_package_lock f)%bool then ["npm"; "ci"]
  else if String.eqb pm "yarn" then ["yarn"; "install"; "--frozen-lockfile"]
  else if String.eqb pm "pnpm" then ["pnpm"; "install"; "--frozen-lockfile"]
  else if String.eqb pm "bun" then ["bun"; "install"]
  else [pm; "install"].

Definition set_if {V : Type} (b : bool) (k : string) (v : V) (d : dict V) : dict V :=
  if b then dict_set k v d else d.

Definition detect_node (f : RepoFiles) : exn + OrchestraConfig :=
  let pm := package_manager f in
  let pkg := match package_json f with Some v => v | None => JObj [] end in
  match scripts_of pkg with
  | inl e => inl e
  | inr scripts =>
      let t := dict_set "install" (TaskSpec_of (install_argv f pm)) [] in
      let t := set_if (dict_has "format" scripts) "format" (TaskSpec_of [pm; "run"; "format"]) t in
      let t := set_if (dict_has "lint" scripts) "lint" (TaskSpec_of [pm; "run"; "lint"]) t in
      let t := set_if (dict_has "typecheck" scripts) "typecheck"
                      (TaskSpec_of [pm; "run"; "typecheck"]) t in
      let t := set_if (match dict_get "test" scripts with
                       | Some v => (json_truthy v && json_differs_from v NPM_TEST_PLACEHOLDER)%bool
                       | None => false
                       end)
                      "test" (TaskSpec_of [pm; "test"]) t in
      let t := set_if (dict_has "build" scripts) "build" (TaskSpec_of [pm; "run"; "build"]) t in
      inr (mkConfig t)
  end.

Definition detect_python (f : RepoFiles) : OrchestraConfig :=
  let t := set_if (has_requirements f) "install"
             (TaskSpec_of ["python"; "-m"; "pip"; "install"; "-r"; "requirements.txt"]) [] in
  let t := dict_set "test" (TaskSpec_of ["python"; "-m"; "pytest"]) t in
  let t := dict_set "lint" (TaskSpec_of ["python"; "-m"; "ruff"; "check"; "."]) t in
  let t := dict_set "format" (TaskSpec_of ["python"; "-m"; "ruff"; "format"; "."]) t in
  mkConfig t.

Definition detect_default_config (f : RepoFiles) : exn + OrchestraConfig :=
  if has_package_json f then detect_node f
  else if (has_pyproject f || has_requirements f)%bool then inr (detect_python f)
  else inr (mkConfig []).

(** [load_or_detect_config]: [explicit] is the file at [config_path] when
    that path is given and exists, [default_file] the file
    .relialimo_orchestra.json of the repository when it exists; each is what
    reading and parsing it gave. *)
Definition load_or_detect_config_from (explicit default_file : option (exn + json))
           (f : RepoFiles) : exn + OrchestraConfig :=
  match explicit with
  | Some (inr data) => OrchestraConfig_load data
  | Some (inl e) => inl e
  | None =>
      match default_file with
      | Some (inr data) => OrchestraConfig_load data
      | Some (inl e) => inl e
      | None => detect_default_config f
      end
  end.
End DetectConfig.

(* ------------------------------------------------------------------ *)
(** ** tools_repo.py: the tools that touch files

    [read_file], [apply_patch] and [run_task] need more of the outside than
    the orchestrator does: the content of files, temporary files, [git apply]
    run without a time limit, the removal of a file, and values of
    [RepoContext.state] that are dictionaries.  They run in a state that has
    the core state as a part. *)

Module Tools.

Record ToolWorld : Type := mkToolWorld {
  path_exists : Path -> bool;                       (* [p.exists()] *)
  path_is_file : Path -> bool;                      (* [p.is_file()] *)
  file_text : Path -> exn + string;                 (* [p.read_text(..., errors="replace")] *)
  temp_file : nat -> exn + string;                  (* creating and writing the n-th temporary
                                                       file: its name, or what was raised *)
  git_apply_answer : nat -> exn + CompletedProcess; (* the n-th [git apply] *)
  remove_fails : nat -> bool                        (* the n-th [os.remove] raises [OSError] *)
}.

Inductive tool_event : Type :=
| ReadText (p : Path)
| TempWritten (name content : string)
| GitApply (argv : list string) (cwd : string)
| RemoveFile (name : string).

(** [core]: the state the orchestrator's effects run in.  [task_results]:
    the entries of [RepoContext.state] under the keys "task:<name>", each a
    dictionary of a return code and an output. *)
Record tstate : Type := mkT {
  core : st;
  n_temp : nat;
  n_apply : nat;
  n_remove : nat;
  tlog : list tool_event;
  task_results : dict (Z * string)
}.

Definition t0 : tstate := mkT st0 0 0 0 [] [].

Definition T (A : Type) : Type := tstate -> (exn + A) * tstate.

Definition tret {A : Type} (a : A) : T A := fun ts => (inr a, ts).

Definition traise {A : Type} (e : exn) : T A := fun ts => (inl e, ts).

Definition tbind {A B : Type} (m : T A) (k : A -> T B) : T B :=
  fun ts => match m ts with
            | (inr a, ts') => k a ts'
            | (inl e, ts') => (inl e, ts')
            end.

(** [try: m  finally: f], for an [f] that does not raise. *)
Definition finally {A : Type} (m : T A) (f : T unit) : T A :=
  fun ts => let '(r, ts') := m ts in (r, snd (f ts')).

(** A computation of the core, run on the core part of the state. *)
Definition lift {A : Type} (m : M A) : T A :=
  fun ts => let '(r, s') := m (core ts) in
            (r, mkT s' (n_temp ts) (n_apply ts) (n_remove ts) (tlog ts) (task_results ts)).

Definition tlogged (e : tool_event) (ts : tstate) : tstate :=
  mkT (core ts) (n_temp ts) (n_apply ts) (n_remove ts) (tlog ts ++ [e])%list (task_results ts).

(** [l[i]] *)
Definition py_index {A : Type} (l : list A) (i : Z) : option A :=
  if (i <? 0)%Z
  then if (- i <=? Z.of_nat (List.length l))%Z
       then nth_error l (Z.to_nat (Z.of_nat (List.length l) + i))
       else None
  else nth_error l (Z.to_nat i).

(** [range(a, b)] *)
Definition py_range (a b : Z) : list Z :=
  map (fun k => (a + Z.of_nat k)%Z) (seq 0 (Z.to_nat (b - a))).

(** [f"{s:>6}"] *)
Fixpoint spaces (n : nat) : string :=
  match n with
  | O => ""
  | S n' => String " " (spaces n')
  end.

Definition rjust (width : nat) (s : string) : string :=
  spaces (width - String.length s)%nat ++ s.

(** The loop of [read_file] over the line numbers [nums]. *)
Fixpoint numbered_lines (text : list string) (nums : list Z) : exn + list string :=
  match nums with
  | [] => inr []
  | i :: rest =>
      match py_index text (i - 1) with
      | None => inl (OtherException "list index out of range")
      | Some line =>
          match numbered_lines text rest with
          | inl e => inl e
          | inr lines => inr ((rjust 6 (PyStr.str_int i) ++ " | " ++ line) :: lines)
          end
      end
  end.

Section WithWorlds.
Variable W : World.
Variable TW : ToolWorld.

Definition read_text (p : Path) : T string :=
  fun ts => match file_text TW p with
            | inr text => (inr text, tlogged (ReadText p) ts)
            | inl e => (inl e, tlogged (ReadText p) ts)
            end.

Definition read_file (ctx : RepoContext) (path : string) (start_line end_line : Z) : T string :=
  tbind (lift (abs_path W ctx path)) (fun p =>
  if (negb (path_exists TW p) || negb (path_is_file TW p))%bool
  then tret ("ERROR: file not found: " ++ path)
  else
    tbind (read_text p) (fun content =>
    let text := PyStr.splitlines content in
    let start := Z.max 1 start_line in
    let end_ := Z.min (Z.of_nat (List.length text)) end_line in
    match numbered_lines text (py_range start (end_ + 1)) with
    | inl e => traise e
    | inr lines =>
        let header := "FILE: " ++ path ++ " (lines " ++ PyStr.str_int start ++ "-" ++
                      PyStr.str_int end_ ++ " of " ++
                      PyStr.str_int (Z.of_nat (List.length text)) ++ ")" in
        tret (header ++ NL ++ PyStr.join NL lines)
    end)).

(** [NamedTemporaryFile("w", delete=False, suffix=".patch")], the text
    written to it: the name of the file. *)
Definition write_temp (content : string) : T string :=
  fun ts =>
    let ts' := mkT (core ts) (S (n_temp ts)) (n_apply ts) (n_remove ts) (tlog ts)
                   (task_results ts) in
    match temp_file TW (n_temp ts) with
    | inr name => (inr name, tlogged (TempWritten name content) ts')
    | inl e => (inl e, ts')
    end.

(** [subprocess.run(argv, cwd=dir, capture_output=True, text=True)] *)
Definition run_git_apply (a : list string) (dir : string) : T CompletedProcess :=
  fun ts =>
    let ts' := tlogged (GitApply a dir)
                 (mkT (core ts) (n_temp ts) (S (n_apply ts)) (n_remove ts) (tlog ts)
                      (task_results ts)) in
    match git_apply_answer TW (n_apply ts) with
    | inr proc => (inr proc, ts')
    | inl e => (inl e, ts')
    end.

(** [try: os.remove(name)  except OSError: pass] *)
Definition remove_quietly (name : string) : T unit :=
  fun ts =>
    (inr tt, tlogged (RemoveFile name)
               (mkT (core ts) (n_temp ts) (n_apply ts) (S (n_remove ts)) (tlog ts)
                    (task_results ts))).

Definition apply_patch (ctx : RepoContext) (patch_text : string) : T string :=
  let '(ok, msg) := _patch_is_safe patch_text in
  if negb ok then tret ("ERROR: " ++ msg)
  else
    tbind (write_temp patch_text) (fun patch_path =>
    finally
      (tbind (run_git_apply ["git"; "apply"; "--whitespace=nowarn"; patch_path]
                            (path_str (repo_dir ctx))) (fun proc =>
       if negb (returncode proc =? 0)%Z
       then tret ("ERROR applying patch:" ++ NL ++
                  str_or (stderr proc) (str_or (stdout proc) ""))
       else tret "OK: patch applied"))
      (remove_quietly patch_path)).

(** [ctx.context.state[f"task:{task}"] = {"returncode": code, "output": out}] *)
Definition record_task (task : string) (code : Z) (output : string) : T unit :=
  fun ts => (inr tt, mkT (core ts) (n_temp ts) (n_apply ts) (n_remove ts) (tlog ts)
                         (dict_set ("task:" ++ task) (code, output) (task_results ts))).

Definition run_task (ctx : RepoContext) (task : string) (timeout_sec : Z) : T string :=
  match dict_get task (tasks (config ctx)) with
  | None => tret ("SKIP: task not configured: " ++ task)
  | Some spec =>
      tbind (lift (ToolsRepo._run W (argv spec) (joinpath (repo_dir ctx) (cwd spec))
                                  timeout_sec)) (fun p =>
      let '(code, out) := p in
      tbind (record_task task code (PyStr.last_chars 4000 out)) (fun _ =>
      let status := if (code =? 0)%Z then "OK" else "FAIL(" ++ PyStr.str_int code ++ ")" in
      let tail := PyStr.last_chars 4000 out in
      tret (status ++ ": " ++ PyStr.join " " (argv spec) ++ NL ++ tail)))
  end.
End WithWorlds.
End Tools.

(* ================================================================== *)
(** * Specification vocabulary and scripted worlds

    The predicates the properties are stated with, and the concrete worlds
    the examples run in. *)

(** [m] occurs in [s] as a contiguous piece. *)
Definition occurs (m s : string) : Prop := exists pre post, s = pre ++ m ++ post.

(** The line [line] of a diff is an absolute-path header. *)
Definition is_absolute_header (line : string) : bool :=
  (PyStr.startswith line "+++ /" || PyStr.startswith line "--- /" ||
   PyStr.startswith line "diff --git /")%bool.

(** No character of [m] ends a line. *)
Fixpoint no_boundary (m : string) : bool :=
  match m with
  | EmptyString => true
  | String c m' => (negb (PyStr.is_line_boundary c) && no_boundary m')%bool
  end.

Definition first_line_absolute : string := "+++ /etc/passwd".

(** An ordinary patch whose old file is named by an absolute path on the
    first line. *)
Definition absolute_old_file : string :=
  "--- /etc/passwd" ++ NL ++ "+++ b/etc/passwd" ++ NL ++ "@@ -1 +1 @@" ++ NL ++
  "-root:x:0:0:root:/root:/bin/bash" ++ NL ++ "+root::0:0:root:/root:/bin/bash" ++ NL.

(** Lines separated by carriage returns alone. *)
Definition cr_separated : string :=
  "--- a/notes.txt" ++ String PyStr.CR "+++ /etc/passwd" ++ String PyStr.CR "@@ -0,0 +1 @@" ++
  String PyStr.CR "+x" ++ String PyStr.CR "".


Definition benign_patch : string :=
  "diff --git a/app.py b/app.py" ++ NL ++ "--- a/app.py" ++ NL ++ "+++ b/app.py" ++ NL ++
  "@@ -1 +1 @@" ++ NL ++ "-x = 1" ++ NL ++ "+x = 2 # ../ not in a header" ++ NL.

(** The state once one more process was spawned. *)
Definition after_spawn (s : st) (a : list string) (dir : Path) (t : Z) : st :=
  mkSt (S (n_proc s)) (n_actor s) (n_random s) (n_fs s)
       (log s ++ [EvSpawn a (path_str dir) t])%list (ctx_state s).

(** The state once one more actor call was made. *)
Definition after_actor (s : st) (agent : agent_name) (prompt : string) (turns : Z) : st :=
  mkSt (n_proc s) (S (n_actor s)) (n_random s) (n_fs s)
       (log s ++ [EvActor agent prompt turns])%list (ctx_state s).

(** What the orchestrator's executor returns for each way a process ends. *)
Definition run_outcome (a : list string) (t : Z) (o : proc_outcome) : Z * string :=
  match o with
  | Exited c out err => (c, PyStr.strip (combined_output (mkProc c out err)))
  | TimedOut =>
      (1, "ERROR running command " ++ PyStr.repr_list a ++ ": " ++ exn_str (TimeoutExpired a t))
  | LaunchFailed e =>
      (1, "ERROR running command " ++ PyStr.repr_list a ++ ": " ++ exn_str e)
  end.

(** [..] components removed against their parents, as on a file system
    without symbolic links. *)
Fixpoint collapse (acc ns : list string) : list string :=
  match ns with
  | [] => rev acc
  | n :: rest =>
      if String.eqb n ".." then collapse (tl acc) rest else collapse (n :: acc) rest
  end.

Definition lexical_resolve (p : Path) : Path :=
  mkPath (if String.eqb (root p) "" then "/" else root p) (collapse [] (names p)).

(** A world that answers from two scripts; past their end every process
    exits with 0 and every actor returns an empty object. *)
Definition scripted_world (procs : list proc_outcome) (actors : list (exn + final_output))
           (cfg : exn + OrchestraConfig) : World :=
  mkWorld (fun n => nth n procs (Exited 0 "" ""))
          (fun n => nth n actors (inr (mkOutput "{}")))
          (fun _ => 0%Q)
          "20250101-120000"
          lexical_resolve
          (fun _ => None)
          cfg.

Definition demo_repo : Path := mkPath "/" ["srv"; "relialimo"].

Definition no_tasks : OrchestraConfig := mkConfig [].

Definition missing_tool : proc_outcome :=
  LaunchFailed (OSError "[Errno 2] No such file or directory: 'ruff'").

Definition TAB : ascii := "009"%char.

Definition tab_name : string := "fix" ++ String TAB "login".

(** [p] lies strictly below [r]. *)
Definition is_descendant (r p : Path) : Prop :=
  root p = root r /\ exists suffix, suffix <> [] /\ names p = (names r ++ suffix)%list.

(** The members of the "tasks" object of a configuration. *)
Definition raw_tasks_of (members : list (string * json)) : list (string * json) :=
  match dict_get "tasks" members with
  | Some (JObj items) => items
  | _ => []
  end.

Definition sample_config : list (string * json) :=
  [("tasks", JObj [("test", JArr [JStr "npm"; JStr "test"]);
                   ("deploy", JArr [JStr "make"; JStr "deploy"]);
                   ("lint", JStr "npm run lint");
                   ("build", JArr [JStr "npm"; JInt 1])])].

(** The argument vectors of the processes a log records, in order. *)
Definition spawned (l : list event) : list (list string) :=
  flat_map (fun e => match e with EvSpawn a _ _ => [a] | _ => [] end) l.

(** The commands of the configured tasks among [ts], in order. *)
Definition configured_argvs (cfg : dict TaskSpec) (ts : list string) : list (list string) :=
  flat_map (fun t => match dict_get t cfg with Some spec => [argv spec] | None => [] end) ts.

(** The entry the runner records for task [t]: skipped when [t] is not
    configured, else the outcome of its command. *)
Definition entry_for (cfg : dict TaskSpec) (t : string) (e : Orchestrator.task_entry) : Prop :=
  match dict_get t cfg with
  | None => e = Orchestrator.Skipped
  | Some spec =>
      exists code tail,
        e = Orchestrator.Ran (code =? 0)%Z code (PyStr.join " " (argv spec)) tail
  end.

(** The exit code the orchestrator's executor reports for the command of
    [spec] when it is the [n]-th process of the world: the code the process
    exits with, or 1 when it cannot be started or runs out of time. *)
Definition task_exit_code (W : World) (n : nat) (spec : TaskSpec) : Z :=
  fst (run_outcome (argv spec) 900 (proc_answer W n)).

(** What the status mapping holds for the tasks [visited] when the first
    command among them is the [n]-th process of the world: a task that is
    not configured is skipped, a configured one has the exit code and the
    output of its own process. *)
Fixpoint recorded (W : World) (cfg : dict TaskSpec) (n : nat) (visited : list string)
  : dict Orchestrator.task_entry :=
  match visited with
  | [] => []
  | t :: rest =>
      match dict_get t cfg with
      | None => (t, Orchestrator.Skipped) :: recorded W cfg n rest
      | Some spec =>
          let '(code, out) := run_outcome (argv spec) 900 (proc_answer W n) in
          (t, Orchestrator.Ran (code =? 0)%Z code (PyStr.join " " (argv spec))
                (PyStr.last_chars 4000 out))
          :: recorded W cfg (S n) rest
      end
  end.

(** The processes started for the configured tasks among [visited]. *)
Definition task_spawns (ctx : RepoContext) (visited : list string) : list event :=
  flat_map (fun t => match dict_get t (tasks (config ctx)) with
                     | Some spec => [EvSpawn (argv spec)
                                       (path_str (joinpath (repo_dir ctx) (cwd spec))) 900]
                     | None => []
                     end) visited.

Definition failed (e : Orchestrator.task_entry) : bool :=
  match e with
  | Orchestrator.Ran false _ _ _ => true
  | _ => false
  end.

Definition lint_fails : OrchestraConfig :=
  mkConfig [("lint", mkTaskSpec ["npm"; "run"; "lint"] ".");
            ("test", mkTaskSpec ["npm"; "test"] ".")].

(** The durations slept, in order. *)
Definition sleeps (l : list event) : list Q :=
  flat_map (fun e => match e with EvSleep q => [q] | _ => [] end) l.

(** The classification the specification calls retryable: a rate limit, or a
    numeric status code of 500 or more. *)
Definition retryable (e : exn) : bool :=
  match e with
  | RateLimitError _ => true
  | APIError (Some c) _ => (500 <=? c)%Z
  | _ => false
  end.

(** The failures the wrapper goes on after: the retryable ones, and the API
    errors that carry no status code. *)
Definition retried (e : exn) : bool :=
  match e with
  | RateLimitError _ => true
  | APIError (Some c) _ => (500 <=? c)%Z
  | APIError None _ => true
  | _ => false
  end.

Definition retry_tag (e : exn) : string :=
  match e with
  | RateLimitError _ => "rate-limit"
  | _ => "openai-5xx"
  end.

(** The [i]-th base delay: 0.5, 1, 2, ... and never more than 20. *)
Definition base_delay (i : nat) : Q := Qmin 20 ((1 # 2) * inject_Z (2 ^ Z.of_nat i)).

(** The state after a failed attempt that is retried. *)
Definition after_retry (W : World) (s : st) (e : exn) (label : string) (agent : agent_name)
           (prompt : string) (max_turns max_attempts attempt : Z) (delay : Q) : st :=
  mkSt (n_proc s) (S (n_actor s)) (S (n_random s)) (n_fs s)
       (log s ++ [EvActor agent prompt max_turns; EvRandom;
                  EvPrint (Orchestrator.retry_message (retry_tag e) label attempt max_attempts);
                  EvSleep (Orchestrator.jittered delay (random_answer W (n_random s)))])%list
       (ctx_state s).

(** A finite binary64 number: an integer of less than 53 bits times a power
    of two that is no smaller than the last place of the subnormal numbers. *)
Definition is_binary64 (b : Q) : Prop :=
  exists m c, (Z.abs m < 2 ^ 53)%Z /\ (-1074 <= c)%Z /\ (b == inject_Z m * 2 ^ c)%Q.

(** The number a finite value of [SpecFloat] stands for. *)
Definition SF2Q (f : spec_float) : Q :=
  match f with
  | S754_finite sign m e => ((if sign then -1 else 1) * inject_Z (Zpos m) * 2 ^ e)%Q
  | _ => 0%Q
  end.

(** The binary64 value of [m * 2^e]. *)
Definition sf_of (m e : Z) : spec_float := binary_normalize 53 1024 m e false.

(** [delay * (1.0 + r * 0.25)] with the IEEE operations of [SpecFloat]. *)
Definition sf_jittered (delay r : spec_float) : spec_float :=
  SFmul 53 1024 delay (SFadd 53 1024 (sf_of 1 0) (SFmul 53 1024 r (sf_of 1 (-2)))).

(** The largest float below 1, which is the largest [random.random()]. *)
Definition largest_draw : Q := (9007199254740991 # 9007199254740992)%Q.

(** One rate limit, then the plan; every draw is the largest one. *)
Definition draws_the_largest : World :=
  mkWorld (fun _ => Exited 0 "" "")
          (fun n => nth n [inl (RateLimitError "429 Too Many Requests")]
                        (inr (mkOutput "{plan}")))
          (fun _ => largest_draw)
          "20250101-120000" lexical_resolve (fun _ => None) (inr no_tasks).

Definition two_failures_then_plan : World :=
  scripted_world [] [inl (RateLimitError "429 Too Many Requests");
                     inl (APIError (Some 503%Z) "503 Service Unavailable");
                     inr (mkOutput "{plan}")]
                 (inr no_tasks).

Definition connection_error : exn := APIError None "Connection error.".

Definition connection_lost_once : World :=
  scripted_world [] [inl connection_error; inr (mkOutput "{plan}")] (inr no_tasks).

Definition bad_request : exn := APIError (Some 400%Z) "400 Bad Request".

Definition always_rate_limited : World :=
  mkWorld (fun _ => Exited 0 "" "") (fun _ => inl (RateLimitError "429 Too Many Requests"))
          (fun _ => 0%Q) "20250101-120000" lexical_resolve (fun _ => None) (inr no_tasks).

Definition rate_limited_once : World :=
  scripted_world [] [inl (RateLimitError "429 Too Many Requests")] (inr no_tasks).

Definition judge_unavailable : World :=
  scripted_world []
    [inr (mkOutput "{}"); inr (mkOutput "{}"); inr (mkOutput "{}"); inr (mkOutput "{}");
     inl (APIError (Some 503%Z) "503 Service Unavailable")]
    (inr no_tasks).

(** A computation that returns, calls no actor, and only adds to the log. *)
Definition quiet {A : Type} (m : M A) : Prop :=
  forall s, exists a s',
    m s = (inr a, s') /\ n_actor s' = n_actor s /\ exists l, log s' = (log s ++ l)%list.

Definition test_only : OrchestraConfig := mkConfig [("test", mkTaskSpec ["pytest"; "-q"] ".")].

(** Two iterations of the function as it stands: [git status], then the
    test task, which fails both times. *)
Definition test_fails_twice : World :=
  scripted_world [Exited 0 "" ""; Exited 1 "1 failed" ""; Exited 0 "" "";
                  Exited 1 "1 failed" ""]
                 [] (inr test_only).

(** An event that is no call of [Reviewer] and no call of [Judge]. *)
Definition before_review (e : event) : bool :=
  match e with
  | EvActor Reviewer _ _ | EvActor Judge _ _ => false
  | _ => true
  end.

(** A computation that, whether it returns or raises, adds to the log only
    events that satisfy [P]. *)
Definition adds_only (P : event -> bool) {A : Type} (m : M A) : Prop :=
  forall s, exists l, log (snd (m s)) = (log s ++ l)%list /\ forallb P l = true.

(** The invariant of a task table: no task name twice, every name one of the
    closed set, every working directory the default one. *)
Definition well_formed_tasks (d : dict TaskSpec) : Prop :=
  NoDup (dict_keys d) /\
  forall k spec, In (k, spec) d -> In k TASK_NAMES /\ cwd spec = ".".

(** One member of the dumped "tasks" object. *)
Definition dumped_task (kv : string * TaskSpec) : string * json :=
  (fst kv, JArr (map JStr (argv (snd kv)))).

Definition pnpm_repo : RepoFiles :=
  mkRepoFiles true true true false false false
    (Some (JObj [("name", JStr "relialimo");
                 ("scripts", JObj [("lint", JStr "eslint ."); ("test", JStr "vitest run");
                                   ("deploy", JStr "make deploy")])]))
    false false.

Definition broken_package_json : RepoFiles :=
  mkRepoFiles true false false false false true (Some (JArr [JStr "not an object"])) true true.

(** Every character of [s] satisfies [P]. *)
Fixpoint all_chars (P : ascii -> bool) (s : string) : bool :=
  match s with
  | EmptyString => true
  | String c s' => (P c && all_chars P s')%bool
  end.

(** The characters a slug is made of: [-] and the alphanumeric ones. *)
Definition slug_char (c : ascii) : bool := (Ascii.eqb c "-" || PyStr.isalnum c)%bool.

(** The characters of a time stamp [%Y%m%d-%H%M%S]: digits and [-]. *)
Definition stamp_char (c : ascii) : bool :=
  (Ascii.eqb c "-" || PyStr.in_range 48 57 (nat_of_ascii c))%bool.

(** A character that occurs in none of the forbidden pieces of a branch name. *)
Definition branch_safe (c : ascii) : bool :=
  negb (Ascii.eqb c "." || Ascii.eqb c "~" || Ascii.eqb c "^" || Ascii.eqb c ":" ||
        Ascii.eqb c " " || Ascii.eqb c PyStr.BACKSLASH)%bool.

(** No [-] right after a [-]; with [prev] set, no [-] at the start either. *)
Fixpoint dashes_apart (prev : bool) (s : string) : bool :=
  match s with
  | EmptyString => true
  | String c s' =>
      if Ascii.eqb c "-" then (negb prev && dashes_apart true s')%bool
      else dashes_apart false s'
  end.

Definition long_goal : string :=
  "  Fix the QUOTE flow: totals are wrong when a discount applies -- see #42!  ".

(** The text the controller keeps for the first failed entry of a status
    mapping. *)
Definition failure_text (te : string * Orchestrator.task_entry) : string :=
  match snd te with
  | Orchestrator.Ran _ _ cmd tail => fst te ++ ": " ++ cmd ++ NL ++ tail
  | Orchestrator.Skipped => ""
  end.

(** The recorded output of an entry is at most [n] characters long. *)
Definition tail_within (n : nat) (e : Orchestrator.task_entry) : Prop :=
  match e with
  | Orchestrator.Ran _ _ _ tail => (String.length tail <= n)%nat
  | Orchestrator.Skipped => True
  end.

Definition lint_broken : World :=
  scripted_world [Exited 1 "SyntaxError line 4" ""] [] (inr lint_fails).

(** The exit code and text the orchestrator's executor makes of the [n]-th
    process when it runs [a] with a limit of 60 seconds. *)
Definition git_outcome (W : World) (n : nat) (a : list string) : Z * string :=
  run_outcome a 60 (proc_answer W n).

Definition long_diff : World :=
  scripted_world [Exited 0 "diff --git a/app.py b/app.py" ""] [] (inr no_tasks).

(** The agents called, in order. *)
Definition actors_of (l : list event) : list agent_name :=
  flat_map (fun e => match e with EvActor a _ _ => [a] | _ => [] end) l.

(** The line [read_file] prints for line number [i] of [text]. *)
Definition numbered (text : list string) (i : Z) : string :=
  Tools.rjust 6 (PyStr.str_int i) ++ " | " ++ nth (Z.to_nat (i - 1)) text "".


Definition readme : Path := mkPath "/" ["srv"; "relialimo"; "README.md"].

(** A file system that holds one file of three lines, in which every
    temporary file gets the same name and [git apply] succeeds. *)
Definition demo_files : Tools.ToolWorld :=
  Tools.mkToolWorld
    (fun p => path_eqb p readme)
    (fun p => path_eqb p readme)
    (fun p => if path_eqb p readme
              then inr ("RELIALIMO" ++ NL ++ "Agents for a repository" ++ NL ++ "MIT")
              else inl (OSError "[Errno 2] No such file or directory"))
    (fun _ => inr "/tmp/tmpk3x.patch")
    (fun _ => inr (mkProc 0 "" ""))
    (fun _ => false).


(* ================================================================== *)
(** * Properties *)

(* ================================================================== *)
(** * Facts about strings *)

Lemma append_nil_r (s : string) : s ++ "" = s.
Proof. induction s as [|c s IH]; simpl; [reflexivity | now rewrite IH]. Qed.

Lemma append_assoc (a b c : string) : (a ++ b) ++ c = a ++ (b ++ c).
Proof. induction a as [|x a IH]; simpl; [reflexivity | now rewrite IH]. Qed.

Lemma prefix_app (m post : string) : String.prefix m (m ++ post) = true.
Proof.
  induction m as [|c m IH]; simpl.
  - now destruct post.
  - destruct (ascii_dec c c) as [_|ne]; [exact IH | now elim ne].
Qed.

Lemma prefix_split (m s : string) :
  String.prefix m s = true -> exists post, s = m ++ post.
Proof.
  revert s; induction m as [|c m IH]; intros s H.
  - now exists s.
  - destruct s as [|d s]; simpl in H; [discriminate|].
    destruct (ascii_dec c d) as [->|]; [|discriminate].
    destruct (IH _ H) as [post ->]. now exists post.
Qed.

Lemma prefix_iff (m s : string) :
  String.prefix m s = true <-> exists post, s = m ++ post.
Proof.
  split; [apply prefix_split | intros [post ->]; apply prefix_app].
Qed.

Lemma prefix_weaken (a b s : string) :
  String.prefix (a ++ b) s = true -> String.prefix a s = true.
Proof.
  intros H. apply prefix_split in H as [post ->].
  rewrite append_assoc. apply prefix_app.
Qed.

Lemma contains_unfold (m s : string) :
  PyStr.contains m s =
  (String.prefix m s ||
   match s with EmptyString => false | String _ s' => PyStr.contains m s' end)%bool.
Proof. destruct s; reflexivity. Qed.

Lemma contains_occurs (m s : string) : PyStr.contains m s = true <-> occurs m s.
Proof.
  split.
  - induction s as [|c s IH]; rewrite contains_unfold; intros H.
    + rewrite orb_false_r in H. apply prefix_split in H as [post E].
      exists "", post. exact E.
    + apply orb_true_iff in H as [H|H].
      * apply prefix_split in H as [post E]. exists "", post. exact E.
      * destruct (IH H) as (pre & post & ->). now exists (String c pre), post.
  - intros (pre & post & ->). induction pre as [|c pre IH]; rewrite contains_unfold.
    + change ("" ++ m ++ post) with (m ++ post). now rewrite prefix_app.
    + cbn [append]. rewrite IH. apply orb_true_r.
Qed.

Lemma contains_false_not_occurs (m s : string) :
  PyStr.contains m s = false <-> ~ occurs m s.
Proof.
  rewrite <- contains_occurs. destruct (PyStr.contains m s); split; intros; congruence.
Qed.

(** *** Lines of a text *)

Lemma splitlines_go_cur (cur s : string) :
  cur <> "" ->
  exists line, In line (PyStr.splitlines_go false cur s) /\ String.prefix cur line = true.
Proof.
  revert cur; induction s as [|c s IH]; intros cur Hne; simpl.
  - destruct cur as [|x cur]; [now elim Hne|].
    exists (String x cur). split; [now left|].
    rewrite <- (append_nil_r (String x cur)) at 2. apply prefix_app.
  - destruct (Ascii.eqb c PyStr.CR).
    + exists cur. split; [now left|].
      rewrite <- (append_nil_r cur) at 2. apply prefix_app.
    + destruct (PyStr.is_line_boundary c).
      * exists cur. split; [now left|].
        rewrite <- (append_nil_r cur) at 2. apply prefix_app.
      * destruct (IH (cur ++ String c "")) as (line & Hin & Hp).
        { destruct cur; simpl; discriminate. }
        exists line. split; [exact Hin|]. eapply prefix_weaken; exact Hp.
Qed.

Lemma boundary_CR_LF (c : ascii) :
  PyStr.is_line_boundary c = false ->
  Ascii.eqb c PyStr.CR = false /\ Ascii.eqb c PyStr.LF = false.
Proof.
  intros H. split.
  - destruct (Ascii.eqb_spec c PyStr.CR) as [->|]; [discriminate H | reflexivity].
  - destruct (Ascii.eqb_spec c PyStr.LF) as [->|]; [discriminate H | reflexivity].
Qed.

Lemma splitlines_go_piece (m cur post : string) :
  no_boundary m = true -> cur ++ m <> "" ->
  exists line, In line (PyStr.splitlines_go false cur (m ++ post)) /\
               String.prefix (cur ++ m) line = true.
Proof.
  revert cur; induction m as [|c m IH]; intros cur Hnb Hne.
  - rewrite append_nil_r in *. simpl. now apply splitlines_go_cur.
  - simpl in Hnb. apply andb_true_iff in Hnb as [Hc Hm].
    apply negb_true_iff in Hc. destruct (boundary_CR_LF _ Hc) as [Hcr _].
    simpl. rewrite Hcr, Hc.
    destruct (IH (cur ++ String c "") Hm) as (line & Hin & Hp).
    { destruct cur; simpl; discriminate. }
    exists line. split; [exact Hin|].
    rewrite append_assoc in Hp. exact Hp.
Qed.

(** A piece that follows a newline starts a line of its own. *)
Lemma splitlines_after_newline (m pre post : string) :
  no_boundary m = true -> m <> "" ->
  forall b cur, (b = true -> cur = "") ->
  exists line, In line (PyStr.splitlines_go b cur (pre ++ String PyStr.LF (m ++ post))) /\
               String.prefix m line = true.
Proof.
  intros Hnb Hne. induction pre as [|c pre IH]; intros b cur Hb.
  - simpl. destruct b; simpl.
    + rewrite (Hb eq_refl). apply (splitlines_go_piece m "" post Hnb). exact Hne.
    + destruct (splitlines_go_piece m "" post Hnb) as (line & Hin & Hp); [exact Hne|].
      exists line. split; [now right | exact Hp].
  - simpl.
    destruct (b && Ascii.eqb c PyStr.LF)%bool eqn:E1.
    + apply (IH false cur). discriminate.
    + destruct (Ascii.eqb c PyStr.CR).
      * destruct (IH true "") as (line & Hin & Hp); [reflexivity|].
        exists line. split; [now right | exact Hp].
      * destruct (PyStr.is_line_boundary c).
        -- destruct (IH false "") as (line & Hin & Hp); [discriminate|].
           exists line. split; [now right | exact Hp].
        -- apply (IH false). discriminate.
Qed.

Lemma occurs_after_newline_line (m text : string) :
  no_boundary m = true -> m <> "" ->
  occurs (String PyStr.LF m) text ->
  exists line, In line (PyStr.splitlines text) /\ String.prefix m line = true.
Proof.
  intros Hnb Hne (pre & post & ->). unfold PyStr.splitlines.
  apply (splitlines_after_newline m pre post Hnb Hne). discriminate.
Qed.

(** *** The validator's two loops *)

Lemma traversal_in_headers_true (lines : list string) :
  traversal_in_headers lines = true <->
  exists line, In line lines /\ is_header_line line = true /\ has_parent_traversal line = true.
Proof.
  induction lines as [|l lines IH]; simpl.
  - split; [discriminate | intros (? & [] & _)].
  - destruct (is_header_line l && has_parent_traversal l)%bool eqn:E.
    + split; [intros _ | reflexivity].
      apply andb_true_iff in E as [E1 E2]. exists l. auto.
    + rewrite IH. split.
      * intros (line & Hin & H1 & H2). exists line. auto.
      * intros (line & [->|Hin] & H1 & H2).
        -- rewrite H1, H2 in E. discriminate.
        -- exists line. auto.
Qed.

Lemma first_marker_none (ms : list string) (text : string) :
  first_marker ms text = None <-> forall m, In m ms -> PyStr.contains m text = false.
Proof.
  induction ms as [|m ms IH]; simpl.
  - split; [intros _ ? [] | reflexivity].
  - destruct (PyStr.contains m text) eqn:E.
    + split; [discriminate|]. intros H. rewrite (H m) in E; [discriminate | now left].
    + rewrite IH. split.
      * intros H x [<-|Hx]; auto.
      * intros H x Hx. apply H. now right.
Qed.

Lemma first_marker_some (ms : list string) (text m : string) :
  In m ms -> PyStr.contains m text = true -> exists m', first_marker ms text = Some m'.
Proof.
  induction ms as [|x ms IH]; simpl; intros [] Hc.
  - subst. rewrite Hc. eauto.
  - destruct (PyStr.contains x text); eauto.
Qed.

(* ================================================================== *)
(** * The patch validator (tools_repo.py) *)

(** C2, the failing input.  A diff whose first line is the header
    [+++ /etc/passwd], or [--- /etc/passwd] followed by an ordinary patch, is
    accepted: the two markers for [+++ /] and [--- /] begin with a newline
    and so never match the first line of the text.  A header after a
    carriage return is a line of its own for [splitlines], and is accepted
    for the same reason.  The same patch is rejected once a line stands before
    the header. *)
Theorem patch_validator_accepts_absolute_header :
  (PyStr.splitlines first_line_absolute = ["+++ /etc/passwd"] /\
   is_header_line "+++ /etc/passwd" = true /\
   is_absolute_header "+++ /etc/passwd" = true /\
   _patch_is_safe first_line_absolute = (true, "OK"))
  /\
  (nth 0 (PyStr.splitlines absolute_old_file) "" = "--- /etc/passwd" /\
   is_header_line "--- /etc/passwd" = true /\
   is_absolute_header "--- /etc/passwd" = true /\
   _patch_is_safe absolute_old_file = (true, "OK"))
  /\
  (nth 1 (PyStr.splitlines cr_separated) "" = "+++ /etc/passwd" /\
   _patch_is_safe cr_separated = (true, "OK"))
  /\
  fst (_patch_is_safe ("diff --git a/etc/passwd b/etc/passwd" ++ NL ++ absolute_old_file))
  = false.
Proof. repeat split; reflexivity. Qed.


(** What the validator does decide: it rejects every diff text in which some
    [+++ ], [--- ] or [diff --git ] header line, the first line included,
    holds [../] or [..\], or in which [+++ /] or [--- /] directly follows a
    newline, or in which [diff --git /] occurs; and it accepts, with reason
    OK, every diff text none of whose header lines holds a traversal token or
    an absolute path and in which [diff --git /] occurs nowhere. *)
Lemma patch_validator_verdict (text : string) :
  ((exists line, In line (PyStr.splitlines text) /\
                 is_header_line line = true /\ has_parent_traversal line = true) \/
   occurs (String PyStr.LF "+++ /") text \/
   occurs (String PyStr.LF "--- /") text \/
   occurs "diff --git /" text ->
   fst (_patch_is_safe text) = false)
  /\
  ((forall line, In line (PyStr.splitlines text) -> is_header_line line = true ->
                 has_parent_traversal line = false /\ is_absolute_header line = false) ->
   ~ occurs "diff --git /" text ->
   _patch_is_safe text = (true, "OK")).
Proof.
  split.
  - intros H. unfold _patch_is_safe.
    destruct (first_marker bad_markers text) as [m|] eqn:Em; [reflexivity|].
    pose proof (proj1 (first_marker_none _ _) Em) as Hnone.
    destruct H as [H|[H|[H|H]]].
    + apply traversal_in_headers_true in H. now rewrite H.
    + apply contains_occurs in H. rewrite Hnone in H; [discriminate | simpl; auto].
    + apply contains_occurs in H. rewrite Hnone in H; [discriminate | simpl; auto].
    + apply contains_occurs in H. rewrite Hnone in H; [discriminate | simpl; auto].
  - intros Hlines Hgit. unfold _patch_is_safe.
    assert (Hno : forall m, m = "+++ /" \/ m = "--- /" ->
                            PyStr.contains (String PyStr.LF m) text = false).
    { intros m Hm. apply contains_false_not_occurs. intros Hocc.
      apply occurs_after_newline_line in Hocc as (line & Hin & Hp);
        [| destruct Hm as [->| ->]; reflexivity | destruct Hm as [->| ->]; discriminate].
      assert (Hh : is_header_line line = true).
      { unfold is_header_line, PyStr.startswith.
        destruct Hm as [->| ->].
        - rewrite (prefix_weaken "+++ " "/" line Hp). reflexivity.
        - rewrite (prefix_weaken "--- " "/" line Hp). now rewrite orb_true_r. }
      destruct (Hlines line Hin Hh) as [_ Habs].
      unfold is_absolute_header, PyStr.startswith in Habs.
      destruct Hm as [->| ->]; rewrite Hp in Habs; simpl in Habs.
      - discriminate.
      - rewrite orb_true_r in Habs. discriminate. }
    assert (Em : first_marker bad_markers text = None).
    { apply first_marker_none. intros m [<-|[<-|[<-|[]]]].
      - apply Hno. now left.
      - apply Hno. now right.
      - now apply contains_false_not_occurs. }
    rewrite Em.
    destruct (traversal_in_headers (PyStr.splitlines text)) eqn:Et; [|reflexivity].
    apply traversal_in_headers_true in Et as (line & Hin & H1 & H2).
    destruct (Hlines line Hin H1) as [H3 _]. congruence.
Qed.

(* ================================================================== *)
(** * Stepping through the effect monad *)

Lemma bind_inr {A B : Type} (m : M A) (k : A -> M B) (s s' : st) (a : A) :
  m s = (inr a, s') -> bind m k s = k a s'.
Proof. intros H. unfold bind. now rewrite H. Qed.

Lemma bind_inl {A B : Type} (m : M A) (k : A -> M B) (s s' : st) (e : exn) :
  m s = (inl e, s') -> bind m k s = (inl e, s').
Proof. intros H. unfold bind. now rewrite H. Qed.

Lemma orchestrator_run_eq (W : World) (a : list string) (dir : Path) (t : Z) (s : st) :
  Orchestrator._run W a dir t s =
  (inr (run_outcome a t (proc_answer W (n_proc s))), after_spawn s a dir t).
Proof.
  unfold Orchestrator._run, try_except, bind, subprocess_run, run_outcome, after_spawn.
  destruct (proc_answer W (n_proc s)); reflexivity.
Qed.

(** The orchestrator's executor always hands back a pair. *)
Lemma orchestrator_run_total (W : World) (a : list string) (dir : Path) (t : Z) (s : st) :
  exists code out, Orchestrator._run W a dir t s = (inr (code, out), after_spawn s a dir t).
Proof.
  rewrite orchestrator_run_eq.
  destruct (run_outcome a t (proc_answer W (n_proc s))) as [code out]. eauto.
Qed.

(** A timeout comes back from the orchestrator's executor as exit code 1 and
    a text that says so. *)
Lemma orchestrator_run_timeout (W : World) (a : list string) (dir : Path) (t : Z) (s : st) :
  proc_answer W (n_proc s) = TimedOut ->
  exists out, fst (Orchestrator._run W a dir t s) = inr (1%Z, out) /\
              occurs "timed out after" out.
Proof.
  intros H. rewrite orchestrator_run_eq, H. unfold run_outcome, exn_str. cbn [fst].
  exists ("ERROR running command " ++ PyStr.repr_list a ++ ": " ++
          "Command '" ++ PyStr.repr_list a ++ "' timed out after " ++
          PyStr.str_int t ++ " seconds").
  split; [reflexivity|].
  exists ("ERROR running command " ++ PyStr.repr_list a ++ ": Command '" ++
          PyStr.repr_list a ++ "' "), (" " ++ PyStr.str_int t ++ " seconds").
  rewrite !append_assoc. reflexivity.
Qed.

(** The executor of tools_repo.py lets every failure of the launch through. *)
Lemma tools_run_eq (W : World) (a : list string) (dir : Path) (t : Z) (s : st) :
  ToolsRepo._run W a dir t s =
  (match proc_answer W (n_proc s) with
   | Exited c out err => inr (c, PyStr.strip (combined_output (mkProc c out err)))
   | TimedOut => inl (TimeoutExpired a t)
   | LaunchFailed e => inl e
   end, after_spawn s a dir t).
Proof.
  unfold ToolsRepo._run, bind, subprocess_run, after_spawn.
  destruct (proc_answer W (n_proc s)); reflexivity.
Qed.

(* ================================================================== *)
(** * The command executor *)

(** C3, the failing input.  When the executable cannot be launched the
    executor of tools_repo.py raises to its caller, where the executor of
    orchestrator.py returns exit code 1 and an error text; the same holds when
    the time limit is exceeded. *)
Theorem tools_run_raises :
  fst (ToolsRepo._run (scripted_world [missing_tool] [] (inr no_tasks))
         ["ruff"; "check"] demo_repo 900 st0)
  = inl (OSError "[Errno 2] No such file or directory: 'ruff'")
  /\
  fst (Orchestrator._run (scripted_world [missing_tool] [] (inr no_tasks))
         ["ruff"; "check"] demo_repo 900 st0)
  = inr (1%Z, "ERROR running command ['ruff', 'check']: [Errno 2] No such file or directory: 'ruff'")
  /\
  fst (ToolsRepo._run (scripted_world [TimedOut] [] (inr no_tasks))
         ["pytest"] demo_repo 900 st0)
  = inl (TimeoutExpired ["pytest"] 900)
  /\
  fst (Orchestrator._run (scripted_world [TimedOut] [] (inr no_tasks))
         ["pytest"] demo_repo 900 st0)
  = inr (1%Z, "ERROR running command ['pytest']: Command '['pytest']' timed out after 900 seconds").
Proof. repeat split; reflexivity. Qed.

(* ================================================================== *)
(** * Branch creation *)

(** C9, counterexample.  A tab is a white-space character, yet a branch name
    that holds one is handed to [git checkout -b] by both operations. *)
Lemma branch_whitespace_counterexample :
  PyStr.isspace TAB = true /\
  PyStr.contains (String TAB "") tab_name = true /\
  log (snd (ToolsRepo.git_create_branch (scripted_world [] [] (inr no_tasks))
              (mkCtx demo_repo no_tasks "relialimo_dev") tab_name st0))
  = [EvSpawn ["git"; "checkout"; "-b"; tab_name] "/srv/relialimo" 60] /\
  log (snd (Orchestrator._git_create_branch (scripted_world [] [] (inr no_tasks))
              demo_repo tab_name st0))
  = [EvSpawn ["git"; "checkout"; "-b"; tab_name] "/srv/relialimo" 60].
Proof. repeat split; reflexivity. Qed.

Lemma contains_any_true (xs : list string) (x name : string) :
  In x xs -> occurs x name -> PyStr.contains_any xs name = true.
Proof.
  intros Hin Hocc. unfold PyStr.contains_any. apply existsb_exists.
  exists x. split; [exact Hin | now apply contains_occurs].
Qed.

(** C9, as amended.  A branch name in which [..], [~], [^], [:], a space or
    a backslash occurs is rejected by both branch-creation operations with
    the error text, and nothing is run: the state, with its log of spawned
    processes, is the one before the call. *)
Theorem branch_name_rejected (W : World) (ctx : RepoContext) (dir : Path)
        (name x : string) (s : st) :
  In x [".."; "~"; "^"; ":"; " "; "\"] ->
  occurs x name ->
  ToolsRepo.git_create_branch W ctx name s = (inr "ERROR: invalid branch name", s) /\
  Orchestrator._git_create_branch W dir name s = (inr "ERROR: invalid branch name", s).
Proof.
  intros Hin Hocc.
  assert (H : PyStr.contains_any BRANCH_FORBIDDEN name = true)
    by (apply (contains_any_true _ x); assumption).
  unfold ToolsRepo.git_create_branch, Orchestrator._git_create_branch.
  rewrite H. split; reflexivity.
Qed.

Lemma branch_name_rejected_witness :
  ToolsRepo.git_create_branch (scripted_world [] [] (inr no_tasks))
    (mkCtx demo_repo no_tasks "relialimo_dev") "ai/fix..login" st0
  = (inr "ERROR: invalid branch name", st0) /\
  Orchestrator._git_create_branch (scripted_world [] [] (inr no_tasks))
    demo_repo "ai/fix..login" st0
  = (inr "ERROR: invalid branch name", st0).
Proof.
  apply (branch_name_rejected _ _ _ "ai/fix..login" "..").
  - simpl. auto.
  - exists "ai/fix", "login". reflexivity.
Defined.

(* ================================================================== *)
(** * Path confinement (context.py) *)

Lemma list_eqb_eq (xs ys : list string) : list_eqb xs ys = true <-> xs = ys.
Proof.
  revert ys; induction xs as [|x xs IH]; intros [|y ys]; simpl;
    try (split; [discriminate | discriminate]); [tauto|].
  rewrite andb_true_iff, String.eqb_eq, IH.
  split; [intros [-> ->]; reflexivity | intros H; injection H; auto].
Qed.

Lemma path_eqb_eq (p q : Path) : path_eqb p q = true <-> p = q.
Proof.
  destruct p as [rp np], q as [rq nq]. unfold path_eqb; simpl.
  rewrite andb_true_iff, String.eqb_eq, list_eqb_eq.
  split; [intros [-> ->]; reflexivity | intros H; injection H; auto].
Qed.

Lemma path_in_parents (r p : Path) :
  path_in r (parents p) = true <-> is_descendant r p.
Proof.
  unfold path_in, parents, is_descendant. rewrite existsb_exists. split.
  - intros (x & Hin & Heq). apply path_eqb_eq in Heq. subst x.
    apply in_map_iff in Hin as (k & <- & Hk).
    apply in_rev, in_seq in Hk. simpl. split; [reflexivity|].
    exists (skipn k (names p)). split.
    + intros E. apply (f_equal (@List.length string)) in E.
      rewrite length_skipn in E. simpl in E. lia.
    + symmetry. apply firstn_skipn.
  - intros (Hr & suffix & Hne & Hn).
    exists (mkPath (root p) (firstn (List.length (names r)) (names p))). split.
    + apply in_map_iff. exists (List.length (names r)). split; [reflexivity|].
      apply -> in_rev. apply in_seq. rewrite Hn, length_app.
      destruct suffix; [now elim Hne | simpl; lia].
    + apply path_eqb_eq. rewrite Hn, Hr. destruct r as [rr nr]; simpl.
      rewrite firstn_app, Nat.sub_diag, firstn_all. simpl. now rewrite app_nil_r.
Qed.

(** C7.  With [repoRoot] the resolved repository root and [candidate] the
    resolved [repoRoot / p]: when [candidate] is neither [repoRoot] nor below
    it, [abs_path] raises and leaves the state untouched, so that a tool such
    as [write_file] raises before it creates a directory or writes a file;
    when [candidate] is [repoRoot] or below it, [abs_path] returns it. *)
Theorem abs_path_confined (W : World) (self : RepoContext) (rel_path : string) (s : st) :
  (fs_resolve W (joinpath (repo_dir self) rel_path) <> fs_resolve W (repo_dir self) /\
   ~ is_descendant (fs_resolve W (repo_dir self))
                   (fs_resolve W (joinpath (repo_dir self) rel_path)) ->
   abs_path W self rel_path s = (inl (ValueError ("Path escapes repo: " ++ rel_path)), s) /\
   forall content create_dirs,
     ToolsRepo.write_file W self rel_path content create_dirs s
     = (inl (ValueError ("Path escapes repo: " ++ rel_path)), s))
  /\
  (fs_resolve W (joinpath (repo_dir self) rel_path) = fs_resolve W (repo_dir self) \/
   is_descendant (fs_resolve W (repo_dir self))
                 (fs_resolve W (joinpath (repo_dir self) rel_path)) ->
   abs_path W self rel_path s = (inr (fs_resolve W (joinpath (repo_dir self) rel_path)), s)).
Proof.
  unfold abs_path.
  set (candidate := fs_resolve W (joinpath (repo_dir self) rel_path)).
  set (repo_root := fs_resolve W (repo_dir self)).
  split.
  - intros [Hne Hnd].
    assert (E1 : path_in repo_root (parents candidate) = false).
    { destruct (path_in repo_root (parents candidate)) eqn:E; [|reflexivity].
      apply path_in_parents in E. contradiction. }
    assert (E2 : path_eqb candidate repo_root = false).
    { destruct (path_eqb candidate repo_root) eqn:E; [|reflexivity].
      apply path_eqb_eq in E. contradiction. }
    assert (Habs : abs_path W self rel_path s
                   = (inl (ValueError ("Path escapes repo: " ++ rel_path)), s)).
    { unfold abs_path. fold candidate repo_root. rewrite E1, E2. reflexivity. }
    split.
    + rewrite E1, E2. reflexivity.
    + intros content create_dirs. unfold ToolsRepo.write_file.
      apply bind_inl. exact Habs.
  - intros [Heq|Hd].
    + apply path_eqb_eq in Heq. rewrite Heq, andb_false_r. reflexivity.
    + apply path_in_parents in Hd. rewrite Hd. reflexivity.
Qed.

Lemma not_descendant (r p : Path) :
  path_in r (parents p) = false -> ~ is_descendant r p.
Proof. intros E H. apply path_in_parents in H. congruence. Qed.

Lemma abs_path_confined_witness :
  (abs_path (scripted_world [] [] (inr no_tasks)) (mkCtx demo_repo no_tasks "relialimo_dev")
            "../../etc/passwd" st0
   = (inl (ValueError "Path escapes repo: ../../etc/passwd"), st0) /\
   ToolsRepo.write_file (scripted_world [] [] (inr no_tasks))
            (mkCtx demo_repo no_tasks "relialimo_dev") "../../etc/passwd" "root::0:0" true st0
   = (inl (ValueError "Path escapes repo: ../../etc/passwd"), st0)) /\
  abs_path (scripted_world [] [] (inr no_tasks)) (mkCtx demo_repo no_tasks "relialimo_dev")
           "src/../app.py" st0
  = (inr (mkPath "/" ["srv"; "relialimo"; "app.py"]), st0).
Proof.
  split.
  - destruct (proj1 (abs_path_confined (scripted_world [] [] (inr no_tasks))
                       (mkCtx demo_repo no_tasks "relialimo_dev")
                       "../../etc/passwd" st0)) as [H1 H2].
    + split; [discriminate | apply not_descendant; reflexivity].
    + split; [exact H1 | apply H2].
  - apply (proj2 (abs_path_confined (scripted_world [] [] (inr no_tasks))
                    (mkCtx demo_repo no_tasks "relialimo_dev") "src/../app.py" st0)).
    right. apply path_in_parents. reflexivity.
Defined.

(* ================================================================== *)
(** * Loading the configuration (config.py) *)

(** C10, counterexample.  A JSON object whose "tasks" member is [null], or a
    list, makes [OrchestraConfig.load] raise. *)
Lemma load_counterexample :
  OrchestraConfig_load (JObj [("tasks", JNull)])
  = inl (AttributeError "'NoneType' object has no attribute 'items'") /\
  OrchestraConfig_load (JObj [("tasks", JArr [JStr "npm"; JStr "test"])])
  = inl (AttributeError "'list' object has no attribute 'items'").
Proof. split; reflexivity. Qed.

Lemma is_task_name_In (k : string) : is_task_name k = true <-> In k TASK_NAMES.
Proof.
  unfold is_task_name. rewrite existsb_exists. split.
  - intros (x & Hin & E). apply String.eqb_eq in E. now subst.
  - intros H. exists k. split; [exact H | apply String.eqb_refl].
Qed.

Lemma dict_get_set {V : Type} (k k' : string) (v : V) (d : dict V) :
  dict_get k (dict_set k' v d) = if String.eqb k k' then Some v else dict_get k d.
Proof.
  induction d as [|[k0 v0] d IH]; simpl.
  - reflexivity.
  - destruct (String.eqb k' k0) eqn:E0; simpl.
    + apply String.eqb_eq in E0. subst k0.
      destruct (String.eqb k k'); reflexivity.
    + destruct (String.eqb k k0) eqn:E1.
      * apply String.eqb_eq in E1. subst k0.
        rewrite String.eqb_sym in E0. now rewrite E0.
      * exact IH.
Qed.

Lemma In_dict_set {V : Type} (k a : string) (v b : V) (d : dict V) :
  In (a, b) (dict_set k v d) -> (a = k /\ b = v) \/ In (a, b) d.
Proof.
  induction d as [|[k0 v0] d IH]; simpl.
  - intros [H|[]]. injection H as <- <-. auto.
  - destruct (String.eqb k k0) eqn:E.
    + apply String.eqb_eq in E. subst k0. intros [H|H].
      * injection H as <- <-. auto.
      * auto.
    + intros [H|H]; [auto|]. destruct (IH H); auto.
Qed.

Lemma load_tasks_origin (items : list (string * json)) (acc : dict TaskSpec)
      (k : string) (spec : TaskSpec) :
  In (k, spec) (load_tasks items acc) ->
  In (k, spec) acc \/
  (In k TASK_NAMES /\
   exists v, In (k, v) items /\ is_list_of_str v = true /\ spec = TaskSpec_of (list_of_str v)).
Proof.
  revert acc; induction items as [|[k0 v0] items IH]; intros acc H; simpl in H.
  - now left.
  - assert (Hrest : In (k, spec) acc \/
             (In k TASK_NAMES /\
              exists v, In (k, v) items /\ is_list_of_str v = true /\
                        spec = TaskSpec_of (list_of_str v)) ->
             In (k, spec) acc \/
             (In k TASK_NAMES /\
              exists v, In (k, v) ((k0, v0) :: items) /\ is_list_of_str v = true /\
                        spec = TaskSpec_of (list_of_str v))).
    { intros [Ha|(Hk & v & Hin & Hv & Hs)]; [now left|].
      right. split; [exact Hk|]. exists v. simpl. auto. }
    destruct (is_task_name k0) eqn:Ek; simpl in H; [|auto].
    destruct (is_list_of_str v0) eqn:Ev; simpl in H; [|auto].
    destruct (IH _ H) as [Hset|Hr]; [|auto].
    apply In_dict_set in Hset as [[-> ->]|Ha]; [|now left].
    right. split; [now apply is_task_name_In|].
    exists v0. simpl. auto.
Qed.

Lemma load_tasks_dropped (items : list (string * json)) (acc : dict TaskSpec) (k : string) :
  dict_get k acc = None ->
  ~ In k TASK_NAMES \/ (forall v, In (k, v) items -> is_list_of_str v = false) ->
  dict_get k (load_tasks items acc) = None.
Proof.
  revert acc; induction items as [|[k0 v0] items IH]; intros acc Hacc Hk; simpl.
  - exact Hacc.
  - assert (Hk' : ~ In k TASK_NAMES \/
                  (forall v, In (k, v) items -> is_list_of_str v = false)).
    { destruct Hk as [Hk|Hk]; [now left | right; intros v Hv; apply Hk; now right]. }
    destruct (is_task_name k0) eqn:Ek; simpl; [|auto].
    destruct (is_list_of_str v0) eqn:Ev; simpl; [|auto].
    apply IH; [|exact Hk'].
    rewrite dict_get_set. destruct (String.eqb k k0) eqn:E; [|exact Hacc].
    apply String.eqb_eq in E. subst k0. exfalso. destruct Hk as [Hk|Hk].
    + apply Hk. now apply is_task_name_In.
    + rewrite (Hk v0) in Ev; [discriminate | now left].
Qed.

(** C10, as amended.  For every JSON object whose "tasks" member is absent or
    is itself an object, [OrchestraConfig.load] returns a configuration: each
    of its tasks has a key of the closed set and the strings of a
    list-of-strings value given for that key, and a key outside the set, or
    one given only values that are not lists of strings, has no task. *)
Theorem load_keeps_valid_tasks (members : list (string * json)) :
  dict_get "tasks" members = None \/
  (exists items, dict_get "tasks" members = Some (JObj items)) ->
  exists cfg,
    OrchestraConfig_load (JObj members) = inr cfg /\
    (forall k spec, In (k, spec) (tasks cfg) ->
       In k ["install"; "format"; "lint"; "typecheck"; "test"; "build"] /\
       exists v, In (k, v) (raw_tasks_of members) /\ is_list_of_str v = true /\
                 spec = TaskSpec_of (list_of_str v)) /\
    (forall k,
       ~ In k ["install"; "format"; "lint"; "typecheck"; "test"; "build"] \/
       (forall v, In (k, v) (raw_tasks_of members) -> is_list_of_str v = false) ->
       dict_get k (tasks cfg) = None).
Proof.
  intros H. exists (mkConfig (load_tasks (raw_tasks_of members) [])).
  split; [|split].
  - unfold OrchestraConfig_load, get_tasks, raw_tasks_of.
    destruct H as [->|[items ->]]; reflexivity.
  - intros k spec Hin. simpl in Hin.
    apply load_tasks_origin in Hin as [[]|Hin]. exact Hin.
  - intros k Hk. simpl. apply load_tasks_dropped; [reflexivity | exact Hk].
Qed.

Lemma load_keeps_valid_tasks_witness :
  OrchestraConfig_load (JObj sample_config)
  = inr (mkConfig [("test", mkTaskSpec ["npm"; "test"] ".")]) /\
  exists cfg,
    OrchestraConfig_load (JObj sample_config) = inr cfg /\
    (forall k spec, In (k, spec) (tasks cfg) ->
       In k ["install"; "format"; "lint"; "typecheck"; "test"; "build"] /\
       exists v, In (k, v) (raw_tasks_of sample_config) /\ is_list_of_str v = true /\
                 spec = TaskSpec_of (list_of_str v)) /\
    (forall k,
       ~ In k ["install"; "format"; "lint"; "typecheck"; "test"; "build"] \/
       (forall v, In (k, v) (raw_tasks_of sample_config) -> is_list_of_str v = false) ->
       dict_get k (tasks cfg) = None).
Proof.
  split; [reflexivity|].
  apply (load_keeps_valid_tasks sample_config).
  right. eexists. reflexivity.
Defined.

(* ================================================================== *)
(** * The task runner *)

(** C4, counterexample.  With [lint] and [test] configured and [lint]
    exiting with 1, the mapping has the entries of [format] and [lint] only:
    the tasks after the failing one are absent from it. *)
Lemma run_tasks_counterexample :
  fst (Orchestrator._run_tasks
         (scripted_world [Exited 1 "SyntaxError line 4" ""] [] (inr lint_fails))
         (mkCtx demo_repo lint_fails "relialimo_dev") st0)
  = inr [("format", Orchestrator.Skipped);
         ("lint", Orchestrator.Ran false 1 "npm run lint" "SyntaxError line 4")]
  /\
  (forall status,
     fst (Orchestrator._run_tasks
            (scripted_world [Exited 1 "SyntaxError line 4" ""] [] (inr lint_fails))
            (mkCtx demo_repo lint_fails "relialimo_dev") st0) = inr status ->
     dict_get "typecheck" status = None /\ dict_get "test" status = None /\
     dict_get "build" status = None).
Proof.
  split; [reflexivity|].
  intros status H. vm_compute in H. injection H as <-. repeat split; reflexivity.
Qed.

Lemma dict_set_fresh {V : Type} (k : string) (v : V) (d : dict V) :
  dict_get k d = None -> dict_set k v d = (d ++ [(k, v)])%list.
Proof.
  induction d as [|[k0 v0] d IH]; simpl; [reflexivity|].
  destruct (String.eqb k k0); [discriminate|]. intros H. now rewrite IH.
Qed.

Lemma dict_get_app_other {V : Type} (t k : string) (v : V) (d : dict V) :
  t <> k -> dict_get t (d ++ [(k, v)])%list = dict_get t d.
Proof.
  intros Hne. induction d as [|[k0 v0] d IH]; simpl.
  - apply String.eqb_neq in Hne. now rewrite Hne.
  - now rewrite IH.
Qed.

Lemma dict_get_none_keys {V : Type} (t : string) (d : dict V) :
  dict_get t d = None <-> ~ In t (dict_keys d).
Proof.
  induction d as [|[k0 v0] d IH]; simpl.
  - tauto.
  - destruct (String.eqb_spec t k0) as [->|Hne].
    + split; [discriminate | intros H; elim H; now left].
    + rewrite IH. split; [intros H [E|Hin]; [now elim Hne | now elim H] | tauto].
Qed.

Lemma spawned_app (l1 l2 : list event) :
  spawned (l1 ++ l2) = (spawned l1 ++ spawned l2)%list.
Proof. apply flat_map_app. Qed.

Lemma removelast_cons_ne {A : Type} (x : A) (l : list A) :
  l <> [] -> removelast (x :: l) = x :: removelast l.
Proof. destruct l; [now intros H; elim H | reflexivity]. Qed.

Section RunTasks.
Variable W : World.
Variable ctx : RepoContext.

Lemma run_tasks_from_spec (order : list string) :
  forall (status : dict Orchestrator.task_entry) (s : st),
    NoDup order ->
    (forall t, In t order -> dict_get t status = None) ->
    exists new s' visited rest,
      Orchestrator.run_tasks_from W ctx order status s = (inr (status ++ new)%list, s') /\
      order = (visited ++ rest)%list /\
      dict_keys new = visited /\
      Forall (fun te => entry_for (tasks (config ctx)) (fst te) (snd te)) new /\
      spawned (log s') = (spawned (log s) ++ configured_argvs (tasks (config ctx)) visited)%list /\
      Forall (fun te => failed (snd te) = false) (removelast new) /\
      (rest <> [] -> exists pre te, new = (pre ++ [te])%list /\ failed (snd te) = true).
Proof.
  induction order as [|task rest0 IH]; intros status s Hnd Hfresh.
  - exists [], s, [], []. simpl. rewrite !app_nil_r.
    repeat split; try constructor. intros H; now elim H.
  - assert (Htask : dict_get task status = None) by (apply Hfresh; now left).
    inversion Hnd as [|? ? Hnotin Hnd']; subst.
    assert (Hfresh' : forall e t, In t rest0 ->
                        dict_get t (status ++ [(task, e)])%list = None).
    { intros e t Hin. rewrite dict_get_app_other.
      - apply Hfresh. now right.
      - intros ->. contradiction. }
    simpl. destruct (dict_get task (tasks (config ctx))) as [spec|] eqn:Ecfg.
    + rewrite (bind_inr _ _ _ _ _ (orchestrator_run_eq W _ _ _ s)).
      destruct (run_outcome (argv spec) 900
                  (proc_answer W (n_proc s))) as [code out] eqn:Ero.
      rewrite dict_set_fresh by exact Htask.
      destruct (code =? 0)%Z eqn:Eok; simpl.
      * destruct (IH (status ++ [(task,
                        Orchestrator.Ran true code (PyStr.join " " (argv spec))
                          (PyStr.last_chars 4000 out))])%list
                     (after_spawn s (argv spec) (joinpath (repo_dir ctx) (cwd spec)) 900)
                     Hnd' (Hfresh' _))
          as (new & s' & visited & rest & Hrun & Hord & Hkeys & Hent & Hsp & Hok & Hlast).
        exists ((task, Orchestrator.Ran true code (PyStr.join " " (argv spec))
                         (PyStr.last_chars 4000 out)) :: new), s', (task :: visited), rest.
        split; [rewrite Hrun, <- app_assoc; reflexivity|].
        split; [simpl; now rewrite Hord|].
        split; [simpl; now rewrite Hkeys|].
        split.
        { constructor; [|exact Hent]. unfold entry_for; simpl. rewrite Ecfg.
          exists code, (PyStr.last_chars 4000 out). now rewrite Eok. }
        split.
        { rewrite Hsp. unfold after_spawn; simpl. rewrite spawned_app. simpl.
          rewrite Ecfg. now rewrite <- app_assoc. }
        split.
        { destruct new as [|te new]; [constructor|].
          rewrite removelast_cons_ne by discriminate. constructor; [reflexivity | exact Hok]. }
        intros Hrest. destruct (Hlast Hrest) as (pre & te & -> & Hf).
        eexists (_ :: pre), te. split; [reflexivity | exact Hf].
      * exists [(task, Orchestrator.Ran false code (PyStr.join " " (argv spec))
                         (PyStr.last_chars 4000 out))],
               (after_spawn s (argv spec) (joinpath (repo_dir ctx) (cwd spec)) 900),
               [task], rest0.
        split; [reflexivity|]. split; [reflexivity|]. split; [reflexivity|].
        split.
        { constructor; [|constructor]. unfold entry_for; simpl. rewrite Ecfg.
          exists code, (PyStr.last_chars 4000 out). now rewrite Eok. }
        split.
        { unfold after_spawn; simpl. rewrite spawned_app. simpl. now rewrite Ecfg. }
        split; [constructor|].
        intros _. eexists [], _. split; reflexivity.
    + rewrite dict_set_fresh by exact Htask.
      destruct (IH (status ++ [(task, Orchestrator.Skipped)])%list s Hnd' (Hfresh' _))
        as (new & s' & visited & rest & Hrun & Hord & Hkeys & Hent & Hsp & Hok & Hlast).
      exists ((task, Orchestrator.Skipped) :: new), s', (task :: visited), rest.
      split; [rewrite Hrun, <- app_assoc; reflexivity|].
      split; [simpl; now rewrite Hord|].
      split; [simpl; now rewrite Hkeys|].
      split.
      { constructor; [|exact Hent]. unfold entry_for; simpl. now rewrite Ecfg. }
      split.
      { rewrite Hsp. simpl. now rewrite Ecfg. }
      split.
      { destruct new as [|te new]; [constructor|].
        rewrite removelast_cons_ne by discriminate. constructor; [reflexivity | exact Hok]. }
      intros Hrest. destruct (Hlast Hrest) as (pre & te & -> & Hf).
      eexists (_ :: pre), te. split; [reflexivity | exact Hf].
Qed.
End RunTasks.

Lemma TASK_ORDER_NoDup : NoDup Orchestrator.TASK_ORDER.
Proof. repeat constructor; simpl; intuition discriminate. Qed.

Lemma recorded_keys (W : World) (cfg : dict TaskSpec) (visited : list string) :
  forall n, dict_keys (recorded W cfg n visited) = visited.
Proof.
  induction visited as [|t rest IH]; intros n; simpl; [reflexivity|].
  destruct (dict_get t cfg) as [spec|].
  - destruct (run_outcome _ _ _) as [code out]. simpl. now rewrite IH.
  - simpl. now rewrite IH.
Qed.

Section RunTasksOutcomes.
Variable W : World.
Variable ctx : RepoContext.

Let cfg := tasks (config ctx).

Lemma run_tasks_from_outcomes (order : list string) :
  forall (status : dict Orchestrator.task_entry) (s : st),
    NoDup order ->
    (forall t, In t order -> dict_get t status = None) ->
    exists s' visited rest,
      Orchestrator.run_tasks_from W ctx order status s
      = (inr (status ++ recorded W cfg (n_proc s) visited)%list, s') /\
      order = (visited ++ rest)%list /\
      log s' = (log s ++ task_spawns ctx visited)%list /\
      n_proc s' = (n_proc s + List.length (configured_argvs cfg visited))%nat /\
      (forall pre t post spec,
         visited = (pre ++ t :: post)%list -> dict_get t cfg = Some spec -> post <> [] ->
         task_exit_code W (n_proc s + List.length (configured_argvs cfg pre)) spec = 0%Z) /\
      (rest <> [] ->
       exists pre t spec,
         visited = (pre ++ [t])%list /\ dict_get t cfg = Some spec /\
         task_exit_code W (n_proc s + List.length (configured_argvs cfg pre)) spec <> 0%Z).
Proof.
  induction order as [|task rest0 IH]; intros status s Hnd Hfresh.
  - exists s, [], []. simpl. rewrite !app_nil_r.
    repeat split; try reflexivity; try lia.
    + intros [|] ? ? ? H; discriminate H.
    + intros H; now elim H.
  - assert (Htask : dict_get task status = None) by (apply Hfresh; now left).
    inversion Hnd as [|? ? Hnotin Hnd']; subst.
    assert (Hfresh' : forall e t, In t rest0 ->
                        dict_get t (status ++ [(task, e)])%list = None).
    { intros e t Hin. rewrite dict_get_app_other.
      - apply Hfresh. now right.
      - intros ->. contradiction. }
    simpl. destruct (dict_get task (tasks (config ctx))) as [spec|] eqn:Ecfg.
    + rewrite (bind_inr _ _ _ _ _ (orchestrator_run_eq W _ _ _ s)).
      destruct (run_outcome (argv spec) 900 (proc_answer W (n_proc s))) as [code out] eqn:Ero.
      rewrite dict_set_fresh by exact Htask.
      assert (Ecode : task_exit_code W (n_proc s) spec = code)
        by (unfold task_exit_code; now rewrite Ero).
      destruct (code =? 0)%Z eqn:Eok; simpl.
      * destruct (IH (status ++ [(task,
                        Orchestrator.Ran true code (PyStr.join " " (argv spec))
                          (PyStr.last_chars 4000 out))])%list
                     (after_spawn s (argv spec) (joinpath (repo_dir ctx) (cwd spec)) 900)
                     Hnd' (Hfresh' _))
          as (s' & visited & rest & Hrun & Hord & Hlog & Hn & Hzero & Hlast).
        exists s', (task :: visited), rest.
        split.
        { rewrite Hrun. simpl. fold cfg. unfold cfg at 2. rewrite Ecfg, Ero, Eok.
          rewrite <- app_assoc. reflexivity. }
        split; [simpl; now rewrite Hord|].
        split.
        { rewrite Hlog. unfold after_spawn; simpl. rewrite Ecfg.
          rewrite <- app_assoc. reflexivity. }
        split.
        { rewrite Hn. simpl. unfold cfg. rewrite Ecfg. simpl. lia. }
        split.
        { intros [|p pre] t post spec' Hv Ht Hpost; simpl in Hv; injection Hv as <- Hv.
          - unfold cfg in Ht. rewrite Ecfg in Ht. injection Ht as <-.
            simpl. rewrite Nat.add_0_r, Ecode. now apply Z.eqb_eq.
          - simpl. unfold cfg at 1. rewrite Ecfg. simpl.
            replace (n_proc s + S (List.length (configured_argvs cfg pre)))%nat
              with (S (n_proc s) + List.length (configured_argvs cfg pre))%nat by lia.
            apply (Hzero pre t post spec' Hv Ht Hpost). }
        intros Hrest. destruct (Hlast Hrest) as (pre & t & spec' & Hv & Ht & Hc).
        exists (task :: pre), t, spec'. split; [simpl; now rewrite Hv|]. split; [exact Ht|].
        simpl. unfold cfg at 1. rewrite Ecfg. simpl.
        replace (n_proc s + S (List.length (configured_argvs cfg pre)))%nat
          with (S (n_proc s) + List.length (configured_argvs cfg pre))%nat by lia.
        exact Hc.
      * exists (after_spawn s (argv spec) (joinpath (repo_dir ctx) (cwd spec)) 900),
               [task], rest0.
        split.
        { simpl. fold cfg. unfold cfg. rewrite Ecfg, Ero, Eok. reflexivity. }
        split; [reflexivity|].
        split; [simpl; rewrite Ecfg; reflexivity|].
        split; [simpl; unfold cfg; rewrite Ecfg; simpl; lia|].
        split.
        { intros [|p [|q pre]] t post spec' Hv Ht Hpost; simpl in Hv;
            injection Hv as <- Hv; try discriminate Hv.
          subst post. now elim Hpost. }
        intros _. exists [], task, spec. split; [reflexivity|]. split; [exact Ecfg|].
        simpl. rewrite Nat.add_0_r, Ecode. now apply Z.eqb_neq.
    + rewrite dict_set_fresh by exact Htask.
      destruct (IH (status ++ [(task, Orchestrator.Skipped)])%list s Hnd' (Hfresh' _))
        as (s' & visited & rest & Hrun & Hord & Hlog & Hn & Hzero & Hlast).
      exists s', (task :: visited), rest.
      split.
      { rewrite Hrun. simpl. fold cfg. unfold cfg at 2. rewrite Ecfg.
        rewrite <- app_assoc. reflexivity. }
      split; [simpl; now rewrite Hord|].
      split; [rewrite Hlog; simpl; rewrite Ecfg; reflexivity|].
      split; [rewrite Hn; simpl; unfold cfg; rewrite Ecfg; reflexivity|].
      split.
      { intros [|p pre] t post spec' Hv Ht Hpost; simpl in Hv; injection Hv as <- Hv.
        - unfold cfg in Ht. rewrite Ecfg in Ht. discriminate Ht.
        - simpl. unfold cfg at 1. rewrite Ecfg. simpl.
          apply (Hzero pre t post spec' Hv Ht Hpost). }
      intros Hrest. destruct (Hlast Hrest) as (pre & t & spec' & Hv & Ht & Hc).
      exists (task :: pre), t, spec'. split; [simpl; now rewrite Hv|]. split; [exact Ht|].
      simpl. unfold cfg at 1. rewrite Ecfg. simpl. exact Hc.
Qed.
End RunTasksOutcomes.

(** C4, as amended.  The task runner never raises and visits the tasks in the
    order format, lint, typecheck, test, build: the keys of the mapping it
    returns are the tasks visited, in that order.  A visited task absent from
    the configuration is recorded as skipped; a configured one is recorded
    with the exit code and output of its own process, the next one the world
    runs.  The processes started are the commands of the configured tasks
    visited, and no other.  Every configured task visited before the last
    exited with 0, and when tasks remain unvisited the last task visited is
    a configured one whose exit code is not 0: the runner stopped at the
    first failing task, and the tasks after it have no entry in the mapping. *)
Theorem run_tasks_fail_fast (W : World) (ctx : RepoContext) (s : st) :
  exists status s' visited rest,
    Orchestrator._run_tasks W ctx s = (inr status, s') /\
    ["format"; "lint"; "typecheck"; "test"; "build"] = (visited ++ rest)%list /\
    dict_keys status = visited /\
    (forall t, In t rest -> dict_get t status = None) /\
    status = recorded W (tasks (config ctx)) (n_proc s) visited /\
    log s' = (log s ++ task_spawns ctx visited)%list /\
    (forall pre t post spec,
       visited = (pre ++ t :: post)%list -> dict_get t (tasks (config ctx)) = Some spec ->
       post <> [] ->
       task_exit_code W (n_proc s + List.length (configured_argvs (tasks (config ctx)) pre))
                      spec = 0%Z) /\
    (rest <> [] ->
     exists pre t spec,
       visited = (pre ++ [t])%list /\ dict_get t (tasks (config ctx)) = Some spec /\
       task_exit_code W (n_proc s + List.length (configured_argvs (tasks (config ctx)) pre))
                      spec <> 0%Z).
Proof.
  destruct (run_tasks_from_outcomes W ctx Orchestrator.TASK_ORDER [] s TASK_ORDER_NoDup)
    as (s' & visited & rest & Hrun & Hord & Hlog & _ & Hzero & Hlast).
  { reflexivity. }
  exists (recorded W (tasks (config ctx)) (n_proc s) visited), s', visited, rest.
  simpl in Hrun.
  split; [exact Hrun|]. split; [exact Hord|].
  split; [apply recorded_keys|].
  split.
  { intros t Hin. apply dict_get_none_keys. rewrite recorded_keys. intros Hv.
    pose proof TASK_ORDER_NoDup as Hnd. rewrite Hord in Hnd.
    clear - Hnd Hin Hv. induction visited as [|v visited IH]; [destruct Hv|].
    simpl in Hnd. inversion Hnd as [|? ? Hnotin Hnd']; subst.
    destruct Hv as [->|Hv].
    - apply Hnotin. apply in_or_app. now right.
    - now apply IH. }
  split; [reflexivity|]. split; [exact Hlog|]. split; [exact Hzero | exact Hlast].
Qed.

(* ================================================================== *)
(** * Rounding to binary64 *)

Section Binary64.
Local Open Scope Q_scope.

Lemma rne_ge (x : Q) (n : Z) : (inject_Z n <= x)%Q -> (n <= F64.rne x)%Z.
Proof.
  intros H. apply Qfloor_resp_le in H. rewrite Qfloor_Z in H.
  unfold F64.rne. destruct (_ ?= _)%Q; [destruct (Z.even _)| |]; lia.
Qed.

Lemma rne_le (x : Q) (n : Z) : (x <= inject_Z n)%Q -> (F64.rne x <= n)%Z.
Proof.
  intros H. pose proof (Qfloor_resp_le _ _ H) as Hf. rewrite Qfloor_Z in Hf.
  unfold F64.rne.
  destruct (Qcompare_spec (x - inject_Z (Qfloor x)) (1 # 2)) as [E|E|E];
    [destruct (Z.even _)| |]; try lia.
  - destruct (Z.eq_dec (Qfloor x) n) as [En|En]; [|lia].
    rewrite En in E. lra.
  - destruct (Z.eq_dec (Qfloor x) n) as [En|En]; [|lia].
    rewrite En in E. lra.
Qed.

Lemma two_pos (z : Z) : (0 < 2 ^ z)%Q.
Proof. apply Qpower_0_lt. reflexivity. Qed.

Lemma two_plus (n m : Z) : (2 ^ (n + m) == 2 ^ n * 2 ^ m)%Q.
Proof. apply Qpower_plus. discriminate. Qed.

Lemma two_inject (n : Z) : (0 <= n)%Z -> (inject_Z (2 ^ n) == 2 ^ n)%Q.
Proof. intros H. now rewrite Zpower_Qpower. Qed.

Lemma ilog2_spec (x : Q) :
  (0 < x)%Q -> (2 ^ F64.ilog2 x <= x)%Q /\ (x < 2 ^ (F64.ilog2 x + 1))%Q.
Proof.
  intros Hx. destruct x as [n d]. unfold F64.ilog2. cbn [Qnum Qden].
  assert (Hn : (0 < n)%Z) by (unfold Qlt in Hx; simpl in Hx; lia).
  pose proof (Z.log2_spec n Hn) as [Ha1 Ha2].
  pose proof (Z.log2_spec (Zpos d) (Pos2Z.is_pos d)) as [Hb1 Hb2].
  pose proof (Z.log2_nonneg n) as Ha0. pose proof (Z.log2_nonneg (Zpos d)) as Hb0.
  set (a := Z.log2 n) in *. set (b := Z.log2 (Zpos d)) in *.
  assert (HX : (n # d) * inject_Z (Zpos d) == inject_Z n).
  { unfold Qeq, Qmult, inject_Z. simpl. lia. }
  set (X := n # d) in *.
  assert (HD : 0 < inject_Z (Zpos d)) by (unfold Qlt; simpl; lia).
  rewrite <- Z.add_1_r in Ha2, Hb2.
  rewrite Zle_Qle in Ha1, Hb1. rewrite Zlt_Qlt in Ha2, Hb2.
  rewrite two_inject in Ha1, Ha2, Hb1, Hb2 by lia.
  set (N := inject_Z n) in *. set (D := inject_Z (Zpos d)) in *.
  pose proof (two_pos b) as Pb. pose proof (two_pos (a - b)) as Pe.
  pose proof (two_pos (a - b - 1)) as Pe1.
  assert (E1 : 2 ^ (a - b + 1) * 2 ^ b == 2 ^ (a + 1)).
  { rewrite <- two_plus. now replace (a - b + 1 + b)%Z with (a + 1)%Z by lia. }
  assert (E2 : 2 ^ (a - b - 1) * 2 ^ (b + 1) == 2 ^ a).
  { rewrite <- two_plus. now replace (a - b - 1 + (b + 1))%Z with a by lia. }
  pose proof (two_pos (a - b + 1)) as Pe2.
  destruct (Qle_bool (2 ^ (a - b)) X) eqn:E.
  - apply Qle_bool_iff in E. split; [exact E|]. nra.
  - assert (E' : X < 2 ^ (a - b)).
    { apply Qnot_le_lt. intros H. apply Qle_bool_iff in H. congruence. }
    replace (a - b - 1 + 1)%Z with (a - b)%Z by lia. split; [|exact E'].
    nra.
Qed.

Lemma Qabs_of_pos (x : Q) : 0 < x -> Qabs x = x.
Proof.
  destruct x as [n d]. unfold Qlt, Qabs; simpl. intros H. f_equal. lia.
Qed.

Lemma two_lt_inv (n m : Z) : 2 ^ n < 2 ^ m -> (n < m)%Z.
Proof. intros H. apply (Qpower_lt_compat_l_inv 2); [exact H | reflexivity]. Qed.

Lemma two_le (n m : Z) : (n <= m)%Z -> 2 ^ n <= 2 ^ m.
Proof. intros H. apply Qpower_le_compat_l; [exact H | discriminate]. Qed.

(** [round x] written with the last place of [x]. *)
Lemma round_eq (x : Q) :
  0 < x ->
  F64.round x
  = inject_Z (F64.rne (x / 2 ^ (Z.max (F64.ilog2 x) (-1022) - 52))) *
    2 ^ (Z.max (F64.ilog2 x) (-1022) - 52).
Proof. intros H. unfold F64.round, F64.last_place. now rewrite Qabs_of_pos. Qed.

Lemma div_two (x : Q) (c : Z) (n : Z) :
  x <= inject_Z n * 2 ^ c -> x / 2 ^ c <= inject_Z n.
Proof.
  intros H. pose proof (two_pos c) as P.
  apply Qle_shift_div_r; assumption.
Qed.

Lemma two_div (x : Q) (c : Z) (n : Z) :
  inject_Z n * 2 ^ c <= x -> inject_Z n <= x / 2 ^ c.
Proof.
  intros H. pose proof (two_pos c) as P.
  apply Qle_shift_div_l; assumption.
Qed.

Lemma binary64_shift (m c l : Z) :
  (l <= c)%Z -> inject_Z m * 2 ^ c == inject_Z (m * 2 ^ (c - l)) * 2 ^ l.
Proof.
  intros H. rewrite inject_Z_mult, two_inject by lia.
  rewrite <- Qmult_assoc, <- two_plus. now replace (c - l + l)%Z with c by lia.
Qed.

(** Rounding does not pass a float above. *)
Lemma round_le (x b : Q) :
  0 < x -> x <= b -> is_binary64 b -> F64.round x <= b.
Proof.
  intros Hx Hxb (m & c & Hm & Hc & Hb).
  rewrite round_eq by exact Hx.
  destruct (ilog2_spec x Hx) as [Hlo _].
  set (l := (Z.max (F64.ilog2 x) (-1022) - 52)%Z).
  assert (Hmq : inject_Z m < 2 ^ 53).
  { rewrite <- two_inject by lia. rewrite <- Zlt_Qlt. lia. }
  assert (Hl : (l <= c)%Z).
  { assert (H : 2 ^ F64.ilog2 x < 2 ^ (c + 53)).
    { apply Qle_lt_trans with b; [now apply Qle_trans with x|].
      rewrite Hb, two_plus, (Qmult_comm (2 ^ c)).
      apply Qmult_lt_compat_r; [apply two_pos | exact Hmq]. }
    apply two_lt_inv in H. unfold l. lia. }
  rewrite Hb, (binary64_shift m c l Hl).
  apply Qmult_le_compat_r; [|apply Qlt_le_weak, two_pos].
  rewrite <- Zle_Qle. apply rne_le. apply div_two.
  rewrite <- (binary64_shift m c l Hl), <- Hb. exact Hxb.
Qed.

(** Rounding does not pass a float below. *)
Lemma round_ge (a x : Q) :
  0 < a -> a <= x -> is_binary64 a -> a <= F64.round x.
Proof.
  intros Ha Hax (m & c & Hm & Hc & Hb).
  assert (Hx : 0 < x) by (now apply Qlt_le_trans with a).
  rewrite round_eq by exact Hx.
  destruct (ilog2_spec x Hx) as [Hlo _].
  set (l := (Z.max (F64.ilog2 x) (-1022) - 52)%Z).
  assert (Hmq : inject_Z m < 2 ^ 53).
  { rewrite <- two_inject by lia. rewrite <- Zlt_Qlt. lia. }
  destruct (Z_le_gt_dec l c) as [Hl|Hl].
  - rewrite Hb, (binary64_shift m c l Hl).
    apply Qmult_le_compat_r; [|apply Qlt_le_weak, two_pos].
    rewrite <- Zle_Qle. apply rne_ge. apply two_div.
    rewrite <- (binary64_shift m c l Hl), <- Hb. exact Hax.
  - assert (El : l = (F64.ilog2 x - 52)%Z) by (unfold l in *; lia).
    apply Qle_trans with (2 ^ F64.ilog2 x).
    + rewrite Hb. apply Qle_trans with (2 ^ (c + 53)).
      * rewrite two_plus, (Qmult_comm (2 ^ c)).
        apply Qmult_le_compat_r; [apply Qlt_le_weak, Hmq | apply Qlt_le_weak, two_pos].
      * apply two_le. lia.
    + assert (E : 2 ^ F64.ilog2 x == inject_Z (2 ^ 52) * 2 ^ l).
      { rewrite two_inject by lia. rewrite <- two_plus. rewrite El.
        now replace (52 + (F64.ilog2 x - 52))%Z with (F64.ilog2 x) by lia. }
      rewrite E. apply Qmult_le_compat_r; [|apply Qlt_le_weak, two_pos].
      rewrite <- Zle_Qle. apply rne_ge. apply two_div. rewrite <- E. exact Hlo.
Qed.

Lemma round_nonneg (x : Q) : 0 <= x -> 0 <= F64.round x.
Proof.
  intros H. unfold F64.round.
  apply Qmult_le_0_compat; [|apply Qlt_le_weak, two_pos].
  change 0 with (inject_Z 0). rewrite <- Zle_Qle. apply rne_ge.
  apply Qle_shift_div_l; [apply two_pos|]. now rewrite Qmult_0_l.
Qed.

Lemma round_zero (x : Q) : x == 0 -> F64.round x == 0.
Proof.
  intros H. unfold F64.round. set (l := F64.last_place x). clearbody l.
  assert (E : F64.rne (x / 2 ^ l) = 0%Z).
  { apply Z.le_antisymm.
    - apply rne_le. rewrite H. unfold Qdiv. now rewrite Qmult_0_l.
    - apply rne_ge. rewrite H. unfold Qdiv. now rewrite Qmult_0_l. }
  rewrite E. apply Qmult_0_l.
Qed.

Lemma binary64_small (m c : Z) :
  (Z.abs m < 2 ^ 53)%Z -> (-1074 <= c)%Z -> is_binary64 (inject_Z m * 2 ^ c).
Proof. intros Hm Hc. exists m, c. split; [exact Hm|]. split; [exact Hc | reflexivity]. Qed.

Lemma is_binary64_eq (a b : Q) : a == b -> is_binary64 a -> is_binary64 b.
Proof.
  intros E (m & c & Hm & Hc & H). exists m, c.
  split; [exact Hm|]. split; [exact Hc | now rewrite <- E].
Qed.

(** The jitter factor [1.0 + random.random() * 0.25] lies between 1 and
    1.25, both included. *)
Lemma jitter_factor_bounds (r : Q) :
  0 <= r -> r < 1 ->
  1 <= F64.add 1 (F64.mul r (1 # 4)) /\ F64.add 1 (F64.mul r (1 # 4)) <= 5 # 4.
Proof.
  intros H0 H1. unfold F64.add, F64.mul.
  assert (Ht : 0 <= F64.round (r * (1 # 4)) /\ F64.round (r * (1 # 4)) <= 1 # 4).
  { split; [apply round_nonneg; nra|].
    destruct (Qeq_dec r 0) as [E|E].
    - rewrite round_zero; [discriminate | rewrite E; reflexivity].
    - apply round_le; [nra | nra |].
      apply (is_binary64_eq (inject_Z 1 * 2 ^ (-2))); [reflexivity|].
      apply binary64_small; [reflexivity | lia]. }
  destruct Ht as [T0 T1]. set (t := F64.round (r * (1 # 4))) in *.
  split.
  - apply round_ge; [reflexivity | lra |].
    apply (is_binary64_eq (inject_Z 1 * 2 ^ 0)); [reflexivity|].
    apply binary64_small; [reflexivity | lia].
  - apply round_le; [lra | lra |].
    apply (is_binary64_eq (inject_Z 5 * 2 ^ (-2))); [reflexivity|].
    apply binary64_small; [reflexivity | lia].
Qed.

(** A base delay and its multiple by 1.25 are floats. *)
Lemma base_delay_binary64 (d : Q) (j : nat) :
  d == (1 # 2) * inject_Z (2 ^ Z.of_nat j) ->
  0 < Qmin 20 d /\ is_binary64 (Qmin 20 d) /\ is_binary64 ((5 # 4) * Qmin 20 d).
Proof.
  intros Hd.
  assert (Hpos : 0 < d).
  { rewrite Hd. apply Qmult_lt_0_compat; [reflexivity|].
    change 0 with (inject_Z 0). rewrite <- Zlt_Qlt. apply Z.pow_pos_nonneg; lia. }
  split; [apply Q.min_glb_lt; [reflexivity | exact Hpos]|].
  destruct (Q.min_spec 20 d) as [[Hlt E]|[Hle E]].
  - split.
    + apply (is_binary64_eq (inject_Z 5 * 2 ^ 2)); [now rewrite E|].
      apply binary64_small; [reflexivity | lia].
    + apply (is_binary64_eq (inject_Z 25 * 2 ^ 0)); [now rewrite E|].
      apply binary64_small; [reflexivity | lia].
  - assert (Hj : (Z.of_nat j <= 5)%Z).
    { destruct (Z_le_gt_dec (Z.of_nat j) 5) as [H|H]; [exact H|]. exfalso.
      assert (H64 : (2 ^ 6 <= 2 ^ Z.of_nat j)%Z) by (apply Z.pow_le_mono_r; lia).
      rewrite Zle_Qle in H64. rewrite Hd in Hle.
      change (inject_Z (2 ^ 6)) with 64 in H64. lra. }
    assert (Ed : d == inject_Z 1 * 2 ^ (Z.of_nat j - 1)).
    { rewrite Hd, two_inject by lia.
      replace (Z.of_nat j - 1)%Z with (-1 + Z.of_nat j)%Z by lia.
      rewrite two_plus. change (2 ^ (-1)) with (1 # 2). change (inject_Z 1) with 1. ring. }
    split.
    + apply (is_binary64_eq (inject_Z 1 * 2 ^ (Z.of_nat j - 1))); [now rewrite E, Ed|].
      apply binary64_small; [reflexivity | lia].
    + apply (is_binary64_eq (inject_Z 5 * 2 ^ (Z.of_nat j - 3))).
      * rewrite E, Ed. replace (Z.of_nat j - 1)%Z with (2 + (Z.of_nat j - 3))%Z by lia.
        rewrite two_plus. change (2 ^ 2) with 4. change (inject_Z 5) with 5.
        change (inject_Z 1) with 1. ring.
      * apply binary64_small; [reflexivity | lia].
Qed.

Lemma jittered_bounds (d r : Q) (j : nat) :
  d == (1 # 2) * inject_Z (2 ^ Z.of_nat j) -> 0 <= r -> r < 1 ->
  Qmin 20 d <= Orchestrator.jittered d r /\ Orchestrator.jittered d r <= (5 # 4) * Qmin 20 d.
Proof.
  intros Hd H0 H1. unfold Orchestrator.jittered.
  destruct (jitter_factor_bounds r H0 H1) as [F1 F2].
  destruct (base_delay_binary64 d j Hd) as (Hb & Fb & Fb').
  set (f := F64.add 1 (F64.mul r (1 # 4))) in *. set (b := Qmin 20 d) in *.
  clearbody f b. unfold F64.mul.
  split.
  - apply round_ge; [exact Hb | nra | exact Fb].
  - apply round_le; [nra | nra | exact Fb'].
Qed.

End Binary64.

(** The rounding of [F64] gives what the IEEE operations of the standard
    library's [SpecFloat] give, on draws at both ends of [0, 1), on one
    between two floats, and on a subnormal number. *)
Lemma F64_agrees_with_SpecFloat :
  forallb (fun dr => Qeq_bool (SF2Q (sf_jittered (fst dr) (snd dr)))
                              (Orchestrator.jittered (SF2Q (fst dr)) (SF2Q (snd dr))))
          [(sf_of 1 (-1), sf_of (2 ^ 53 - 1) (-53));
           (sf_of 5 2, sf_of (2 ^ 53 - 1) (-53));
           (sf_of 5 2, sf_of (2 ^ 53 - 3) (-53));
           (sf_of 5 2, sf_of 1 (-53));
           (sf_of 1 4, sf_of 7 (-53));
           (sf_of 5 2, sf_of 6004799503160661 (-53));
           (sf_of 5 2, sf_of 5404319552844595 (-54));
           (sf_of 5 2, sf_of 3 (-1070))]
  = true.
Proof. vm_compute. reflexivity. Qed.

(* ================================================================== *)
(** * The retry wrapper *)

Lemma retryable_retried (e : exn) : retryable e = true -> retried e = true.
Proof. destruct e as [| [c|] | | | | | |]; simpl; congruence. Qed.

Section Backoff.
Variable W : World.
Variables (label : string) (agent : agent_name) (prompt : string).
Variables (max_turns max_attempts : Z).

Let attempts := Orchestrator.backoff_attempts W label agent prompt max_turns max_attempts.

Lemma backoff_success (n : nat) (attempt : Z) (delay : Q) (s : st) (out : final_output) :
  actor_answer W (n_actor s) = inr out ->
  attempts (S n) attempt delay s = (inr out, after_actor s agent prompt max_turns).
Proof.
  intros H. unfold attempts. simpl. unfold try_except, Runner_run. rewrite H. reflexivity.
Qed.

Lemma backoff_propagates (n : nat) (attempt : Z) (delay : Q) (s : st) (e : exn) :
  actor_answer W (n_actor s) = inl e -> retried e = false ->
  attempts (S n) attempt delay s = (inl e, after_actor s agent prompt max_turns).
Proof.
  intros H Hr. unfold attempts. simpl. unfold try_except, Runner_run. rewrite H.
  destruct e as [| [c|] | | | | | |]; simpl in Hr; try discriminate; try reflexivity.
  destruct (c <? 500)%Z eqn:E; [reflexivity|].
  apply Z.ltb_ge in E. apply Z.leb_gt in Hr. lia.
Qed.

Lemma backoff_retries (n : nat) (attempt : Z) (delay : Q) (s : st) (e : exn) :
  actor_answer W (n_actor s) = inl e -> retried e = true ->
  attempts (S n) attempt delay s =
  attempts n (attempt + 1)%Z (delay * 2)%Q
           (after_retry W s e label agent prompt max_turns max_attempts attempt delay).
Proof.
  intros H Hr. unfold attempts. simpl. unfold try_except, Runner_run. rewrite H.
  assert (Hlog : forall (l : list event) (a b c d : event),
             ((((l ++ [a]) ++ [b]) ++ [c]) ++ [d])%list = (l ++ [a; b; c; d])%list)
    by (intros; rewrite <- !app_assoc; reflexivity).
  destruct e as [| [c|] | | | | | |]; simpl in Hr; try discriminate.
  - unfold bind, Orchestrator.back_off, bind, random_random, print, asyncio_sleep, emit,
      after_retry; simpl. rewrite Hlog. reflexivity.
  - assert (E : (c <? 500)%Z = false) by (apply Z.ltb_ge; apply Z.leb_le in Hr; lia).
    rewrite E.
    unfold bind, Orchestrator.back_off, bind, random_random, print, asyncio_sleep, emit,
      after_retry; simpl. rewrite Hlog. reflexivity.
  - unfold bind, Orchestrator.back_off, bind, random_random, print, asyncio_sleep, emit,
      after_retry; simpl. rewrite Hlog. reflexivity.
Qed.

Lemma backoff_exhausted_now (attempt : Z) (delay : Q) (s : st) :
  attempts 0 attempt delay s
  = (inl (RuntimeError (Orchestrator.exhausted_message label max_attempts)), s).
Proof. reflexivity. Qed.

Lemma sleeps_after_retry (s : st) (e : exn) (attempt : Z) (delay : Q) :
  sleeps (log (after_retry W s e label agent prompt max_turns max_attempts attempt delay))
  = (sleeps (log s) ++ [Orchestrator.jittered delay (random_answer W (n_random s))])%list.
Proof. unfold after_retry, sleeps; simpl. rewrite flat_map_app. reflexivity. Qed.

Lemma base_delay_next (d : Q) (j : nat) :
  (d == (1 # 2) * inject_Z (2 ^ Z.of_nat j))%Q ->
  (d * 2 == (1 # 2) * inject_Z (2 ^ Z.of_nat (S j)))%Q.
Proof.
  intros H. rewrite H. rewrite Nat2Z.inj_succ, Z.pow_succ_r by lia.
  rewrite inject_Z_mult. change (inject_Z 2) with 2%Q. ring.
Qed.

(** [k] retried failures, then a result: [k] sleeps, each at most a quarter
    above its base delay, and the result is returned. *)
Lemma backoff_retries_then_returns (k : nat) :
  forall (n : nat) (attempt : Z) (delay : Q) (j : nat) (s : st) (out : final_output),
    (k < n)%nat ->
    (delay == (1 # 2) * inject_Z (2 ^ Z.of_nat j))%Q ->
    (forall i, 0 <= random_answer W i /\ random_answer W i < 1)%Q ->
    (forall i, (i < k)%nat ->
               exists e, actor_answer W (n_actor s + i) = inl e /\ retried e = true) ->
    actor_answer W (n_actor s + k) = inr out ->
    exists s' qs,
      attempts n attempt delay s = (inr out, s') /\
      n_actor s' = (n_actor s + k + 1)%nat /\
      sleeps (log s') = (sleeps (log s) ++ qs)%list /\
      List.length qs = k /\
      forall i, (i < k)%nat ->
                (base_delay (j + i) <= nth i qs 0 /\
                 nth i qs 0 <= (5 # 4) * base_delay (j + i))%Q.
Proof.
  induction k as [|k IH]; intros n attempt delay j s out Hn Hd Hrand Hfail Hok.
  - destruct n as [|n]; [lia|].
    rewrite Nat.add_0_r in Hok.
    exists (after_actor s agent prompt max_turns), [].
    split; [now apply backoff_success|].
    split; [simpl; lia|].
    split; [unfold after_actor, sleeps; simpl; rewrite flat_map_app; reflexivity|].
    split; [reflexivity | intros i Hi; lia].
  - destruct n as [|n]; [lia|].
    destruct (Hfail 0%nat) as (e & He & Hr); [lia|]. rewrite Nat.add_0_r in He.
    rewrite (backoff_retries n attempt delay s e He Hr).
    set (s1 := after_retry W s e label agent prompt max_turns max_attempts attempt delay).
    destruct (IH n (attempt + 1)%Z (delay * 2)%Q (S j) s1 out) as (s' & qs & Hrun & Hcalls & Hsl & Hlen & Hb).
    + lia.
    + now apply base_delay_next.
    + exact Hrand.
    + intros i Hi. destruct (Hfail (S i)) as (e' & He' & Hr'); [lia|].
      exists e'. split; [|exact Hr'].
      unfold s1, after_retry; simpl. rewrite <- He'. f_equal. lia.
    + unfold s1, after_retry; simpl. rewrite <- Hok. f_equal. lia.
    + exists s', (Orchestrator.jittered delay (random_answer W (n_random s)) :: qs).
      split; [exact Hrun|].
      split; [rewrite Hcalls; unfold s1, after_retry; simpl; lia|].
      split; [rewrite Hsl; unfold s1; rewrite sleeps_after_retry, <- app_assoc; reflexivity|].
      split; [simpl; now rewrite Hlen|].
      intros [|i] Hi.
      * rewrite Nat.add_0_r. simpl nth. unfold base_delay.
        destruct (Hrand (n_random s)) as [H0 H1].
        destruct (jittered_bounds delay _ j Hd H0 H1) as [B1 B2].
        rewrite <- Hd. split; assumption.
      * simpl nth. replace (j + S i)%nat with (S j + i)%nat by lia. apply Hb. lia.
Qed.

(** [n] retried failures in a row use up [n] attempts: the wrapper raises. *)
Lemma backoff_exhausts (n : nat) :
  forall (attempt : Z) (delay : Q) (s : st),
    (forall i, (i < n)%nat ->
               exists e, actor_answer W (n_actor s + i) = inl e /\ retried e = true) ->
    exists s',
      attempts n attempt delay s
      = (inl (RuntimeError (Orchestrator.exhausted_message label max_attempts)), s') /\
      n_actor s' = (n_actor s + n)%nat /\
      List.length (sleeps (log s')) = (List.length (sleeps (log s)) + n)%nat.
Proof.
  induction n as [|n IH]; intros attempt delay s Hfail.
  - exists s. split; [apply backoff_exhausted_now|]. split; lia.
  - destruct (Hfail 0%nat) as (e & He & Hr); [lia|]. rewrite Nat.add_0_r in He.
    rewrite (backoff_retries n attempt delay s e He Hr).
    set (s1 := after_retry W s e label agent prompt max_turns max_attempts attempt delay).
    destruct (IH (attempt + 1)%Z (delay * 2)%Q s1) as (s' & Hrun & Hcalls & Hsl).
    + intros i Hi. destruct (Hfail (S i)) as (e' & He' & Hr'); [lia|].
      exists e'. split; [|exact Hr'].
      unfold s1, after_retry; simpl. rewrite <- He'. f_equal. lia.
    + exists s'. split; [exact Hrun|]. split.
      * rewrite Hcalls. unfold s1, after_retry; simpl. lia.
      * rewrite Hsl. unfold s1. rewrite sleeps_after_retry, length_app. simpl. lia.
Qed.
End Backoff.

(** C5, counterexample.  The random generator answers below 1, yet the sleep
    lasts 1.25 times the base delay, the end that a half-open interval
    leaves out: for the largest draw, [1 - 2^-53], the sum
    [1.0 + random.random() * 0.25] lies an eighth of a last place below 1.25
    and is rounded to it. *)
Lemma backoff_jitter_counterexample :
  retryable (RateLimitError "429 Too Many Requests") = true /\
  (0 <= largest_draw /\ largest_draw < 1)%Q /\
  fst (Orchestrator._run_agent_with_backoff draws_the_largest "plan" Planner "GOAL"
         20 Orchestrator.DEFAULT_MAX_ATTEMPTS st0)
  = inr (mkOutput "{plan}") /\
  exists q,
    sleeps (log (snd (Orchestrator._run_agent_with_backoff draws_the_largest "plan" Planner
                        "GOAL" 20 Orchestrator.DEFAULT_MAX_ATTEMPTS st0))) = [q] /\
    (q == (5 # 4) * base_delay 0)%Q /\ ~ (q < (5 # 4) * base_delay 0)%Q.
Proof.
  split; [reflexivity|]. split; [split; [discriminate | reflexivity]|].
  split; [reflexivity|].
  eexists. split; [vm_compute; reflexivity|].
  split; [reflexivity | discriminate].
Qed.

(** C5, as amended.  When the actor call fails with a retryable
    classification [k] times, [k] below [max_attempts], and then returns, the
    wrapper returns that result after [k + 1] calls and exactly [k] sleeps;
    the [i]-th sleep lasts at least the [i]-th base delay (0.5, 1, 2, ...
    capped at 20) and at most 1.25 times it.  The random generator answers
    in [0, 1); the products and the sum are rounded to binary64. *)
Theorem backoff_retries_then_succeeds (W : World) (label : string) (agent : agent_name)
        (prompt : string) (max_turns max_attempts : Z) (k : nat) (s : st)
        (out : final_output) :
  (Z.of_nat k < max_attempts)%Z ->
  (forall i, 0 <= random_answer W i /\ random_answer W i < 1)%Q ->
  (forall i, (i < k)%nat ->
             exists e, actor_answer W (n_actor s + i) = inl e /\ retryable e = true) ->
  actor_answer W (n_actor s + k) = inr out ->
  exists s' qs,
    Orchestrator._run_agent_with_backoff W label agent prompt max_turns max_attempts s
    = (inr out, s') /\
    n_actor s' = (n_actor s + k + 1)%nat /\
    sleeps (log s') = (sleeps (log s) ++ qs)%list /\
    List.length qs = k /\
    forall i, (i < k)%nat ->
              (base_delay i <= nth i qs 0 /\ nth i qs 0 <= (5 # 4) * base_delay i)%Q.
Proof.
  intros Hk Hrand Hfail Hok.
  destruct (backoff_retries_then_returns W label agent prompt max_turns max_attempts k
              (Z.to_nat max_attempts) 1%Z (1 # 2)%Q 0%nat s out)
    as (s' & qs & Hrun & Hcalls & Hsl & Hlen & Hb).
  - lia.
  - reflexivity.
  - exact Hrand.
  - intros i Hi. destruct (Hfail i Hi) as (e & He & Hr).
    exists e. split; [exact He | now apply retryable_retried].
  - exact Hok.
  - exists s', qs. repeat split; try assumption; apply (Hb i); assumption.
Qed.

Lemma backoff_retries_then_succeeds_witness :
  exists s' qs,
    Orchestrator._run_agent_with_backoff two_failures_then_plan "plan" Planner "GOAL"
      20 Orchestrator.DEFAULT_MAX_ATTEMPTS st0
    = (inr (mkOutput "{plan}"), s') /\
    n_actor s' = (n_actor st0 + 2 + 1)%nat /\
    sleeps (log s') = (sleeps (log st0) ++ qs)%list /\
    List.length qs = 2%nat /\
    forall i, (i < 2)%nat ->
              (base_delay i <= nth i qs 0 /\ nth i qs 0 <= (5 # 4) * base_delay i)%Q.
Proof.
  apply (backoff_retries_then_succeeds two_failures_then_plan "plan" Planner "GOAL"
           20 Orchestrator.DEFAULT_MAX_ATTEMPTS 2 st0 (mkOutput "{plan}")).
  - reflexivity.
  - intros i. split; [apply Qle_refl | reflexivity].
  - intros [|[|i]] Hi; [eexists; split; reflexivity .. | lia].
  - reflexivity.
Defined.

(** C6, counterexample.  A connection error is an API error that carries no
    status code: it is neither a rate limit nor classified by a status code
    of 500 or more, yet the wrapper sleeps once and tries again instead of
    propagating it. *)
Lemma backoff_counterexample :
  retryable connection_error = false /\
  fst (Orchestrator._run_agent_with_backoff connection_lost_once "plan" Planner "GOAL"
         20 Orchestrator.DEFAULT_MAX_ATTEMPTS st0)
  = inr (mkOutput "{plan}") /\
  List.length (sleeps (log (snd (Orchestrator._run_agent_with_backoff connection_lost_once
                                   "plan" Planner "GOAL" 20
                                   Orchestrator.DEFAULT_MAX_ATTEMPTS st0)))) = 1%nat /\
  n_actor (snd (Orchestrator._run_agent_with_backoff connection_lost_once
                  "plan" Planner "GOAL" 20 Orchestrator.DEFAULT_MAX_ATTEMPTS st0)) = 2%nat.
Proof. repeat split; reflexivity. Qed.

(** C6, as amended.  A failure that is not an API error, or that is an API
    error other than a rate limit with a numeric status code below 500, is
    propagated by the wrapper on the first attempt: one actor call, no sleep.
    An API error without a status code is retried like a server-side one.
    After [max_attempts] (8 by default) failures that are retried, the wrapper
    raises a [RuntimeError] whose text names the label and the attempt
    count. *)
Theorem backoff_propagates_or_exhausts (W : World) (label : string) (agent : agent_name)
        (prompt : string) (max_turns max_attempts : Z) (s : st) :
  (forall e, (0 < max_attempts)%Z ->
             actor_answer W (n_actor s) = inl e -> retried e = false ->
             Orchestrator._run_agent_with_backoff W label agent prompt max_turns max_attempts s
             = (inl e, after_actor s agent prompt max_turns))
  /\
  ((forall i, (i < Z.to_nat max_attempts)%nat ->
              exists e, actor_answer W (n_actor s + i) = inl e /\ retried e = true) ->
   exists s',
     Orchestrator._run_agent_with_backoff W label agent prompt max_turns max_attempts s
     = (inl (RuntimeError (label ++ ": exceeded retries after " ++
                           PyStr.str_int max_attempts ++ " attempts")), s') /\
     n_actor s' = (n_actor s + Z.to_nat max_attempts)%nat).
Proof.
  split.
  - intros e Hpos He Hr. unfold Orchestrator._run_agent_with_backoff.
    destruct (Z.to_nat max_attempts) as [|n] eqn:En; [lia|].
    now apply backoff_propagates.
  - intros Hfail.
    destruct (backoff_exhausts W label agent prompt max_turns max_attempts
                (Z.to_nat max_attempts) 1%Z (1 # 2)%Q s Hfail) as (s' & Hrun & Hcalls & _).
    exists s'. split; [exact Hrun | exact Hcalls].
Qed.

Lemma backoff_propagates_or_exhausts_witness :
  Orchestrator._run_agent_with_backoff
    (scripted_world [] [inl bad_request] (inr no_tasks)) "plan" Planner "GOAL" 20
    Orchestrator.DEFAULT_MAX_ATTEMPTS st0
  = (inl bad_request, after_actor st0 Planner "GOAL" 20)
  /\
  exists s',
    Orchestrator._run_agent_with_backoff always_rate_limited "plan" Planner "GOAL" 20
      Orchestrator.DEFAULT_MAX_ATTEMPTS st0
    = (inl (RuntimeError "plan: exceeded retries after 8 attempts"), s') /\
    n_actor s' = 8%nat.
Proof.
  split.
  - apply (proj1 (backoff_propagates_or_exhausts
                    (scripted_world [] [inl bad_request] (inr no_tasks))
                    "plan" Planner "GOAL" 20 Orchestrator.DEFAULT_MAX_ATTEMPTS st0));
      reflexivity.
  - apply (proj2 (backoff_propagates_or_exhausts always_rate_limited
                    "plan" Planner "GOAL" 20 Orchestrator.DEFAULT_MAX_ATTEMPTS st0)).
    intros i _. eexists. split; reflexivity.
Defined.

(* ================================================================== *)
(** * The pipeline controller *)

(** C1, the failing input.  A rate limit on the first actor call ends the run
    at once: one actor call, no sleep, no second attempt; the retry wrapper
    given the same call in the same world would have slept and obtained the
    result.  This is so for the function as it stands in the file and for
    the one joined from its two parts.  In the joined one the same holds at
    the last stage: a 503 answer to the judge reaches the caller. *)
Theorem run_orchestra_does_not_retry :
  Orchestrator.run_orchestra rate_limited_once demo_repo "Fix the quote flow"
    "relialimo_dev" 4 false false st0
  = (inl (RateLimitError "429 Too Many Requests"),
     after_actor st0 RepoMapper Orchestrator.repo_map_prompt 30)
  /\
  fst (Orchestrator._run_agent_with_backoff rate_limited_once "repo_map" RepoMapper
         Orchestrator.repo_map_prompt 30 Orchestrator.DEFAULT_MAX_ATTEMPTS st0)
  = inr (mkOutput "{}")
  /\
  Orchestrator.run_orchestra_joined rate_limited_once demo_repo "Fix the quote flow"
    "relialimo_dev" 4 false false st0
  = (inl (RateLimitError "429 Too Many Requests"),
     after_actor st0 RepoMapper Orchestrator.repo_map_prompt 30)
  /\
  fst (Orchestrator.run_orchestra_joined judge_unavailable demo_repo "Fix the quote flow"
         "relialimo_dev" 4 false false st0)
  = inl (APIError (Some 503%Z) "503 Service Unavailable")
  /\
  sleeps (log (snd (Orchestrator.run_orchestra_joined judge_unavailable demo_repo
                      "Fix the quote flow" "relialimo_dev" 4 false false st0))) = [].
Proof. repeat split; reflexivity. Qed.

Lemma quiet_ret {A : Type} (a : A) : quiet (ret a).
Proof. intros s. exists a, s. repeat split. exists []. now rewrite app_nil_r. Qed.

Lemma quiet_bind {A B : Type} (m : M A) (k : A -> M B) :
  quiet m -> (forall a, quiet (k a)) -> quiet (bind m k).
Proof.
  intros Hm Hk s. destruct (Hm s) as (a & s1 & E1 & N1 & l1 & L1).
  destruct (Hk a s1) as (b & s2 & E2 & N2 & l2 & L2).
  exists b, s2. split; [now rewrite (bind_inr _ _ _ _ _ E1)|].
  split; [congruence|]. exists (l1 ++ l2)%list. now rewrite L2, L1, app_assoc.
Qed.

Section Quiet.
Variable W : World.

Lemma quiet_run (a : list string) (dir : Path) (t : Z) : quiet (Orchestrator._run W a dir t).
Proof.
  intros s. rewrite orchestrator_run_eq. eexists _, _. split; [reflexivity|].
  split; [reflexivity|]. eexists. reflexivity.
Qed.

Lemma quiet_run_tasks_from (ctx : RepoContext) (order : list string) :
  forall status, quiet (Orchestrator.run_tasks_from W ctx order status).
Proof.
  induction order as [|task rest IH]; intros status; simpl.
  - apply quiet_ret.
  - destruct (dict_get task (tasks (config ctx))) as [spec|]; [|apply IH].
    apply quiet_bind; [apply quiet_run|]. intros [code out].
    destruct (negb (code =? 0)%Z); [apply quiet_ret | apply IH].
Qed.

Lemma quiet_run_tasks (ctx : RepoContext) : quiet (Orchestrator._run_tasks W ctx).
Proof. apply quiet_run_tasks_from. Qed.

Lemma Runner_run_raises (agent : agent_name) (prompt : string) (turns : Z) (s : st)
      (e : exn) :
  actor_answer W (n_actor s) = inl e ->
  Runner_run W agent prompt turns s = (inl e, after_actor s agent prompt turns).
Proof. intros H. unfold Runner_run. rewrite H. reflexivity. Qed.

End Quiet.

(** Whatever the first actor call raises, a rate limit or a server error
    included, leaves [run_orchestra] after that one call, in the function as
    it stands and in the joined one. *)
Lemma run_orchestra_map_failure (W : World) (repo : Path) (goal session : string)
      (max_iterations : Z) (commit : bool) (s : st) (cfg : OrchestraConfig) (e : exn) :
  config_answer W = inr cfg ->
  actor_answer W (n_actor s) = inl e ->
  Orchestrator.run_orchestra W repo goal session max_iterations false commit s
  = (inl e, after_actor s RepoMapper Orchestrator.repo_map_prompt
                        Orchestrator.REPO_MAP_MAX_TURNS) /\
  Orchestrator.run_orchestra_joined W repo goal session max_iterations false commit s
  = (inl e, after_actor s RepoMapper Orchestrator.repo_map_prompt
                        Orchestrator.REPO_MAP_MAX_TURNS).
Proof.
  intros Hcfg He.
  assert (E0 : Orchestrator.load_or_detect_config W s = (inr cfg, s))
    by (unfold Orchestrator.load_or_detect_config; now rewrite Hcfg).
  assert (E1 : @ret unit tt s = (inr tt, s)) by reflexivity.
  split.
  - unfold Orchestrator.run_orchestra.
    rewrite (bind_inr _ _ _ _ _ E0). rewrite (bind_inr _ _ _ _ _ E1).
    apply bind_inl. now apply Runner_run_raises.
  - unfold Orchestrator.run_orchestra_joined.
    rewrite (bind_inr _ _ _ _ _ E0). rewrite (bind_inr _ _ _ _ _ E1).
    apply bind_inl. now apply Runner_run_raises.
Qed.

(** *** Where the function ends *)

Lemma adds_ret (P : event -> bool) {A : Type} (a : A) : adds_only P (ret a).
Proof. intros s. exists []. simpl. now rewrite app_nil_r. Qed.

Lemma adds_bind (P : event -> bool) {A B : Type} (m : M A) (k : A -> M B) :
  adds_only P m -> (forall a, adds_only P (k a)) -> adds_only P (bind m k).
Proof.
  intros Hm Hk s. unfold bind. destruct (Hm s) as (l1 & L1 & P1).
  destruct (m s) as [[e|a] s1]; simpl in *.
  - exists l1. split; assumption.
  - destruct (Hk a s1) as (l2 & L2 & P2).
    exists (l1 ++ l2)%list. split.
    + now rewrite L2, L1, app_assoc.
    + rewrite forallb_app, P1, P2. reflexivity.
Qed.

Lemma adds_set_ctx_state (P : event -> bool) (k v : string) :
  adds_only P (set_ctx_state k v).
Proof. intros s. exists []. simpl. now rewrite app_nil_r. Qed.

Section BeforeReview.
Variable W : World.

Lemma adds_run (a : list string) (dir : Path) (t : Z) :
  adds_only before_review (Orchestrator._run W a dir t).
Proof.
  intros s. rewrite orchestrator_run_eq. eexists. split; [reflexivity|]. reflexivity.
Qed.

Lemma adds_Runner_run (agent : agent_name) (prompt : string) (turns : Z) :
  agent <> Reviewer -> agent <> Judge ->
  adds_only before_review (Runner_run W agent prompt turns).
Proof.
  intros H1 H2 s. unfold Runner_run. exists [EvActor agent prompt turns]. split.
  - destruct (actor_answer W (n_actor s)); reflexivity.
  - destruct agent; try reflexivity; congruence.
Qed.

Lemma adds_git_status (dir : Path) :
  adds_only before_review (Orchestrator._git_status W dir).
Proof.
  apply adds_bind; [apply adds_run|]. intros [code out].
  destruct (negb (code =? 0)%Z); apply adds_ret.
Qed.

Lemma adds_git_create_branch (dir : Path) (name : string) :
  adds_only before_review (Orchestrator._git_create_branch W dir name).
Proof.
  unfold Orchestrator._git_create_branch.
  destruct (PyStr.contains_any BRANCH_FORBIDDEN name); [apply adds_ret|].
  apply adds_bind; [apply adds_run|]. intros [code out].
  destruct (negb (code =? 0)%Z); apply adds_ret.
Qed.

Lemma adds_run_tasks_from (ctx : RepoContext) (order : list string) :
  forall status, adds_only before_review (Orchestrator.run_tasks_from W ctx order status).
Proof.
  induction order as [|task rest IH]; intros status; simpl.
  - apply adds_ret.
  - destruct (dict_get task (tasks (config ctx))) as [spec|]; [|apply IH].
    apply adds_bind; [apply adds_run|]. intros [code out].
    destruct (negb (code =? 0)%Z); [apply adds_ret | apply IH].
Qed.

Lemma adds_implement_loop (ctx : RepoContext) (goal : string) (plan_result : final_output)
      (max_iterations : Z) (n : nat) :
  forall i, adds_only before_review
              (Orchestrator.implement_loop W ctx goal plan_result max_iterations n i).
Proof.
  induction n as [|n IH]; intros i; simpl.
  - apply adds_ret.
  - apply adds_bind; [apply adds_git_status|]. intros git_status.
    apply adds_bind; [apply adds_Runner_run; discriminate|]. intros _.
    apply adds_bind; [apply adds_run_tasks_from|]. intros _. apply IH.
Qed.

Lemma adds_run_orchestra (repo : Path) (goal session : string) (max_iterations : Z)
      (create_branch commit : bool) :
  adds_only before_review
    (Orchestrator.run_orchestra W repo goal session max_iterations create_branch commit).
Proof.
  unfold Orchestrator.run_orchestra.
  apply adds_bind.
  { intros s. exists []. unfold Orchestrator.load_or_detect_config.
    destruct (config_answer W); simpl; now rewrite app_nil_r. }
  intros cfg. apply adds_bind.
  { destruct create_branch; [|apply adds_ret].
    apply adds_bind; [apply adds_git_create_branch | intros; apply adds_set_ctx_state]. }
  intros _. apply adds_bind; [apply adds_Runner_run; discriminate|]. intros repo_map_result.
  apply adds_bind; [apply adds_Runner_run; discriminate|]. intros plan_result.
  apply adds_implement_loop.
Qed.
End BeforeReview.

Lemma before_review_actors (l : list event) :
  forallb before_review l = true ->
  ~ In Reviewer (actors_of l) /\ ~ In Judge (actors_of l).
Proof.
  induction l as [|e l IH]; [simpl; tauto|].
  intros H. cbn [forallb] in H. apply andb_true_iff in H as [He Hl].
  destruct (IH Hl) as [H1 H2].
  change (actors_of (e :: l))
    with ((match e with EvActor a _ _ => [a] | _ => [] end) ++ actors_of l)%list.
  destruct e as [a c t | agent p t | | q | x | d | f c]; try (split; assumption).
  destruct agent; try discriminate He;
    (split; (intros [E|E]; [discriminate E | contradiction])).
Qed.

(** C8, the failing input.  In no world does the function as it stands in
    the file call [Reviewer] or [Judge], and what it returns is [None]:
    no result record.  With the test task failing in both of two iterations
    and every actor returning, the run is the mapper, the planner and the
    coder twice, with a task run after each implement call, and it ends
    there. *)
Theorem run_orchestra_ends_before_review :
  (forall (W : World) (repo : Path) (goal session : string) (max_iterations : Z)
          (create_branch commit : bool) (s : st),
     exists l,
       log (snd (Orchestrator.run_orchestra W repo goal session max_iterations
                   create_branch commit s)) = (log s ++ l)%list /\
       ~ In Reviewer (actors_of l) /\ ~ In Judge (actors_of l))
  /\
  fst (Orchestrator.run_orchestra test_fails_twice demo_repo "Fix the quote flow"
         "relialimo_dev" 2 false false st0) = inr tt
  /\
  actors_of (log (snd (Orchestrator.run_orchestra test_fails_twice demo_repo
                         "Fix the quote flow" "relialimo_dev" 2 false false st0)))
  = [RepoMapper; Planner; Coder; Coder]
  /\
  spawned (log (snd (Orchestrator.run_orchestra test_fails_twice demo_repo
                       "Fix the quote flow" "relialimo_dev" 2 false false st0)))
  = [["git"; "status"; "--porcelain=v1"]; ["pytest"; "-q"];
     ["git"; "status"; "--porcelain=v1"]; ["pytest"; "-q"]].
Proof.
  split.
  - intros W repo goal session max_iterations create_branch commit s.
    destruct (adds_run_orchestra W repo goal session max_iterations create_branch commit s)
      as (l & Hl & HP).
    exists l. split; [exact Hl | now apply before_review_actors].
  - repeat split; reflexivity.
Qed.



(* ================================================================== *)
(** * More of config.py: dump, detection, the choice of a source *)

Lemma dict_keys_set {V : Type} (k : string) (v : V) (d : dict V) :
  dict_keys (dict_set k v d)
  = if dict_has k d then dict_keys d else (dict_keys d ++ [k])%list.
Proof.
  unfold dict_has. induction d as [|[k0 v0] d IH]; simpl; [reflexivity|].
  destruct (String.eqb_spec k k0) as [->|Hne]; simpl; [reflexivity|].
  rewrite IH. destruct (dict_get k d); reflexivity.
Qed.

Lemma dict_keys_app {V : Type} (d1 d2 : dict V) :
  dict_keys (d1 ++ d2)%list = (dict_keys d1 ++ dict_keys d2)%list.
Proof. apply map_app. Qed.

Lemma well_formed_set (k : string) (a : list string) (d : dict TaskSpec) :
  In k TASK_NAMES -> well_formed_tasks d -> well_formed_tasks (dict_set k (TaskSpec_of a) d).
Proof.
  intros Hk [Hnd Hall]. split.
  - rewrite dict_keys_set. unfold dict_has.
    destruct (dict_get k d) eqn:E; [exact Hnd|].
    apply dict_get_none_keys in E.
    apply NoDup_app; [exact Hnd | repeat constructor; intros [] | ].
    intros x Hx [<-|[]]. contradiction.
  - intros k' spec Hin. apply In_dict_set in Hin as [[-> ->]|Hin]; [now split | now apply Hall].
Qed.

Lemma well_formed_set_if (b : bool) (k : string) (a : list string) (d : dict TaskSpec) :
  In k TASK_NAMES -> well_formed_tasks d -> well_formed_tasks (set_if b k (TaskSpec_of a) d).
Proof. destruct b; simpl; [apply well_formed_set | auto]. Qed.

Lemma well_formed_nil : well_formed_tasks [].
Proof. split; [constructor | intros ? ? []]. Qed.

Lemma load_tasks_well_formed (items : list (string * json)) :
  forall acc, well_formed_tasks acc -> well_formed_tasks (load_tasks items acc).
Proof.
  induction items as [|[k v] items IH]; intros acc Hacc; simpl; [exact Hacc|].
  destruct (is_task_name k) eqn:Ek; simpl; [|now apply IH].
  destruct (is_list_of_str v); simpl; [|now apply IH].
  apply IH. apply well_formed_set; [now apply is_task_name_In | exact Hacc].
Qed.

Lemma forallb_is_str (a : list string) : forallb is_str (map JStr a) = true.
Proof. induction a; simpl; auto. Qed.

Lemma map_str_of (a : list string) : map str_of (map JStr a) = a.
Proof. induction a as [|x a IH]; simpl; [reflexivity | now rewrite IH]. Qed.

(** Loading the dumped members of a well-formed table appends the table. *)
Lemma load_dumped_tasks (d : dict TaskSpec) :
  forall acc,
    NoDup (dict_keys acc ++ dict_keys d) ->
    (forall k spec, In (k, spec) d -> In k TASK_NAMES /\ cwd spec = ".") ->
    load_tasks (map dumped_task d) acc = (acc ++ d)%list.
Proof.
  induction d as [|[k spec] d IH]; intros acc Hnd Hall; simpl.
  - now rewrite app_nil_r.
  - destruct (Hall k spec) as [Hk Hcwd]; [now left|].
    apply is_task_name_In in Hk. rewrite Hk. simpl.
    rewrite forallb_is_str. simpl. rewrite map_str_of.
    assert (Hfresh : dict_get k acc = None).
    { apply dict_get_none_keys. intros Hin.
      apply NoDup_remove_2 in Hnd. apply Hnd. apply in_or_app. now left. }
    rewrite dict_set_fresh by exact Hfresh.
    assert (Hspec : TaskSpec_of (argv spec) = spec).
    { destruct spec as [a c]. simpl in Hcwd. subst c. reflexivity. }
    rewrite Hspec, IH.
    + now rewrite <- app_assoc.
    + rewrite dict_keys_app, <- app_assoc. exact Hnd.
    + intros k' spec' Hin. apply Hall. now right.
Qed.

Lemma dump_load_tasks (c : OrchestraConfig) :
  well_formed_tasks (tasks c) ->
  OrchestraConfig_load (OrchestraConfig_dump c) = inr c.
Proof.
  intros [Hnd Hall]. unfold OrchestraConfig_load, OrchestraConfig_dump. simpl.
  change (map (fun kv => (fst kv, JArr (map JStr (argv (snd kv))))) (tasks c))
    with (map dumped_task (tasks c)).
  rewrite (load_dumped_tasks (tasks c) []); [now destruct c | exact Hnd | exact Hall].
Qed.

Lemma load_well_formed (data : json) (c : OrchestraConfig) :
  OrchestraConfig_load data = inr c -> well_formed_tasks (tasks c).
Proof.
  unfold OrchestraConfig_load. destruct (get_tasks data) as [e|raw]; [discriminate|].
  destruct raw; try discriminate. intros H. injection H as <-. simpl.
  apply load_tasks_well_formed, well_formed_nil.
Qed.

Lemma detect_well_formed (bool_of_float : string -> bool) (f : RepoFiles) (c : OrchestraConfig) :
  detect_default_config bool_of_float f = inr c -> well_formed_tasks (tasks c).
Proof.
  assert (T : forall k, In k ["install"; "format"; "lint"; "typecheck"; "test"; "build"] ->
                        In k TASK_NAMES) by (intros k H; exact H).
  unfold detect_default_config.
  destruct (has_package_json f).
  - unfold detect_node. destruct (scripts_of _) as [e|scripts]; [discriminate|].
    intros H. injection H as <-. cbn [tasks].
    repeat (apply well_formed_set_if; [apply T; simpl; tauto|]).
    apply (well_formed_set "install" _ []); [apply T; simpl; tauto | apply well_formed_nil].
  - destruct (has_pyproject f || has_requirements f)%bool.
    + intros H. injection H as <-. unfold detect_python. cbn [tasks].
      repeat (apply well_formed_set; [apply T; simpl; tauto|]).
      apply (well_formed_set_if _ "install" _ []);
        [apply T; simpl; tauto | apply well_formed_nil].
    + intros H. injection H as <-. apply well_formed_nil.
Qed.

(** X1.  Round trip: a configuration whose task names are distinct names of
    the closed set and whose tasks run in the default directory is given back
    by [load] from the document [dump] makes of it. *)
Theorem dump_load_round_trip (c : OrchestraConfig) :
  NoDup (dict_keys (tasks c)) ->
  (forall k spec, In (k, spec) (tasks c) ->
     In k ["install"; "format"; "lint"; "typecheck"; "test"; "build"] /\ cwd spec = ".") ->
  OrchestraConfig_load (OrchestraConfig_dump c) = inr c.
Proof. intros Hnd Hall. apply dump_load_tasks. split; assumption. Qed.

Lemma dump_load_round_trip_witness :
  OrchestraConfig_load
    (OrchestraConfig_dump (mkConfig [("test", mkTaskSpec ["npm"; "test"] ".");
                                     ("lint", mkTaskSpec ["npm"; "run"; "lint"] ".")]))
  = inr (mkConfig [("test", mkTaskSpec ["npm"; "test"] ".");
                   ("lint", mkTaskSpec ["npm"; "run"; "lint"] ".")]).
Proof.
  apply dump_load_round_trip.
  - repeat constructor; simpl; intuition discriminate.
  - intros k spec [H|[H|[]]]; injection H as <- <-; simpl; tauto.
Defined.

(** X2.  Whichever source [load_or_detect_config] uses (the file at the
    given path, the default file of the repository, or detection), a
    configuration it returns has distinct task names, all of the closed set,
    each task in the default directory; [load] gives it back from its [dump]. *)
Theorem load_or_detect_well_formed (bool_of_float : string -> bool)
        (explicit default_file : option (exn + json)) (f : RepoFiles) (c : OrchestraConfig) :
  load_or_detect_config_from bool_of_float explicit default_file f = inr c ->
  NoDup (dict_keys (tasks c)) /\
  (forall k spec, In (k, spec) (tasks c) ->
     In k ["install"; "format"; "lint"; "typecheck"; "test"; "build"] /\ cwd spec = ".") /\
  OrchestraConfig_load (OrchestraConfig_dump c) = inr c.
Proof.
  intros H.
  assert (Hwf : well_formed_tasks (tasks c)).
  { unfold load_or_detect_config_from in H.
    destruct explicit as [[e|data]|].
    - discriminate.
    - now apply (load_well_formed data).
    - destruct default_file as [[e|data]|].
      + discriminate.
      + now apply (load_well_formed data).
      + now apply (detect_well_formed bool_of_float f). }
  split; [apply Hwf|]. split; [apply Hwf | now apply dump_load_tasks].
Qed.

Lemma load_or_detect_well_formed_witness :
  load_or_detect_config_from (fun _ => true) None None pnpm_repo
  = inr (mkConfig [("install", mkTaskSpec ["pnpm"; "install"; "--frozen-lockfile"] ".");
                   ("lint", mkTaskSpec ["pnpm"; "run"; "lint"] ".");
                   ("test", mkTaskSpec ["pnpm"; "test"] ".")]) /\
  OrchestraConfig_load
    (OrchestraConfig_dump
       (mkConfig [("install", mkTaskSpec ["pnpm"; "install"; "--frozen-lockfile"] ".");
                  ("lint", mkTaskSpec ["pnpm"; "run"; "lint"] ".");
                  ("test", mkTaskSpec ["pnpm"; "test"] ".")]))
  = inr (mkConfig [("install", mkTaskSpec ["pnpm"; "install"; "--frozen-lockfile"] ".");
                   ("lint", mkTaskSpec ["pnpm"; "run"; "lint"] ".");
                   ("test", mkTaskSpec ["pnpm"; "test"] ".")]).
Proof.
  split; [reflexivity|].
  apply (load_or_detect_well_formed (fun _ => true) None None pnpm_repo). reflexivity.
Defined.

(** X3.  Detection raises when package.json exists and holds a JSON value
    that is no object: the failure of [pkg.get] is outside the handler that
    guards the parsing. *)
Theorem detect_raises_on_non_object (bool_of_float : string -> bool) (f : RepoFiles) (v : json) :
  has_package_json f = true ->
  package_json f = Some v ->
  (forall ms, v <> JObj ms) ->
  detect_default_config bool_of_float f
  = inl (AttributeError ("'" ++ json_type_name v ++ "' object has no attribute 'get'")).
Proof.
  intros Hp Hv Hobj. unfold detect_default_config, detect_node. rewrite Hp, Hv.
  destruct v; try reflexivity. now elim (Hobj members).
Qed.

Lemma detect_raises_on_non_object_witness :
  detect_default_config (fun _ => true) broken_package_json
  = inl (AttributeError "'list' object has no attribute 'get'").
Proof.
  apply (detect_raises_on_non_object (fun _ => true) broken_package_json
           (JArr [JStr "not an object"])); [reflexivity | reflexivity | discriminate].
Defined.

(* ================================================================== *)
(** * Branch names made from a goal (orchestrator.py) *)

Lemma all_chars_app (P : ascii -> bool) (a b : string) :
  all_chars P (a ++ b) = (all_chars P a && all_chars P b)%bool.
Proof.
  induction a as [|c a IH]; simpl; [reflexivity|]. now rewrite IH, andb_assoc.
Qed.

Lemma all_chars_weaken (P Q : ascii -> bool) (s : string) :
  (forall c, P c = true -> Q c = true) -> all_chars P s = true -> all_chars Q s = true.
Proof.
  intros H. induction s as [|c s IH]; simpl; [reflexivity|].
  intros E. apply andb_true_iff in E as [E1 E2]. now rewrite (H c E1), IH.
Qed.

Lemma all_chars_map_chars (P : ascii -> bool) (f : ascii -> ascii) (s : string) :
  (forall c, P (f c) = true) -> all_chars P (Orchestrator.map_chars f s) = true.
Proof. intros H. induction s as [|c s IH]; simpl; [reflexivity | now rewrite H, IH]. Qed.

Lemma all_chars_lstrip_char (P : ascii -> bool) (x : ascii) (s : string) :
  all_chars P s = true -> all_chars P (PyStr.lstrip_char x s) = true.
Proof.
  induction s as [|c s IH]; simpl; [reflexivity|].
  intros E. destruct (Ascii.eqb c x); [|exact E].
  apply andb_true_iff in E as [_ E]. now apply IH.
Qed.

Lemma all_chars_rstrip_char (P : ascii -> bool) (x : ascii) (s : string) :
  all_chars P s = true -> all_chars P (PyStr.rstrip_char x s) = true.
Proof.
  induction s as [|c s IH]; simpl; [reflexivity|].
  intros E. apply andb_true_iff in E as [Ec E]. specialize (IH E).
  destruct (PyStr.rstrip_char x s) as [|d r].
  - destruct (Ascii.eqb c x); simpl; [reflexivity | now rewrite Ec].
  - simpl in *. now rewrite Ec, IH.
Qed.

Lemma all_chars_split_go (P : ascii -> bool) (sep : ascii) (s : string) :
  forall cur, all_chars P cur = true -> all_chars P s = true ->
              Forall (fun p => all_chars P p = true) (PyStr.split_go sep cur s).
Proof.
  induction s as [|c s IH]; intros cur Hcur Hs; simpl.
  - now constructor.
  - simpl in Hs. apply andb_true_iff in Hs as [Hc Hs].
    destruct (Ascii.eqb c sep).
    + constructor; [exact Hcur | now apply IH].
    + apply IH; [|exact Hs]. rewrite all_chars_app, Hcur. simpl. now rewrite Hc.
Qed.

Lemma all_chars_concat (P : ascii -> bool) (sep : string) (l : list string) :
  all_chars P sep = true -> Forall (fun p => all_chars P p = true) l ->
  all_chars P (String.concat sep l) = true.
Proof.
  intros Hsep H. induction H as [|x l Hx Hl IH]; [reflexivity|].
  destruct l as [|y l]; [exact Hx|].
  change (String.concat sep (x :: y :: l)) with (x ++ sep ++ String.concat sep (y :: l)).
  now rewrite !all_chars_app, Hx, Hsep, IH.
Qed.

Lemma all_chars_substring (P : ascii -> bool) (s : string) :
  forall n m, all_chars P s = true -> all_chars P (substring n m s) = true.
Proof.
  induction s as [|c s IH]; intros n m H.
  - destruct n, m; reflexivity.
  - simpl in H. apply andb_true_iff in H as [Hc Hs].
    destruct n as [|n]; destruct m as [|m]; simpl; auto.
    now rewrite Hc, IH.
Qed.

Lemma length_substring_le (s : string) :
  forall n m, (String.length (substring n m s) <= m)%nat.
Proof.
  induction s as [|c s IH]; intros n m.
  - destruct n, m; simpl; lia.
  - destruct n as [|n]; destruct m as [|m]; simpl; try lia.
    + specialize (IH 0%nat m). lia.
    + apply IH.
    + apply IH.
Qed.

Lemma slug_source_char (c : ascii) :
  slug_char (if PyStr.isalnum c then PyStr.lower c else "-"%char) = true.
Proof. destruct c as [[] [] [] [] [] [] [] []]; reflexivity. Qed.

Lemma slug_char_safe (c : ascii) : slug_char c = true -> branch_safe c = true.
Proof. destruct c as [[] [] [] [] [] [] [] []]; vm_compute; intros H; congruence. Qed.

Lemma stamp_char_safe (c : ascii) : stamp_char c = true -> branch_safe c = true.
Proof. destruct c as [[] [] [] [] [] [] [] []]; vm_compute; intros H; congruence. Qed.

(** *** Dashes *)

Lemma dashes_apart_piece (p rest : string) (b : bool) :
  all_chars (fun c => negb (Ascii.eqb c "-")) p = true -> p <> "" ->
  dashes_apart b (p ++ rest) = dashes_apart false rest.
Proof.
  revert b; induction p as [|c p IH]; intros b Hp Hne; [now elim Hne|].
  simpl in Hp. apply andb_true_iff in Hp as [Hc Hp]. apply negb_true_iff in Hc.
  simpl. rewrite Hc. destruct p as [|d p]; [reflexivity|].
  apply IH; [exact Hp | discriminate].
Qed.

Lemma dashes_apart_join (l : list string) :
  Forall (fun p => all_chars (fun c => negb (Ascii.eqb c "-")) p = true /\ p <> "") l ->
  dashes_apart true (String.concat "-" l) = true.
Proof.
  intros H. induction H as [|x l [Hx Hne] Hl IH]; [reflexivity|].
  destruct l as [|y l].
  - simpl. rewrite <- (append_nil_r x). now rewrite (dashes_apart_piece x "" true Hx Hne).
  - change (String.concat "-" (x :: y :: l)) with (x ++ "-" ++ String.concat "-" (y :: l)).
    rewrite (dashes_apart_piece x _ true Hx Hne). simpl. exact IH.
Qed.

Lemma dashes_apart_prefix (s : string) :
  forall b m, dashes_apart b s = true -> dashes_apart b (substring 0 m s) = true.
Proof.
  induction s as [|c s IH]; intros b m H; [destruct m; reflexivity|].
  destruct m as [|m]; [reflexivity|]. simpl in *.
  destruct (Ascii.eqb c "-").
  - apply andb_true_iff in H as [Hb H]. now rewrite Hb, IH.
  - now apply IH.
Qed.

Lemma dashes_apart_weaken (s : string) (b : bool) :
  dashes_apart true s = true -> dashes_apart b s = true.
Proof.
  destruct s as [|c s]; [reflexivity|]. simpl.
  destruct (Ascii.eqb c "-"); [discriminate | auto].
Qed.

Lemma prefix_cons (c d : ascii) (m s : string) :
  String.prefix (String c m) (String d s) = (Ascii.eqb c d && String.prefix m s)%bool.
Proof.
  change (String.prefix (String c m) (String d s))
    with (if ascii_dec c d then String.prefix m s else false).
  destruct (ascii_dec c d) as [->|Hne].
  - now rewrite Ascii.eqb_refl.
  - apply Ascii.eqb_neq in Hne. now rewrite Hne.
Qed.

Lemma dashes_apart_first (s : string) :
  dashes_apart true s = true -> String.prefix "-" s = false.
Proof.
  destruct s as [|c s]; [reflexivity|]. rewrite prefix_cons.
  cbn [dashes_apart]. rewrite (Ascii.eqb_sym "-" c).
  destruct (Ascii.eqb c "-"); [discriminate | reflexivity].
Qed.

Lemma dashes_apart_no_double (s : string) :
  forall b, dashes_apart b s = true -> PyStr.contains "--" s = false.
Proof.
  induction s as [|c s IH]; intros b H; [reflexivity|].
  rewrite contains_unfold, prefix_cons. cbn [dashes_apart] in H.
  rewrite (Ascii.eqb_sym "-" c).
  destruct (Ascii.eqb c "-").
  - apply andb_true_iff in H as [_ H].
    now rewrite (IH true H), (dashes_apart_first s H).
  - now rewrite (IH false H).
Qed.

Lemma split_go_no_sep (sep : ascii) (s : string) :
  forall cur, all_chars (fun c => negb (Ascii.eqb c sep)) cur = true ->
              Forall (fun p => all_chars (fun c => negb (Ascii.eqb c sep)) p = true)
                     (PyStr.split_go sep cur s).
Proof.
  induction s as [|c s IH]; intros cur Hcur; simpl.
  - now constructor.
  - destruct (Ascii.eqb c sep) eqn:E.
    + constructor; [exact Hcur | now apply IH].
    + apply IH. rewrite all_chars_app, Hcur. simpl. now rewrite E.
Qed.

Lemma slug_chars (goal : string) :
  all_chars slug_char (Orchestrator.slug_of goal) = true.
Proof.
  unfold Orchestrator.slug_of, PyStr.first_chars, PyStr.join, PyStr.split.
  set (raw := PyStr.strip_char "-" _).
  apply all_chars_substring, all_chars_concat; [reflexivity|].
  apply Forall_forall. intros p Hp. apply filter_In in Hp as [Hp _].
  revert p Hp. apply Forall_forall. apply all_chars_split_go; [reflexivity|].
  unfold raw, PyStr.strip_char.
  apply all_chars_rstrip_char, all_chars_lstrip_char, all_chars_map_chars.
  exact slug_source_char.
Qed.

(** X4.  For a goal of code points below 256, the slug made from it has at
    most 40 characters, each of them [-] or alphanumeric; it does not start
    with [-] and holds no [--].  (Above 255 [str.lower] can give two code
    points for one, the second not alphanumeric; a [string] has no such
    character.) *)
Theorem slug_shape (goal : string) :
  (String.length (Orchestrator.slug_of goal) <= 40)%nat /\
  all_chars slug_char (Orchestrator.slug_of goal) = true /\
  PyStr.startswith (Orchestrator.slug_of goal) "-" = false /\
  PyStr.contains "--" (Orchestrator.slug_of goal) = false.
Proof.
  unfold Orchestrator.slug_of, PyStr.first_chars, PyStr.join, PyStr.split.
  set (raw := PyStr.strip_char "-" _).
  set (pieces := filter _ (PyStr.split_go "-" "" raw)).
  assert (Hraw : all_chars slug_char raw = true).
  { unfold raw, PyStr.strip_char.
    apply all_chars_rstrip_char, all_chars_lstrip_char, all_chars_map_chars.
    exact slug_source_char. }
  assert (Hpieces : Forall (fun p => all_chars slug_char p = true) pieces).
  { unfold pieces. apply Forall_forall. intros p Hp. apply filter_In in Hp as [Hp _].
    revert p Hp. apply Forall_forall. now apply all_chars_split_go. }
  assert (Hdash : Forall (fun p => all_chars (fun c => negb (Ascii.eqb c "-")) p = true /\
                                   p <> "") pieces).
  { unfold pieces. apply Forall_forall. intros p Hp. apply filter_In in Hp as [Hp Hne]. split.
    - clear Hne. revert p Hp. apply Forall_forall. now apply split_go_no_sep.
    - intros ->. discriminate Hne. }
  assert (Hd : dashes_apart true (substring 0 40 (String.concat "-" pieces)) = true)
    by (apply dashes_apart_prefix, dashes_apart_join; exact Hdash).
  split; [apply length_substring_le|].
  split; [apply all_chars_substring, all_chars_concat; [reflexivity | exact Hpieces]|].
  split; [|now apply (dashes_apart_no_double _ true)].
  unfold PyStr.startswith. now apply dashes_apart_first.
Qed.

Lemma all_chars_safe_not_forbidden (name : string) :
  all_chars branch_safe name = true -> PyStr.contains_any BRANCH_FORBIDDEN name = false.
Proof.
  intros H. unfold PyStr.contains_any.
  destruct (existsb (fun x => PyStr.contains x name) BRANCH_FORBIDDEN) eqn:E; [|reflexivity].
  apply existsb_exists in E as (x & Hx & Hc).
  apply contains_occurs in Hc as (pre & post & ->).
  rewrite !all_chars_app in H. apply andb_true_iff in H as [_ H].
  apply andb_true_iff in H as [H _].
  simpl in Hx. destruct Hx as [<-|[<-|[<-|[<-|[<-|[<-|[]]]]]]]; discriminate H.
Qed.

(** X5.  A branch name made from a goal, with a time stamp of digits and
    [-], passes the guard of [_git_create_branch]: [git checkout -b] is run on
    it, and the answer is OK when git exits with 0. *)
Theorem goal_branch_is_created (W : World) (dir : Path) (goal : string) (s : st) :
  all_chars stamp_char (utcnow_stamp W) = true ->
  exists r s',
    Orchestrator._git_create_branch W dir (Orchestrator._branch_name_from_goal W goal) s
    = (inr r, s') /\
    spawned (log s')
    = (spawned (log s) ++
       [["git"; "checkout"; "-b"; Orchestrator._branch_name_from_goal W goal]])%list /\
    (forall out err, proc_answer W (n_proc s) = Exited 0 out err ->
                     r = "OK: on branch " ++ Orchestrator._branch_name_from_goal W goal).
Proof.
  intros Hstamp.
  assert (Hsafe : all_chars branch_safe (Orchestrator._branch_name_from_goal W goal) = true).
  { unfold Orchestrator._branch_name_from_goal.
    change ("ai/" ++ utcnow_stamp W ++ "_" ++ str_or (Orchestrator.slug_of goal) "change")
      with ("ai/" ++ (utcnow_stamp W ++ ("_" ++ str_or (Orchestrator.slug_of goal) "change"))).
    rewrite !all_chars_app.
    rewrite (all_chars_weaken _ _ _ stamp_char_safe Hstamp).
    assert (Hslug : all_chars branch_safe (str_or (Orchestrator.slug_of goal) "change") = true).
    { unfold str_or. destruct (String.eqb (Orchestrator.slug_of goal) ""); [reflexivity|].
      apply (all_chars_weaken _ _ _ slug_char_safe). apply slug_chars. }
    rewrite Hslug. reflexivity. }
  unfold Orchestrator._git_create_branch.
  rewrite (all_chars_safe_not_forbidden _ Hsafe).
  rewrite (bind_inr _ _ _ _ _ (orchestrator_run_eq W _ _ _ s)).
  destruct (run_outcome _ 60 (proc_answer W (n_proc s))) as [code out] eqn:Ero.
  destruct (negb (code =? 0)%Z) eqn:Ec.
  - eexists _, _. split; [reflexivity|]. split.
    + unfold after_spawn; simpl. rewrite spawned_app. reflexivity.
    + intros o e Hans. rewrite Hans in Ero. simpl in Ero. injection Ero as <- _.
      discriminate Ec.
  - eexists _, _. split; [reflexivity|]. split.
    + unfold after_spawn; simpl. rewrite spawned_app. reflexivity.
    + reflexivity.
Qed.

Lemma goal_branch_is_created_witness :
  Orchestrator._branch_name_from_goal (scripted_world [] [] (inr no_tasks)) long_goal
  = "ai/20250101-120000_fix-the-quote-flow-totals-are-wrong-when" /\
  exists r s',
    Orchestrator._git_create_branch (scripted_world [] [] (inr no_tasks)) demo_repo
      (Orchestrator._branch_name_from_goal (scripted_world [] [] (inr no_tasks)) long_goal) st0
    = (inr r, s') /\
    spawned (log s')
    = (spawned (log st0) ++
       [["git"; "checkout"; "-b";
         Orchestrator._branch_name_from_goal (scripted_world [] [] (inr no_tasks)) long_goal]])%list /\
    (forall out err,
       proc_answer (scripted_world [] [] (inr no_tasks)) (n_proc st0) = Exited 0 out err ->
       r = "OK: on branch " ++
           Orchestrator._branch_name_from_goal (scripted_world [] [] (inr no_tasks)) long_goal).
Proof.
  split; [reflexivity|].
  apply (goal_branch_is_created (scripted_world [] [] (inr no_tasks)) demo_repo long_goal st0).
  reflexivity.
Defined.

(* ================================================================== *)
(** * More of the task runner and of the controller's scan *)

Lemma Forall_dict_set {V : Type} (P : string * V -> Prop) (k : string) (v : V) (d : dict V) :
  (forall k', P (k', v)) -> Forall P d -> Forall P (dict_set k v d).
Proof.
  intros Hv H. induction H as [|[k0 v0] d Hx Hd IH]; simpl.
  - constructor; [apply Hv | constructor].
  - destruct (String.eqb k k0); constructor; auto.
Qed.

Lemma run_tasks_from_tails (W : World) (ctx : RepoContext) (order : list string) :
  forall status s,
    Forall (fun te => tail_within 4000 (snd te)) status ->
    forall status' s',
      Orchestrator.run_tasks_from W ctx order status s = (inr status', s') ->
      Forall (fun te => tail_within 4000 (snd te)) status'.
Proof.
  induction order as [|task rest IH]; intros status s Hst status' s' Hrun; simpl in Hrun.
  - injection Hrun as <- _. exact Hst.
  - destruct (dict_get task (tasks (config ctx))) as [spec|].
    + rewrite (bind_inr _ _ _ _ _ (orchestrator_run_eq W _ _ _ s)) in Hrun.
      destruct (run_outcome (argv spec) 900 (proc_answer W (n_proc s))) as [code out].
      assert (Hnew : Forall (fun te => tail_within 4000 (snd te))
                       (dict_set task
                          (Orchestrator.Ran (code =? 0)%Z code (PyStr.join " " (argv spec))
                             (PyStr.last_chars 4000 out)) status)).
      { apply Forall_dict_set; [|exact Hst]. intros k'. simpl.
        unfold PyStr.last_chars. apply length_substring_le. }
      destruct (negb (code =? 0)%Z).
      * injection Hrun as <- _. exact Hnew.
      * exact (IH _ _ Hnew _ _ Hrun).
    + refine (IH _ _ _ _ _ Hrun).
      apply Forall_dict_set; [intros; exact I | exact Hst].
Qed.

(** X6.  Every output the task runner records is at most 4000 characters
    long, whatever the commands print. *)
Theorem run_tasks_tails_bounded (W : World) (ctx : RepoContext) (s s' : st)
        (status : dict Orchestrator.task_entry) :
  Orchestrator._run_tasks W ctx s = (inr status, s') ->
  forall t ok code cmd tail,
    In (t, Orchestrator.Ran ok code cmd tail) status -> (String.length tail <= 4000)%nat.
Proof.
  intros Hrun t ok code cmd tail Hin.
  pose proof (run_tasks_from_tails W ctx Orchestrator.TASK_ORDER [] s (Forall_nil _) _ _ Hrun)
    as H.
  rewrite Forall_forall in H. exact (H _ Hin).
Qed.

Lemma first_failure_absent (rest : list string) (status : dict Orchestrator.task_entry) :
  (forall r, In r rest -> dict_get r status = None) ->
  Orchestrator.first_failure rest status = None.
Proof.
  induction rest as [|r rest IH]; intros H; [reflexivity|].
  cbn [Orchestrator.first_failure]. rewrite (H r) by now left.
  apply IH. intros r' Hr'. apply H. now right.
Qed.

(** The scan over the keys of a mapping, then over names it does not hold,
    finds the first failed entry. *)
Lemma first_failure_scan (suffix rest : list string) :
  forall (pre suf : dict Orchestrator.task_entry),
    suffix = dict_keys suf ->
    NoDup (dict_keys pre ++ dict_keys suf ++ rest)%list ->
    Orchestrator.first_failure (suffix ++ rest)%list (pre ++ suf)%list
    = match find (fun te => failed (snd te)) suf with
      | Some te => Some (failure_text te)
      | None => None
      end.
Proof.
  intros pre suf. revert pre suffix. induction suf as [|[t e] suf IH]; intros pre suffix -> Hnd.
  - rewrite app_nil_r. cbn [dict_keys map app find]. apply first_failure_absent.
    intros r Hr. apply dict_get_none_keys. intros Hin.
    cbn [dict_keys map app] in Hnd.
    clear - Hnd Hr Hin. induction (dict_keys pre) as [|k ks IHk]; [destruct Hin|].
    simpl in Hnd. inversion Hnd as [|? ? Hnotin Hnd']; subst.
    destruct Hin as [->|Hin].
    + apply Hnotin. apply in_or_app. now right.
    + now apply IHk.
  - simpl dict_keys. simpl app.
    assert (Ht : dict_get t (pre ++ (t, e) :: suf)%list = Some e).
    { assert (Hpre : ~ In t (dict_keys pre)).
      { intros Hin. apply NoDup_remove_2 in Hnd. apply Hnd. apply in_or_app. now left. }
      clear - Hpre. induction pre as [|[k v] pre IHp]; simpl.
      - now rewrite String.eqb_refl.
      - destruct (String.eqb_spec t k) as [->|Hne]; [elim Hpre; now left|].
        apply IHp. intros Hin. apply Hpre. now right. }
    cbn [Orchestrator.first_failure]. rewrite Ht.
    assert (Hnext : Orchestrator.first_failure (dict_keys suf ++ rest)%list
                                               (pre ++ (t, e) :: suf)%list
                    = match find (fun te => failed (snd te)) suf with
                      | Some te => Some (failure_text te)
                      | None => None
                      end).
    { replace (pre ++ (t, e) :: suf)%list with ((pre ++ [(t, e)]) ++ suf)%list
        by (now rewrite <- app_assoc).
      apply IH; [reflexivity|].
      rewrite dict_keys_app. simpl. rewrite <- app_assoc. exact Hnd. }
    destruct e as [|ok code cmd tail]; cbn [find snd failed].
    + exact Hnext.
    + destruct ok.
      * exact Hnext.
      * reflexivity.
Qed.

(** X7.  The controller's scan agrees with the task runner: on the mapping
    the runner returns it finds a failure exactly when the last entry is a
    failed one, and the text it keeps names that task, its command and the
    recorded output; when no task failed it finds none. *)
Theorem scan_finds_runner_failure (W : World) (ctx : RepoContext) (s s' : st)
        (status : dict Orchestrator.task_entry) :
  Orchestrator._run_tasks W ctx s = (inr status, s') ->
  (Forall (fun te => failed (snd te) = false) status ->
   Orchestrator.first_failure Orchestrator.TASK_ORDER status = None) /\
  (forall pre t code cmd tail,
     status = (pre ++ [(t, Orchestrator.Ran false code cmd tail)])%list ->
     Orchestrator.first_failure Orchestrator.TASK_ORDER status
     = Some (t ++ ": " ++ cmd ++ NL ++ tail)) /\
  (forall text,
     Orchestrator.first_failure Orchestrator.TASK_ORDER status = Some text ->
     exists pre t code cmd tail,
       status = (pre ++ [(t, Orchestrator.Ran false code cmd tail)])%list /\
       text = t ++ ": " ++ cmd ++ NL ++ tail).
Proof.
  intros Hrun.
  destruct (run_tasks_from_spec W ctx Orchestrator.TASK_ORDER [] s TASK_ORDER_NoDup)
    as (new & s1 & visited & rest & Hrun' & Hord & Hkeys & _ & _ & Hok & Hlast);
    [reflexivity|].
  change (Orchestrator.run_tasks_from W ctx Orchestrator.TASK_ORDER [] s)
    with (Orchestrator._run_tasks W ctx s) in Hrun'.
  rewrite Hrun in Hrun'. cbn [app] in Hrun'. injection Hrun' as Es _. subst new.
  assert (Hscan : Orchestrator.first_failure Orchestrator.TASK_ORDER status
                  = match find (fun te => failed (snd te)) status with
                    | Some te => Some (failure_text te)
                    | None => None
                    end).
  { rewrite Hord. apply (first_failure_scan visited rest [] status).
    - now rewrite Hkeys.
    - simpl. rewrite Hkeys, <- Hord. exact TASK_ORDER_NoDup. }
  assert (Hfind_last : forall pre te,
             status = (pre ++ [te])%list -> failed (snd te) = true ->
             find (fun te => failed (snd te)) status = Some te).
  { intros pre te E Hf. rewrite E in Hok |- *. rewrite removelast_last in Hok.
    clear - Hok Hf. induction Hok as [|x pre Hx Hpre IH]; simpl.
    - now rewrite Hf.
    - now rewrite Hx. }
  split; [|split].
  - intros Hall. rewrite Hscan.
    destruct (find (fun te => failed (snd te)) status) as [te|] eqn:E; [|reflexivity].
    apply find_some in E as [Hin Hf]. rewrite Forall_forall in Hall.
    rewrite (Hall _ Hin) in Hf. discriminate.
  - intros pre t code cmd tail E. rewrite Hscan, (Hfind_last pre _ E eq_refl). reflexivity.
  - intros text Htext. rewrite Hscan in Htext.
    destruct (find (fun te => failed (snd te)) status) as [te|] eqn:E; [|discriminate].
    injection Htext as <-.
    apply find_some in E as [Hin Hf].
    destruct (exists_last (l := status)) as (pre & last_te & Elast).
    { intros ->. destruct Hin. }
    assert (Hte : te = last_te).
    { rewrite Elast in Hin, Hok. rewrite removelast_last in Hok.
      apply in_app_or in Hin as [Hin|[<-|[]]]; [|reflexivity].
      rewrite Forall_forall in Hok. rewrite (Hok _ Hin) in Hf. discriminate. }
    subst last_te. destruct te as [t [|ok code cmd tail]]; [discriminate Hf|].
    destruct ok; [discriminate Hf|].
    exists pre, t, code, cmd, tail. split; [exact Elast | reflexivity].
Qed.

Lemma scan_finds_runner_failure_witness :
  Orchestrator.first_failure Orchestrator.TASK_ORDER
    [("format", Orchestrator.Skipped);
     ("lint", Orchestrator.Ran false 1 "npm run lint" "SyntaxError line 4")]
  = Some ("lint: npm run lint" ++ NL ++ "SyntaxError line 4").
Proof.
  apply (proj1 (proj2 (scan_finds_runner_failure lint_broken
                         (mkCtx demo_repo lint_fails "relialimo_dev") st0
                         (snd (Orchestrator._run_tasks lint_broken
                                 (mkCtx demo_repo lint_fails "relialimo_dev") st0))
                         _ eq_refl))
               [("format", Orchestrator.Skipped)] "lint" 1%Z "npm run lint"
               "SyntaxError line 4").
  reflexivity.
Defined.

Lemma run_tasks_tails_bounded_witness :
  (String.length "SyntaxError line 4" <= 4000)%nat.
Proof.
  apply (run_tasks_tails_bounded lint_broken (mkCtx demo_repo lint_fails "relialimo_dev") st0
           (snd (Orchestrator._run_tasks lint_broken
                   (mkCtx demo_repo lint_fails "relialimo_dev") st0))
           _ eq_refl "lint" false 1%Z "npm run lint" "SyntaxError line 4").
  right. left. reflexivity.
Defined.

(* ================================================================== *)
(** * The git helpers *)

Lemma length_append (a b : string) :
  String.length (a ++ b) = (String.length a + String.length b)%nat.
Proof. induction a as [|c a IH]; simpl; [reflexivity | now rewrite IH]. Qed.

(** X8.  [_git_commit_all] never raises.  A message that is blank once
    stripped is refused and nothing is run.  Otherwise [git add -A] is run;
    when it fails its output is reported and no commit is made; when it
    succeeds [git commit -m] is run with the stripped message as one
    argument, and the answer is "OK: committed" exactly when that exits
    with 0. *)
Theorem commit_all_steps (W : World) (dir : Path) (message : string) (s : st) :
  exists r s',
    Orchestrator._git_commit_all W dir message s = (inr r, s') /\
    (PyStr.strip message = "" -> r = "ERROR: empty commit message" /\ s' = s) /\
    (PyStr.strip message <> "" ->
     fst (git_outcome W (n_proc s) ["git"; "add"; "-A"]) <> 0%Z ->
     r = "ERROR: git add failed" ++ NL ++ snd (git_outcome W (n_proc s) ["git"; "add"; "-A"]) /\
     spawned (log s') = (spawned (log s) ++ [["git"; "add"; "-A"]])%list) /\
    (PyStr.strip message <> "" ->
     fst (git_outcome W (n_proc s) ["git"; "add"; "-A"]) = 0%Z ->
     spawned (log s')
     = (spawned (log s) ++
        [["git"; "add"; "-A"]; ["git"; "commit"; "-m"; PyStr.strip message]])%list /\
     (r = "OK: committed" <->
      fst (git_outcome W (S (n_proc s)) ["git"; "commit"; "-m"; PyStr.strip message]) = 0%Z)).
Proof.
  unfold Orchestrator._git_commit_all, git_outcome.
  destruct (String.eqb_spec (PyStr.strip message) "") as [E|E].
  - exists "ERROR: empty commit message", s. split; [reflexivity|].
    split; [auto|]. split; intros H; now elim H.
  - rewrite (bind_inr _ _ _ _ _ (orchestrator_run_eq W _ _ _ s)).
    destruct (run_outcome ["git"; "add"; "-A"] 60 (proc_answer W (n_proc s)))
      as [code out] eqn:Eadd.
    destruct (code =? 0)%Z eqn:Ec; cbn [negb fst snd].
    + apply Z.eqb_eq in Ec. subst code.
      rewrite (bind_inr _ _ _ _ _ (orchestrator_run_eq W _ _ _ _)).
      cbn [after_spawn n_proc].
      destruct (run_outcome ["git"; "commit"; "-m"; PyStr.strip message] 60
                            (proc_answer W (S (n_proc s)))) as [code2 out2] eqn:Ecommit.
      destruct (code2 =? 0)%Z eqn:Ec2; cbn [negb fst].
      * eexists _, _. split; [reflexivity|]. split; [intros H; now elim E|].
        split; [intros _ H; now elim H|]. intros _ _. split.
        -- unfold after_spawn; cbn [log]. rewrite !spawned_app. cbn.
           now rewrite <- app_assoc.
        -- apply Z.eqb_eq in Ec2. tauto.
      * eexists _, _. split; [reflexivity|]. split; [intros H; now elim E|].
        split; [intros _ H; now elim H|]. intros _ _. split.
        -- unfold after_spawn; cbn [log]. rewrite !spawned_app. cbn.
           now rewrite <- app_assoc.
        -- apply Z.eqb_neq in Ec2. split; [discriminate | intros H; now elim Ec2].
    + apply Z.eqb_neq in Ec.
      eexists _, _. split; [reflexivity|]. split; [intros H; now elim E|].
      split; [|intros _ H; now elim Ec].
      intros _ _. split; [reflexivity|].
      unfold after_spawn; cbn [log]. rewrite spawned_app. reflexivity.
Qed.

(** X9.  [_git_diff] never raises and never returns the empty text; when
    git succeeds the text is at most [max_chars] characters of diff followed
    by a marker of 16 characters. *)
Theorem git_diff_bounded (W : World) (dir : Path) (staged : bool) (max_chars : Z) (s : st) :
  (0 <= max_chars)%Z ->
  exists r s',
    Orchestrator._git_diff W dir staged max_chars s = (inr r, s') /\
    r <> "" /\
    (fst (git_outcome W (n_proc s)
            (if staged then ["git"; "diff"; "--staged"] else ["git"; "diff"])) = 0%Z ->
     (String.length r <= Z.to_nat max_chars + 16)%nat).
Proof.
  intros Hmax. unfold Orchestrator._git_diff, git_outcome.
  rewrite (bind_inr _ _ _ _ _ (orchestrator_run_eq W _ _ _ s)).
  destruct (run_outcome (if staged then ["git"; "diff"; "--staged"] else ["git"; "diff"]) 60
                        (proc_answer W (n_proc s))) as [code out].
  cbn [fst].
  destruct (code =? 0)%Z eqn:Ec; cbn [negb].
  - destruct (Z.of_nat (String.length out) >? max_chars)%Z eqn:El.
    + eexists _, _. split; [reflexivity|]. split.
      * intros H. apply (f_equal String.length) in H.
        rewrite !length_append in H. simpl in H. lia.
      * intros _. rewrite !length_append. unfold slice_to.
        destruct (max_chars >=? 0)%Z eqn:Eg; [|lia].
        unfold PyStr.first_chars.
        pose proof (length_substring_le out 0 (Z.to_nat max_chars)). simpl. lia.
    + eexists _, _. split; [reflexivity|]. split.
      * unfold str_or. destruct (String.eqb_spec out "") as [->|Hne]; [discriminate | exact Hne].
      * intros _. unfold str_or. destruct (String.eqb out ""); simpl; lia.
  - eexists _, _. split; [reflexivity|]. split; [discriminate|].
    intros H. apply Z.eqb_neq in Ec. contradiction.
Qed.

Lemma git_diff_bounded_witness :
  exists r s',
    Orchestrator._git_diff long_diff demo_repo false 10 st0 = (inr r, s') /\
    r <> "" /\
    (fst (git_outcome long_diff (n_proc st0) ["git"; "diff"]) = 0%Z ->
     (String.length r <= Z.to_nat 10 + 16)%nat).
Proof. apply (git_diff_bounded long_diff demo_repo false 10 st0). lia. Defined.

(** X11.  The tool [git_create_branch] records the branch in the state of
    the context only when the checkout succeeded: after a name that passes
    the guard and a checkout that exits with 0 the state holds the name under
    "branch"; after a failed checkout the state of the context is unchanged. *)
Theorem tool_branch_recorded (W : World) (ctx : RepoContext) (name : string) (s : st)
        (code : Z) (out err : string) :
  PyStr.contains_any BRANCH_FORBIDDEN name = false ->
  proc_answer W (n_proc s) = Exited code out err ->
  exists r s',
    ToolsRepo.git_create_branch W ctx name s = (inr r, s') /\
    (code = 0%Z -> r = "OK: on branch " ++ name /\
                   dict_get "branch" (ctx_state s') = Some name) /\
    (code <> 0%Z -> ctx_state s' = ctx_state s).
Proof.
  intros Hname Hans. unfold ToolsRepo.git_create_branch. rewrite Hname.
  assert (E : ToolsRepo._run W ["git"; "checkout"; "-b"; name] (repo_dir ctx) 60 s
              = (inr (code, PyStr.strip (combined_output (mkProc code out err))),
                 after_spawn s ["git"; "checkout"; "-b"; name] (repo_dir ctx) 60))
    by (rewrite tools_run_eq, Hans; reflexivity).
  rewrite (bind_inr _ _ _ _ _ E).
  destruct (code =? 0)%Z eqn:Ec; cbn [negb].
  - apply Z.eqb_eq in Ec. eexists _, _. split; [reflexivity|]. split; [|intros H; now elim H].
    intros _. split; [reflexivity|]. cbn [ctx_state]. rewrite dict_get_set.
    now rewrite String.eqb_refl.
  - apply Z.eqb_neq in Ec. eexists _, _. split; [reflexivity|].
    split; [intros H; now elim Ec | reflexivity].
Qed.

Lemma tool_branch_recorded_witness :
  exists r s',
    ToolsRepo.git_create_branch (scripted_world [] [] (inr no_tasks))
      (mkCtx demo_repo no_tasks "relialimo_dev") "ai/fix-login" st0 = (inr r, s') /\
    (0%Z = 0%Z -> r = "OK: on branch " ++ "ai/fix-login" /\
                  dict_get "branch" (ctx_state s') = Some "ai/fix-login") /\
    (0%Z <> 0%Z -> ctx_state s' = ctx_state st0).
Proof.
  apply (tool_branch_recorded (scripted_world [] [] (inr no_tasks))
           (mkCtx demo_repo no_tasks "relialimo_dev") "ai/fix-login" st0 0 "" "");
    reflexivity.
Defined.

(* ================================================================== *)
(** * The tools that touch files *)


Lemma py_index_in_range {A : Type} (l : list A) (d : A) (i : Z) :
  (0 <= i < Z.of_nat (List.length l))%Z ->
  Tools.py_index l i = Some (nth (Z.to_nat i) l d).
Proof.
  intros H. unfold Tools.py_index.
  destruct (Z.ltb_spec i 0); [lia|].
  apply nth_error_nth'. lia.
Qed.

Lemma numbered_lines_in_range (text : list string) (nums : list Z) :
  Forall (fun i => 1 <= i <= Z.of_nat (List.length text))%Z nums ->
  Tools.numbered_lines text nums = inr (map (numbered text) nums).
Proof.
  induction 1 as [|i rest Hi _ IH]; simpl.
  - reflexivity.
  - rewrite (py_index_in_range text "" (i - 1)) by lia.
    rewrite IH. reflexivity.
Qed.

Lemma py_range_bounds (a b : Z) :
  Forall (fun i => a <= i < b)%Z (Tools.py_range a b).
Proof.
  unfold Tools.py_range. apply Forall_forall. intros i Hi.
  apply in_map_iff in Hi. destruct Hi as (k & <- & Hk).
  apply in_seq in Hk. lia.
Qed.

Lemma py_range_length (a b : Z) :
  List.length (Tools.py_range a b) = Z.to_nat (b - a).
Proof. unfold Tools.py_range. rewrite length_map, length_seq. reflexivity. Qed.

(** X14.  For a path inside the repository that names an existing regular
    file whose text can be read, [read_file] returns for every pair of line
    numbers, also zero, negative ones, an end before the start or past the
    end of the file: it clamps the range to [max(1, start_line)] ..
    [min(len, end_line)], every line number it lists is a line of the file,
    and the answer is the header followed by those lines, numbered. *)
Theorem read_file_listing (W : World) (TW : Tools.ToolWorld) (ctx : RepoContext)
        (path : string) (start_line end_line : Z) (ts : Tools.tstate)
        (p : Path) (content : string) :
  abs_path W ctx path (Tools.core ts) = (inr p, Tools.core ts) ->
  Tools.path_exists TW p = true ->
  Tools.path_is_file TW p = true ->
  Tools.file_text TW p = inr content ->
  let text := PyStr.splitlines content in
  let first := Z.max 1 start_line in
  let last := Z.min (Z.of_nat (List.length text)) end_line in
  Tools.read_file W TW ctx path start_line end_line ts
  = (inr ("FILE: " ++ path ++ " (lines " ++ PyStr.str_int first ++ "-" ++
          PyStr.str_int last ++ " of " ++ PyStr.str_int (Z.of_nat (List.length text)) ++
          ")" ++ NL ++
          PyStr.join NL (map (numbered text) (Tools.py_range first (last + 1)))),
     Tools.tlogged (Tools.ReadText p) ts) /\
  List.length (Tools.py_range first (last + 1)) = Z.to_nat (last + 1 - first) /\
  Forall (fun i => 1 <= i <= Z.of_nat (List.length text))%Z
         (Tools.py_range first (last + 1)).
Proof.
  intros Habs Hex Hfile Htext text first last.
  assert (Hrange : Forall (fun i => 1 <= i <= Z.of_nat (List.length text))%Z
                          (Tools.py_range first (last + 1))).
  { eapply Forall_impl; [|apply py_range_bounds].
    intros i Hi. cbv beta in *. unfold first, last in *. lia. }
  split; [|split; [apply py_range_length | exact Hrange]].
  unfold Tools.read_file, Tools.tbind, Tools.lift.
  rewrite Habs, Hex, Hfile. cbn [negb orb].
  unfold Tools.read_text. rewrite Htext.
  fold text. fold first. fold last.
  rewrite (numbered_lines_in_range text _ Hrange).
  unfold Tools.tret, Tools.tlogged.
  f_equal. f_equal.
  repeat (rewrite append_assoc; cbn [append]). reflexivity.
Qed.

Lemma read_file_listing_witness :
  exists text,
    Tools.read_file (scripted_world [] [] (inr no_tasks)) demo_files
                    (mkCtx demo_repo no_tasks "relialimo_dev") "README.md" 0 2 Tools.t0
    = (inr text, Tools.tlogged (Tools.ReadText readme) Tools.t0).
Proof.
  eexists.
  exact (proj1 (read_file_listing (scripted_world [] [] (inr no_tasks)) demo_files
                  (mkCtx demo_repo no_tasks "relialimo_dev") "README.md" 0 2 Tools.t0
                  readme ("RELIALIMO" ++ NL ++ "Agents for a repository" ++ NL ++ "MIT")
                  eq_refl eq_refl eq_refl eq_refl)).
Defined.



(** X16.  [run_task] on a task that is not configured answers SKIP and
    leaves the state untouched.  On a configured task it starts exactly that
    task's command, once, in its directory and with the given time limit.
    When [subprocess.run] returns, the answer is OK or FAIL(code) as the exit
    code of that process is 0 or not, followed by the command and the last
    4000 characters of the stripped output, and that exit code and that tail
    are what the state holds under "task:<name>", the other keys unchanged.
    When the process runs out of time or cannot be started, that exception
    is raised and nothing is stored. *)
Theorem run_task_trace (W : World) (ctx : RepoContext)
        (task : string) (timeout_sec : Z) (ts : Tools.tstate) :
  match dict_get task (tasks (config ctx)) with
  | None =>
      Tools.run_task W ctx task timeout_sec ts
      = (inr ("SKIP: task not configured: " ++ task), ts)
  | Some spec =>
      exists r ts',
        Tools.run_task W ctx task timeout_sec ts = (r, ts') /\
        Tools.core ts'
        = after_spawn (Tools.core ts) (argv spec) (joinpath (repo_dir ctx) (cwd spec))
                      timeout_sec /\
        Tools.tlog ts' = Tools.tlog ts /\
        match proc_answer W (n_proc (Tools.core ts)) with
        | Exited code out err =>
            let tail :=
              PyStr.last_chars 4000 (PyStr.strip (combined_output (mkProc code out err))) in
            r = inr ((if (code =? 0)%Z then "OK" else "FAIL(" ++ PyStr.str_int code ++ ")")
                     ++ ": " ++ PyStr.join " " (argv spec) ++ NL ++ tail) /\
            dict_get ("task:" ++ task) (Tools.task_results ts') = Some (code, tail) /\
            (forall k, k <> "task:" ++ task ->
                       dict_get k (Tools.task_results ts') = dict_get k (Tools.task_results ts)) /\
            (String.length tail <= 4000)%nat
        | TimedOut =>
            r = inl (TimeoutExpired (argv spec) timeout_sec) /\
            Tools.task_results ts' = Tools.task_results ts
        | LaunchFailed e =>
            r = inl e /\ Tools.task_results ts' = Tools.task_results ts
        end
  end.
Proof.
  unfold Tools.run_task.
  destruct (dict_get task (tasks (config ctx))) as [spec|] eqn:Hspec; [|reflexivity].
  unfold Tools.tbind, Tools.lift. rewrite tools_run_eq.
  destruct (proc_answer W (n_proc (Tools.core ts))) as [c out err | | e].
  - do 2 eexists. split; [reflexivity|]. cbn.
    split; [reflexivity|]. split; [reflexivity|].
    split; [reflexivity|]. split; [rewrite dict_get_set, String.eqb_refl; reflexivity|].
    split; [|apply length_substring_le].
    intros k Hk. rewrite dict_get_set. apply String.eqb_neq in Hk. now rewrite Hk.
  - do 2 eexists. split; [reflexivity|]. cbn. auto.
  - do 2 eexists. split; [reflexivity|]. cbn. auto.
Qed.

(** X17.  [apply_patch] either runs nothing and removes nothing (the
    validator rejected the patch, or making the temporary file raised) or
    writes the patch to a temporary file, runs [git apply --whitespace=nowarn]
    on it in the repository directory and then removes that file, whether
    git succeeded, failed or could not be started; it reaches git only with
    a patch the validator accepted.  It answers "OK: patch applied" exactly
    when all of this happened and git exited with code 0. *)
Theorem apply_patch_cleans_up (TW : Tools.ToolWorld) (ctx : RepoContext)
        (patch_text : string) (ts : Tools.tstate) :
  exists r ts',
    Tools.apply_patch TW ctx patch_text ts = (r, ts') /\
    Tools.core ts' = Tools.core ts /\
    Tools.task_results ts' = Tools.task_results ts /\
    ((Tools.tlog ts' = Tools.tlog ts /\
      (fst (_patch_is_safe patch_text) = false \/
       exists e, Tools.temp_file TW (Tools.n_temp ts) = inl e)) \/
     (fst (_patch_is_safe patch_text) = true /\
      exists name,
        Tools.temp_file TW (Tools.n_temp ts) = inr name /\
        Tools.tlog ts'
        = (Tools.tlog ts ++
           [Tools.TempWritten name patch_text;
            Tools.GitApply ["git"; "apply"; "--whitespace=nowarn"; name]
                           (path_str (repo_dir ctx));
            Tools.RemoveFile name])%list)) /\
    (r = inr "OK: patch applied" <->
     fst (_patch_is_safe patch_text) = true /\
     (exists name, Tools.temp_file TW (Tools.n_temp ts) = inr name) /\
     exists proc,
       Tools.git_apply_answer TW (Tools.n_apply ts) = inr proc /\ returncode proc = 0%Z).
Proof.
  unfold Tools.apply_patch.
  destruct (_patch_is_safe patch_text) as [ok msg] eqn:Hsafe. cbn [fst].
  destruct ok; cbn [negb].
  - unfold Tools.tbind, Tools.write_temp.
    destruct (Tools.temp_file TW (Tools.n_temp ts)) as [e | name] eqn:Htemp.
    + do 2 eexists. split; [reflexivity|]. cbn.
      split; [reflexivity|]. split; [reflexivity|]. split.
      * left. split; [reflexivity|]. right. exists e. reflexivity.
      * split; [discriminate|]. intros (_ & (name & H) & _). discriminate.
    + unfold Tools.finally, Tools.run_git_apply, Tools.remove_quietly, Tools.tlogged.
      cbn [Tools.core Tools.n_temp Tools.n_apply Tools.n_remove Tools.tlog
           Tools.task_results].
      destruct (Tools.git_apply_answer TW (Tools.n_apply ts)) as [e | proc] eqn:Hgit.
      * do 2 eexists. split; [reflexivity|]. cbn.
        split; [reflexivity|]. split; [reflexivity|]. split.
        -- right. split; [reflexivity|]. exists name. split; [reflexivity|].
           rewrite <- !app_assoc. reflexivity.
        -- split; [discriminate|]. intros (_ & _ & proc & H & _). discriminate.
      * destruct (returncode proc =? 0)%Z eqn:Hcode; cbn [negb].
        -- do 2 eexists. split; [reflexivity|]. cbn.
           split; [reflexivity|]. split; [reflexivity|]. split.
           ++ right. split; [reflexivity|]. exists name. split; [reflexivity|].
              rewrite <- !app_assoc. reflexivity.
           ++ split; [intros _|reflexivity].
              split; [reflexivity|]. split; [exists name; reflexivity|].
              exists proc. split; [reflexivity|]. apply Z.eqb_eq. exact Hcode.
        -- do 2 eexists. split; [reflexivity|]. cbn.
           split; [reflexivity|]. split; [reflexivity|]. split.
           ++ right. split; [reflexivity|]. exists name. split; [reflexivity|].
              rewrite <- !app_assoc. reflexivity.
           ++ split; [discriminate|].
              intros (_ & _ & proc' & H & Hz). injection H as <-.
              apply Z.eqb_neq in Hcode. contradiction.
  - do 2 eexists. split; [reflexivity|]. cbn.
    split; [reflexivity|]. split; [reflexivity|]. split.
    + left. auto.
    + split; [discriminate|]. intros (H & _). discriminate.
Qed.
